(** * VideoGraph: the ElevenLabs voiceover service

    A shallow embedding of [backend/modal/services/tts/elevenlabs.py]:
    the character-to-word timing reconstruction ([_extract_word_timings]),
    the cache key ([_get_cache_key]), the cost estimate ([_calculate_cost])
    and the cache/retry driver ([generate_voiceover]). Line numbers are
    those of that file.

    Conventions.
    - A Python [str] is the list of its code points ([pystr]); [py] reads an
      ASCII literal. A [bytes] value is the list of its bytes.
    - A Python [float] is a binary64 number ([PrimFloat.float]).
    - A Python exception is an [Exc]: its class name and what [str(e)] gives.
    - A call that can raise returns a [Result]; one that also reads or
      changes the files, the environment or the network is an [M].
    - The libraries whose result the function only passes on ([requests],
      [base64], [json] on the content of a file) are the fields of
      [Externals]; [hashlib.sha256], [json.dumps] of the cache key's dict,
      [str.encode] and the [pathlib] operations are written out.
    - [print] is left out: its output is not part of the world, and it is
      taken to succeed; where a statement depends on that, it assumes that
      what is printed is [printable]. *)

From Stdlib Require Import ZArith NArith Strings.String Strings.Ascii.
From Stdlib Require Import Floats.PrimFloat.
From Stdlib Require Numbers.Cyclic.Int63.Uint63.
From stdpp Require Import base tactics option list numbers.
From stdpp Require Import strings pretty gmap.

Local Open Scope Z_scope.
Local Set Warnings "-register-all".

(** ** Python strings *)

Abbreviation pystr := (list N).

Definition py (s : string) : pystr :=
  (λ a, N_of_ascii a) <$> list_ascii_of_string s.

(** [str.isspace] on one code point: the code points CPython's
    [Py_UNICODE_ISSPACE] accepts. [str.strip()] removes exactly these. *)
Definition py_isspace (c : N) : bool :=
  ((0x09 <=? c) && (c <=? 0x0d) ||
   (0x1c <=? c) && (c <=? 0x20) ||
   (c =? 0x85) || (c =? 0xa0) || (c =? 0x1680) ||
   (0x2000 <=? c) && (c <=? 0x200a) ||
   (c =? 0x2028) || (c =? 0x2029) || (c =? 0x202f) ||
   (c =? 0x205f) || (c =? 0x3000))%N.

Fixpoint lstrip (s : pystr) : pystr :=
  match s with
  | c :: s' => if py_isspace c then lstrip s' else s
  | [] => []
  end.

Definition rstrip (s : pystr) : pystr := reverse (lstrip (reverse s)).

(** [s.strip()] *)
Definition strip (s : pystr) : pystr := rstrip (lstrip s).

(** Truth value of a string or a list: non-empty. *)
Definition truthy {A} (l : list A) : bool :=
  match l with [] => false | _ => true end.

(** ** Exceptions and results *)

Record Exc := mkExc { exc_type : string; exc_str : pystr }.

Inductive Result (A : Type) : Type :=
| Ok (a : A)
| Err (e : Exc).
Arguments Ok {A} a.
Arguments Err {A} e.

Global Instance Result_ret : MRet Result := λ A a, Ok a.
Global Instance Result_bind : MBind Result := λ A B f m,
  match m with Ok a => f a | Err e => Err e end.

Definition IndexError : Exc :=
  mkExc "IndexError" (py "list index out of range").

(** [l[i]] on a Python list: a negative index counts from the end, an index
    out of range raises [IndexError]. *)
Definition getitem {A} (l : list A) (i : Z) : Result A :=
  let j := if i <? 0 then i + Z.of_nat (length l) else i in
  if j <? 0 then Err IndexError
  else match l !! Z.to_nat j with
       | Some x => Ok x
       | None => Err IndexError
       end.

(** ** Timing reconstruction *)

(** One entry of the returned list: the dict with keys ['text'], ['start'],
    ['end'], ['char_start_index'], ['char_end_index']. The times are values
    copied out of the input lists, of whatever type [T] those hold. *)
Record WordTiming (T : Type) := mkWord {
  w_text : pystr;
  w_start : T;
  w_end : T;
  char_start_index : Z;
  char_end_index : Z
}.
Arguments mkWord {T}.
Arguments w_text {T}.
Arguments w_start {T}.
Arguments w_end {T}.
Arguments char_start_index {T}.
Arguments char_end_index {T}.

(** The list [[' ', '\n', '\t']] of lines 192 and 201. *)
Definition word_breaks : list pystr := [ [0x20%N]; [0x0a%N]; [0x09%N] ].

(** [char in [' ', '\n', '\t']] *)
Definition is_word_break (char : pystr) : bool :=
  bool_decide (char ∈ word_breaks).

Section extract_word_timings.
Context {T : Type}.
(** Python's integer [0], as a value of the time type (the [else 0]
    defaults of lines 185, 207 and 218, and the initial ['end': 0]). *)
Variable zero : T.
Variables (characters : list pystr) (start_times end_times : list T).

(** Lines 200-202: the [while] loop that advances [next_char_idx] over a run
    of whitespace. The loop guard is [next_char_idx < len(characters) and
    characters[next_char_idx] in [...]]; [fuel] bounds the iterations. *)
Fixpoint skip_whitespace (fuel : nat) (next_char_idx : nat) : nat :=
  match fuel with
  | O => next_char_idx
  | S fuel' =>
      match characters !! next_char_idx with
      | Some c =>
          if is_word_break c then skip_whitespace fuel' (S next_char_idx)
          else next_char_idx
      | None => next_char_idx
      end
  end.

(** Lines 192-214: one iteration of [for i, char in enumerate(characters)],
    on the pair ([words], [current_word]). *)
Definition loop_body (i : nat) (char : pystr)
    (st : list (WordTiming T) * WordTiming T)
    : Result (list (WordTiming T) * WordTiming T) :=
  let '(words, current_word) := st in
  if is_word_break char then
    '(words, current_word) ←
      (if truthy (strip (w_text current_word)) then
         e ← (if (0 <? i)%nat then getitem end_times (Z.of_nat i - 1)
              else getitem start_times (Z.of_nat i));
         let current_word :=
           mkWord (w_text current_word) (w_start current_word) e
                  (char_start_index current_word) (Z.of_nat i - 1) in
         Ok (words ++ [current_word], current_word)
       else Ok (words, current_word));
    let next_char_idx :=
      skip_whitespace (length characters - (i + 1)) (i + 1) in
    if (next_char_idx <? length characters)%nat then
      s ← (if (next_char_idx <? length start_times)%nat
           then getitem start_times (Z.of_nat next_char_idx)
           else Ok zero);
      Ok (words,
          mkWord [] s zero (Z.of_nat next_char_idx) (Z.of_nat next_char_idx))
    else Ok (words, current_word)
  else
    Ok (words,
        mkWord (w_text current_word ++ char) (w_start current_word)
               (w_end current_word) (char_start_index current_word)
               (Z.of_nat i)).

(** The [for] loop over [enumerate(characters)], from index [i] on. *)
Fixpoint for_loop (i : nat) (rest : list pystr)
    (st : list (WordTiming T) * WordTiming T)
    : Result (list (WordTiming T) * WordTiming T) :=
  match rest with
  | [] => Ok st
  | char :: rest' => st' ← loop_body i char st; for_loop (S i) rest' st'
  end.

(** Lines 173-221. *)
Definition _extract_word_timings : Result (list (WordTiming T)) :=
  if negb (truthy characters) || negb (truthy start_times)
     || negb (truthy end_times) then Ok []
  else
    s0 ← (if truthy start_times then getitem start_times 0 else Ok zero);
    let current_word := mkWord [] s0 zero 0 0 in
    '(words, current_word) ← for_loop 0 characters ([], current_word);
    if truthy (strip (w_text current_word)) then
      e ← (if truthy end_times then getitem end_times (-1) else Ok zero);
      Ok (words ++ [mkWord (w_text current_word) (w_start current_word) e
                           (char_start_index current_word)
                           (char_end_index current_word)])
    else Ok words.

End extract_word_timings.

(** [list("...")]: the characters of a string, each a one-character string. *)
Definition chars_of (s : pystr) : list pystr := (λ c, [c]) <$> s.

(** The result that the spec's example gives for ["hi there"] with start
    times 0..7 and end times 1..8, following the spec's words: ["hi"] from 0
    to 2 and ["there"] from 4 to 8, over some character index ranges. *)
Definition spec_hi_there_words (words : list (WordTiming Z)) : Prop :=
  ∃ i1 j1 i2 j2,
    words = [ mkWord (py "hi") 0 2 i1 j1; mkWord (py "there") 4 8 i2 j2 ].

(** ** [json.dumps] of a dict of strings *)

(** One lower-case hexadecimal digit, as a code point. *)
Definition hex_digit (d : N) : N :=
  (if d <? 10 then 48 + d else 87 + d)%N.

(** ['{0:04x}'.format(n)], for [n < 0x10000]. *)
Definition hex4 (n : N) : pystr :=
  [ hex_digit (n / 4096 mod 16); hex_digit (n / 256 mod 16);
    hex_digit (n / 16 mod 16); hex_digit (n mod 16) ]%N.

(** [json.encoder.py_encode_basestring_ascii], one character: what
    [ESCAPE_ASCII.sub(replace, s)] puts in place of the code point [c].
    Code points from [' '] to ['~'] other than the quote and the backslash
    stand for themselves; the entries of [ESCAPE_DCT] come first, then the
    [\uXXXX] form, a surrogate pair above the basic plane. *)
Definition escape_char (c : N) : pystr :=
  (if c =? 92 then py "\\"
   else if c =? 34 then [92; 34]
   else if c =? 8 then py "\b"
   else if c =? 12 then py "\f"
   else if c =? 10 then py "\n"
   else if c =? 13 then py "\r"
   else if c =? 9 then py "\t"
   else if (32 <=? c) && (c <=? 126) then [c]
   else if c <? 0x10000 then py "\u" ++ hex4 c
   else
     let n := c - 0x10000 in
     let s1 := N.lor 0xd800 (N.land (N.shiftr n 10) 0x3ff) in
     let s2 := N.lor 0xdc00 (N.land n 0x3ff) in
     py "\u" ++ hex4 s1 ++ py "\u" ++ hex4 s2)%N.

(** [json.dumps(s)] for a string [s] (the default [ensure_ascii=True]). *)
Definition encode_basestring_ascii (s : pystr) : pystr :=
  [34%N] ++ (s ≫= escape_char) ++ [34%N].

(** A code point that is a Unicode scalar value: at most [0x10FFFF] and no
    surrogate. *)
Definition is_scalar (c : N) : bool :=
  ((c <? 0xd800) || (0xdfff <? c) && (c <=? 0x10ffff))%N.

(** Reading one escaped character back, the inverse of [escape_char] on
    scalar values: the character and the rest of the text. *)
Definition unhex (x : N) : N :=
  (if x <? 58 then x - 48 else x - 87)%N.

Definition unhex4 (a b c d : N) : N :=
  (unhex a * 4096 + unhex b * 256 + unhex c * 16 + unhex d)%N.

Definition unescape_short (x : N) : N :=
  (if x =? 98 then 8 else if x =? 102 then 12 else if x =? 110 then 10
   else if x =? 114 then 13 else if x =? 116 then 9 else x)%N.

Definition unescape_u (s : pystr) : option (N * pystr) :=
  match s with
  | a :: b :: c :: d :: r => Some (unhex4 a b c d, r)
  | _ => None
  end.

Definition unescape_first (s : pystr) : option (N * pystr) :=
  match s with
  | [] => None
  | x :: r =>
      if (x =? 92)%N then
        match r with
        | [] => None
        | y :: r' =>
            if (y =? 117)%N then
              '(hi, r1) ← unescape_u r';
              if ((0xd800 <=? hi) && (hi <=? 0xdbff))%N then
                match r1 with
                | _ :: _ :: r2 =>
                    '(lo, r3) ← unescape_u r2;
                    Some (0x10000 + (hi - 0xd800) * 1024 + (lo - 0xdc00), r3)%N
                | _ => None
                end
              else Some (hi, r1)
            else Some (unescape_short y, r')
        end
      else Some (x, r)
  end.

(** [a < b] on strings: lexicographic on code points. *)
Fixpoint str_ltb (a b : pystr) : bool :=
  match a, b with
  | _, [] => false
  | [], _ :: _ => true
  | x :: a', y :: b' => (x <? y)%N || ((x =? y)%N && str_ltb a' b')
  end.

Fixpoint insert_item (kv : pystr * pystr) (l : list (pystr * pystr))
    : list (pystr * pystr) :=
  match l with
  | [] => [kv]
  | kv' :: l' =>
      if str_ltb kv'.1 kv.1 then kv' :: insert_item kv l' else kv :: l
  end.

(** [sorted(dct.items())], for a dict given by its items (keys distinct). *)
Definition sorted_items (items : list (pystr * pystr))
    : list (pystr * pystr) :=
  foldr insert_item [] items.

Fixpoint join (sep : pystr) (parts : list pystr) : pystr :=
  match parts with
  | [] => []
  | [p] => p
  | p :: rest => p ++ sep ++ join sep rest
  end.

(** [json.dumps(data, sort_keys=True)] for a dict [data] whose keys and
    values are strings: the default separators [', '] and [': ']. *)
Definition json_dumps_sort_keys (data : list (pystr * pystr)) : pystr :=
  py "{" ++
  join (py ", ")
       ((λ kv, encode_basestring_ascii kv.1 ++ py ": "
                 ++ encode_basestring_ascii kv.2) <$> sorted_items data)
  ++ py "}".

(** ** [str.encode('utf-8')] *)

Definition UnicodeEncodeError : Exc :=
  mkExc "UnicodeEncodeError" (py "'utf-8' codec can't encode character").

Definition utf8_char (c : N) : Result (list N) :=
  (if c <? 0x80 then Ok [c]
   else if c <? 0x800 then Ok [0xc0 + c / 64; 0x80 + c mod 64]
   else if (0xd800 <=? c) && (c <=? 0xdfff) then Err UnicodeEncodeError
   else if c <? 0x10000 then
     Ok [0xe0 + c / 4096; 0x80 + c / 64 mod 64; 0x80 + c mod 64]
   else if c <? 0x110000 then
     Ok [0xf0 + c / 262144; 0x80 + c / 4096 mod 64;
         0x80 + c / 64 mod 64; 0x80 + c mod 64]
   else Err UnicodeEncodeError)%N.

Fixpoint utf8_encode (s : pystr) : Result (list N) :=
  match s with
  | [] => Ok []
  | c :: s' => b ← utf8_char c; bs ← utf8_encode s'; Ok (b ++ bs)
  end.

(** ** SHA-256 (FIPS 180-4) on a list of bytes *)

Module SHA256.
Local Open Scope N_scope.

Definition add32 (x y : N) : N := (x + y) mod 2 ^ 32.
Definition rotr (n x : N) : N :=
  N.lor (N.shiftr x n) (N.shiftl x (32 - n) mod 2 ^ 32).
Definition not32 (x : N) : N := N.lxor x 0xffffffff.

Definition Ch (x y z : N) : N := N.lxor (N.land x y) (N.land (not32 x) z).
Definition Maj (x y z : N) : N :=
  N.lxor (N.lxor (N.land x y) (N.land x z)) (N.land y z).
Definition Sigma0 (x : N) : N :=
  N.lxor (N.lxor (rotr 2 x) (rotr 13 x)) (rotr 22 x).
Definition Sigma1 (x : N) : N :=
  N.lxor (N.lxor (rotr 6 x) (rotr 11 x)) (rotr 25 x).
Definition sigma0 (x : N) : N :=
  N.lxor (N.lxor (rotr 7 x) (rotr 18 x)) (N.shiftr x 3).
Definition sigma1 (x : N) : N :=
  N.lxor (N.lxor (rotr 17 x) (rotr 19 x)) (N.shiftr x 10).

(** The first 64 primes. *)
Definition is_prime (p : N) : bool :=
  (1 <? p) && forallb (λ d, negb (p mod N.of_nat d =? 0))
                      (seq 2 (N.to_nat p - 2)).

Definition primes : list N :=
  Eval vm_compute in filter is_prime (N.of_nat <$> seq 0 312).

(** The largest [r] with [r ^ 3 <= n], found bit by bit from bit [bits]
    down. *)
Fixpoint cube_root_from (bits : nat) (n r : N) : N :=
  match bits with
  | O => r
  | S bits' =>
      let r' := r + 2 ^ N.of_nat bits' in
      cube_root_from bits' n (if r' ^ 3 <=? n then r' else r)
  end.

(** The round constants: the first 32 bits of the fractional parts of the
    cube roots of the first 64 primes. *)
Definition K : list N :=
  Eval vm_compute in
    (λ p, cube_root_from 36 (p * 2 ^ 96) 0 mod 2 ^ 32) <$> primes.

(** The initial hash value: the first 32 bits of the fractional parts of
    the square roots of the first 8 primes. *)
Definition H0 : list N :=
  Eval vm_compute in
    (λ p, N.sqrt (p * 2 ^ 64) mod 2 ^ 32) <$> take 8 primes.

(** Padding: a [1] bit, zero bits up to 56 bytes modulo 64, then the
    message length in bits on 8 bytes, big-endian. *)
Definition be_bytes (n : nat) (x : N) : list N :=
  (λ i, x / 2 ^ (8 * N.of_nat i) mod 256) <$> reverse (seq 0 n).

Definition pad (msg : list N) : list N :=
  let len := N.of_nat (length msg) in
  let zeros := N.to_nat ((119 - len mod 64) mod 64) in
  msg ++ [0x80] ++ replicate zeros 0 ++ be_bytes 8 (8 * len).

Fixpoint be_words (bs : list N) : list N :=
  match bs with
  | b0 :: b1 :: b2 :: b3 :: rest =>
      (b0 * 2 ^ 24 + b1 * 2 ^ 16 + b2 * 2 ^ 8 + b3) :: be_words rest
  | _ => []
  end.

(** The message schedule: [w] holds [W_0 .. W_{t-1}], [n] more words are
    added. *)
Fixpoint schedule (n : nat) (w : list N) : list N :=
  match n with
  | O => w
  | S n' =>
      let t := length w in
      let wt :=
        add32 (add32 (add32 (sigma1 (nth (t - 2) w 0)) (nth (t - 7) w 0))
                     (sigma0 (nth (t - 15) w 0)))
              (nth (t - 16) w 0) in
      schedule n' (w ++ [wt])
  end.

Record Regs := mkRegs { ra : N; rb : N; rc : N; rd : N;
                        re : N; rf : N; rg : N; rh : N }.

Definition round (r : Regs) (kw : N * N) : Regs :=
  let t1 :=
    add32 (add32 (add32 (add32 (rh r) (Sigma1 (re r)))
                        (Ch (re r) (rf r) (rg r))) kw.1) kw.2 in
  let t2 := add32 (Sigma0 (ra r)) (Maj (ra r) (rb r) (rc r)) in
  mkRegs (add32 t1 t2) (ra r) (rb r) (rc r)
         (add32 (rd r) t1) (re r) (rf r) (rg r).

Definition regs_of (h : list N) : Regs :=
  mkRegs (nth 0 h 0) (nth 1 h 0) (nth 2 h 0) (nth 3 h 0)
         (nth 4 h 0) (nth 5 h 0) (nth 6 h 0) (nth 7 h 0).

Definition list_of (r : Regs) : list N :=
  [ra r; rb r; rc r; rd r; re r; rf r; rg r; rh r].

(** One 512-bit block (16 words) folded into the hash value [h]. *)
Definition compress (block : list N) (h : list N) : list N :=
  let w := schedule 48 block in
  let r := foldl round (regs_of h) (zip K w) in
  zip_with add32 h (list_of r).

Fixpoint blocks (n : nat) (ws : list N) (h : list N) : list N :=
  match n with
  | O => h
  | S n' => blocks n' (drop 16 ws) (compress (take 16 ws) h)
  end.

Definition digest_words (msg : list N) : list N :=
  let ws := be_words (pad msg) in
  blocks (length ws / 16) ws H0.

(** [hashlib.sha256(msg).hexdigest()] *)
Definition hexdigest (msg : list N) : pystr :=
  digest_words msg ≫= (λ w, hex4 (w / 65536) ++ hex4 (w mod 65536)).

End SHA256.

(** ** The cache key *)

(** Lines 160-164. *)
Definition cache_data (text voice_id : pystr) : list (pystr * pystr) :=
  [ (py "text", text); (py "voice_id", voice_id);
    (py "service", py "elevenlabs_timed") ].

(** What [data_str] is, written out: the three items in the order of their
    keys, the two arguments escaped between quotes. *)
Definition quote : pystr := [34%N].

Definition data_str_head : pystr :=
  py "{" ++ quote ++ py "service" ++ quote ++ py ": " ++ quote
    ++ py "elevenlabs_timed" ++ quote ++ py ", " ++ quote ++ py "text"
    ++ quote ++ py ": " ++ quote.

Definition data_str_middle : pystr :=
  py ", " ++ quote ++ py "voice_id" ++ quote ++ py ": " ++ quote.

Definition _get_cache_key (text voice_id : pystr) : Result pystr :=
  let data := cache_data text voice_id in
  let data_str := json_dumps_sort_keys data in
  b ← utf8_encode data_str;
  Ok (SHA256.hexdigest b).


(** ** The cost estimate *)

(** [float(n)] for the length of a string. *)
Definition float_of_len (n : nat) : float :=
  PrimFloat.of_uint63 (Uint63.of_Z (Z.of_nat n)).

(** The double that the literal [0.0003] denotes. *)
Definition cost_per_character : float := 0x1.3a92a30553261p-12%float.

(** Lines 167-170: [len(text) * 0.0003]. *)
Definition _calculate_cost (text : pystr) : float :=
  PrimFloat.mul (float_of_len (length text)) cost_per_character.

(** ** JSON values, as [json.loads] and [response.json()] return them *)

Inductive Json :=
| JNull
| JBool (b : bool)
| JInt (n : Z)
| JFloat (f : float)
| JStr (s : pystr)
| JArr (l : list Json)
| JObj (items : list (pystr * Json)).

(** [not v] *)
Definition json_falsy (v : Json) : bool :=
  match v with
  | JNull => true
  | JBool b => negb b
  | JInt n => n =? 0
  | JFloat f => PrimFloat.eqb f 0%float
  | JStr s => negb (truthy s)
  | JArr l => negb (truthy l)
  | JObj items => negb (truthy items)
  end.

Fixpoint assoc (key : pystr) (items : list (pystr * Json)) : option Json :=
  match items with
  | [] => None
  | (k, v) :: items' => if decide (k = key) then Some v else assoc key items'
  end.

Definition type_name (v : Json) : pystr :=
  match v with
  | JNull => py "NoneType"
  | JBool _ => py "bool"
  | JInt _ => py "int"
  | JFloat _ => py "float"
  | JStr _ => py "str"
  | JArr _ => py "list"
  | JObj _ => py "dict"
  end.

Definition KeyError (key : pystr) : Exc :=
  mkExc "KeyError" (py "'" ++ key ++ py "'").
Definition TypeError (msg : pystr) : Exc := mkExc "TypeError" msg.
Definition AttributeError (v : Json) (attr : pystr) : Exc :=
  mkExc "AttributeError"
        (py "'" ++ type_name v ++ py "' object has no attribute '"
           ++ attr ++ py "'").

(** [v[key]] with a string key. *)
Definition subscript (v : Json) (key : pystr) : Result Json :=
  match v with
  | JObj items =>
      match assoc key items with
      | Some x => Ok x
      | None => Err (KeyError key)
      end
  | JArr _ => Err (TypeError (py "list indices must be integers or slices, not str"))
  | JStr _ => Err (TypeError (py "string indices must be integers"))
  | _ => Err (TypeError (py "'" ++ type_name v ++ py "' object is not subscriptable"))
  end.

(** [v.get(key, default)] *)
Definition dict_get (v : Json) (key : pystr) (dflt : Json) : Result Json :=
  match v with
  | JObj items => Ok (default dflt (assoc key items))
  | _ => Err (AttributeError v (py "get"))
  end.

(** ** Paths ([pathlib.PurePosixPath]) *)

(** A path is the list of its [parts]; the anchor (["/"], or ["//"]) is the
    first part when the path has one. *)
Abbreviation Path := (list pystr).

(** [s.split(sep)] for a one-character separator. *)
Fixpoint split_on (sep : N) (s : pystr) : list pystr :=
  match s with
  | [] => [[]]
  | c :: s' =>
      if decide (c = sep) then [] :: split_on sep s'
      else match split_on sep s' with
           | x :: xs => (c :: x) :: xs
           | [] => [[c]]
           end
  end.

Fixpoint lstrip_sep (s : pystr) : pystr :=
  match s with
  | c :: s' => if decide (c = 47%N) then lstrip_sep s' else s
  | [] => []
  end.

(** [Path(s)]: the anchor is ["/"] when [s] starts with a slash (["//"] when
    it starts with exactly two); empty and ["."] components are dropped. *)
Definition Path_of_str (s : pystr) : Path :=
  let rel := lstrip_sep s in
  let anchor :=
    match (length s - length rel)%nat with
    | O => []
    | 2%nat => [py "//"]
    | _ => [py "/"]
    end in
  anchor ++ filter (λ x, x ≠ [] ∧ x ≠ py ".") (split_on 47 rel).

Definition is_anchor (part : pystr) : bool :=
  match part with
  | c :: _ => bool_decide (c = 47%N)
  | [] => false
  end.

(** [p.parent] *)
Definition parent (p : Path) : Path :=
  match p with
  | [a] => if is_anchor a then p else []
  | _ => removelast p
  end.

(** [p.name] *)
Definition path_name (p : Path) : pystr :=
  match p with
  | [a] => if is_anchor a then [] else a
  | _ => default [] (last p)
  end.

(** [str(p)] *)
Definition path_str (p : Path) : pystr :=
  match p with
  | [] => py "."
  | a :: rest => if is_anchor a then a ++ join (py "/") rest
                 else join (py "/") p
  end.

(** [p / s] *)
Definition joinpath (p : Path) (s : pystr) : Path :=
  let q := Path_of_str s in
  match q with
  | a :: _ => if is_anchor a then q else p ++ q
  | [] => p
  end.

(** [name.rfind('.')], as [None] for [-1]. *)
Fixpoint rfind_dot (name : pystr) : option nat :=
  match name with
  | [] => None
  | c :: name' =>
      match rfind_dot name' with
      | Some i => Some (S i)
      | None => if decide (c = 46%N) then Some O else None
      end
  end.

Definition ValueError (msg : pystr) : Exc := mkExc "ValueError" msg.

(** [p.with_suffix(suffix)], for a valid [suffix]: the last dot of the name,
    when it is neither its first nor its last character, starts the suffix
    that is replaced. *)
Definition with_suffix (p : Path) (suffix : pystr) : Result Path :=
  let name := path_name p in
  if negb (truthy name) then
    Err (ValueError (py "PosixPath('" ++ path_str p ++ py "') has an empty name"))
  else
    let stem :=
      match rfind_dot name with
      | Some i =>
          if (0 <? i)%nat && (i <? length name - 1)%nat then take i name
          else name
      | None => name
      end in
    Ok (removelast p ++ [stem ++ suffix]).

(** ** The world: environment variables, files, the network *)

(** A file holds what was written to it: bytes ([write_bytes]) or text
    ([write_text]). *)
Inductive Node :=
| File (content : pystr)
| Dir.

(** The files and directories by path: a list of entries, the latest entry
    of a path first. *)
Abbreviation Files := (list (Path * Node)).

Fixpoint files_lookup (files : Files) (p : Path) : option Node :=
  match files with
  | [] => None
  | (q, n) :: files' => if decide (q = p) then Some n else files_lookup files' p
  end.

Definition files_insert (p : Path) (n : Node) (files : Files) : Files :=
  (p, n) :: files.

(** [posts] counts the calls of [requests.post] so far; [writes] lists the
    files written so far ([write_bytes] and [write_text]), oldest first. *)
Record World := mkWorld {
  env : gmap string pystr;
  fs : Files;
  posts : nat;
  writes : list Path
}.

(** The request of lines 92-108. *)
Record Request := mkRequest {
  url : pystr;
  xi_api_key : pystr;
  req_text : pystr;
  model_id : pystr;
  stability : float;
  similarity_boost : float;
  style : float;
  use_speaker_boost : bool;
  timeout : Z
}.

(** What lines 108-110 give: [requests.post], [raise_for_status] or
    [response.json()] raises, or the parsed body is returned. *)
Inductive PostOutcome :=
| Raises (e : Exc)
| Responds (result : Json).

(** The libraries and the network the function calls.
    - [http_post n req]: the outcome of the call of [requests.post] made
      after [n] earlier ones.
    - [b64decode]: [base64.b64decode].
    - [json_loads]: [json.loads(p.read_text())] as a function of the content
      of the file [p] (decoding errors are among its errors).
    - [json_dumps]: [json.dumps(v, indent=2)]. *)
Record Externals := mkExternals {
  http_post : nat → Request → PostOutcome;
  b64decode : Json → Result pystr;
  json_loads : pystr → Result Json;
  json_dumps : Json → pystr
}.

(** A computation that reads and changes the world, and may raise; what it
    changed before raising stays changed. *)
Definition M (A : Type) : Type := World → Result A * World.

Global Instance M_ret : MRet M := λ A a w, (Ok a, w).
Global Instance M_bind : MBind M := λ A B f m w,
  match m w with
  | (Ok a, w') => f a w'
  | (Err e, w') => (Err e, w')
  end.

Definition raise {A} (e : Exc) : M A := λ w, (Err e, w).
Definition lift {A} (r : Result A) : M A := λ w, (r, w).

(** What a run returned, when it returned, and the world it left. *)
Definition returned {A} (run : Result A * World) : option A :=
  match run.1 with
  | Ok a => Some a
  | Err _ => None
  end.

(** [try: m  except Exception as e: handler e] *)
Definition try_except {A} (m : M A) (handler : Exc → M A) : M A := λ w,
  match m w with
  | (Ok a, w') => (Ok a, w')
  | (Err e, w') => handler e w'
  end.

(** [os.getenv(name)] *)
Definition getenv (name : string) : M (option pystr) := λ w,
  (Ok (env w !! name), w).

(** [a or b] on values that are [None] or a string. *)
Definition py_or (a b : option pystr) : option pystr :=
  match a with
  | Some (_ :: _) => a
  | _ => b
  end.

(** The file system at [p]: the current directory and the root are
    directories. *)
Definition node_at (w : World) (p : Path) : option Node :=
  match p with
  | [] => Some Dir
  | [a] => if is_anchor a then Some Dir else files_lookup (fs w) p
  | _ => files_lookup (fs w) p
  end.

Definition os_error (class : string) (errno : string) (p : Path) : Exc :=
  mkExc class (py errno ++ py ": '" ++ path_str p ++ py "'").
Definition FileNotFoundError := os_error "FileNotFoundError" "[Errno 2] No such file or directory".
Definition FileExistsError := os_error "FileExistsError" "[Errno 17] File exists".
Definition NotADirectoryError := os_error "NotADirectoryError" "[Errno 20] Not a directory".
Definition IsADirectoryError := os_error "IsADirectoryError" "[Errno 21] Is a directory".

(** [p.exists()] *)
Definition path_exists (p : Path) : M bool := λ w,
  (Ok (bool_decide (is_Some (node_at w p))), w).

(** [p.is_dir()] *)
Definition is_dir (p : Path) : M bool := λ w,
  (Ok match node_at w p with Some Dir => true | _ => false end, w).

(** [os.mkdir(p)] *)
Definition os_mkdir (p : Path) : M unit := λ w,
  match node_at w p with
  | Some _ => (Err (FileExistsError p), w)
  | None =>
      match node_at w (parent p) with
      | Some Dir => (Ok (), mkWorld (env w) (files_insert p Dir (fs w)) (posts w) (writes w))
      | Some (File _) => (Err (NotADirectoryError p), w)
      | None => (Err (FileNotFoundError p), w)
      end
  end.

Definition is_FileNotFoundError (e : Exc) : bool :=
  bool_decide (exc_type e = "FileNotFoundError"%string).

(** [p.mkdir(parents=False, exist_ok=True)] *)
Definition mkdir_exist_ok (p : Path) : M unit :=
  try_except (os_mkdir p) (λ e,
    if is_FileNotFoundError e then raise e
    else is_dir p ≫= λ d : bool, if d then mret () else raise e).

(** [p.mkdir(parents=True, exist_ok=True)]; [fuel] bounds the recursion on
    the parent, [length p] is enough. *)
Fixpoint mkdir_parents (fuel : nat) (p : Path) : M unit :=
  try_except (os_mkdir p) (λ e,
    if is_FileNotFoundError e then
      if decide (parent p = p) then raise e
      else match fuel with
           | O => raise e
           | S fuel' => mkdir_parents fuel' (parent p) ;; mkdir_exist_ok p
           end
    else is_dir p ≫= λ d : bool, if d then mret () else raise e).

(** [p.read_text()] *)
Definition read_text (p : Path) : M pystr := λ w,
  match node_at w p with
  | Some (File content) => (Ok content, w)
  | Some Dir => (Err (IsADirectoryError p), w)
  | None => (Err (FileNotFoundError p), w)
  end.

(** [p.write_bytes(content)] and [p.write_text(content)] *)
Definition write_file (p : Path) (content : pystr) : M unit := λ w,
  match node_at w p with
  | Some Dir => (Err (IsADirectoryError p), w)
  | _ =>
      match node_at w (parent p) with
      | Some Dir =>
          (Ok (), mkWorld (env w) (files_insert p (File content) (fs w))
                          (posts w) (writes w ++ [p]))
      | Some (File _) => (Err (NotADirectoryError p), w)
      | None => (Err (FileNotFoundError p), w)
      end
  end.

(** ** Voiceover generation *)

(** The returned dict. [word_timings] and [character_alignment] are JSON
    values: read back from the cache, or built from the response. *)
Record VoiceoverResult := mkResult {
  audio_path : pystr;
  word_timings : Json;
  character_alignment : Json;
  cost : float;
  character_count : Z;
  from_cache : bool
}.

(** A word timing as the dict the function builds. *)
Definition json_of_word (w : WordTiming Json) : Json :=
  JObj [ (py "text", JStr (w_text w)); (py "start", w_start w);
         (py "end", w_end w);
         (py "char_start_index", JInt (char_start_index w));
         (py "char_end_index", JInt (char_end_index w)) ].

Fixpoint as_strs (l : list Json) : option (list pystr) :=
  match l with
  | [] => Some []
  | JStr s :: l' => cons s <$> as_strs l'
  | _ => None
  end.

(** The call of line 122 on the JSON values of the response. A value that is
    falsy makes line 179 return the empty list. Otherwise the three values
    are taken to be arrays, [characters] an array of strings, as the provider
    sends them; the times are copied as they are. On other values the call
    is modelled as raising [TypeError]; this is what Python does on a number
    or [true], but not on a string or an object, which it iterates and
    indexes: the model covers the responses whose three fields are arrays
    or falsy. *)
Definition call_extract_word_timings (characters start_times end_times : Json)
    : Result (list (WordTiming Json)) :=
  if json_falsy characters || json_falsy start_times || json_falsy end_times
  then Ok []
  else
    match characters, start_times, end_times with
    | JArr cs, JArr ss, JArr es =>
        match as_strs cs with
        | Some cs' => _extract_word_timings (JInt 0) cs' ss es
        | None => Err (TypeError (py "can only concatenate str to str"))
        end
    | _, _, _ => Err (TypeError (py "alignment field is not a list"))
    end.

(** [str(e)] for the [last_error] of line 157, [None] before any failure. *)
Definition str_last_error (last_error : option Exc) : pystr :=
  match last_error with
  | Some e => exc_str e
  | None => py "None"
  end.

(** The exception of line 157. *)
Definition GenerationFailed (retries : Z) (last_error : option Exc) : Exc :=
  mkExc "Exception"
        (py "Failed to generate voiceover after " ++ py (pretty retries)
           ++ py " attempts: " ++ str_last_error last_error).

(** The exception of lines 59-61. *)
Definition ApiKeyRequired : Exc :=
  ValueError (py "ElevenLabs API key required. Set ELEVENLABS_API_KEY environment variable.").

Definition default_voice_id : pystr := py "K80wneyktrw2rE11kA2W".
Definition default_retries : Z := 3.

(** Lines 92-106: the url, the headers and the payload of the request. *)
Definition make_request (text voice_id api_key : pystr) : Request :=
  let url := py "https://api.elevenlabs.io/v1/text-to-speech/" ++ voice_id
               ++ py "/with-timestamps" in
  mkRequest url api_key text (py "eleven_multilingual_v2")
            0.5%float 0.75%float 0%float true 60.

(** What lines 47-67 leave for the rest of the function: the output path,
    the API key and the two cache paths. *)
Record Prepared := mkPrepared {
  p_output_path : Path;
  p_api_key : pystr;
  p_cached_audio : Path;
  p_cached_timing : Path
}.

(** The world after one more call of [requests.post]. *)
Definition after_post (w : World) : World :=
  mkWorld (env w) (fs w) (S (posts w)) (writes w).

Section voiceover.
Variable X : Externals.

(** [requests.post(url, json=payload, headers=headers, timeout=60)], then
    [raise_for_status()] and [response.json()]. *)
Definition requests_post (req : Request) : M Json := λ w,
  match http_post X (posts w) req with
  | Raises e => (Err e, after_post w)
  | Responds result => (Ok result, after_post w)
  end.

(** Lines 51-56. *)
Definition resolve_api_key : M (option pystr) :=
  k1 ← getenv "ELEVENLABS_API_KEY";
  k2 ← getenv "elevenlabs_key";
  k3 ← getenv "ELEVENLABS_KEY";
  k4 ← getenv "ELEVEN_API_KEY";
  mret (py_or (py_or (py_or k1 k2) k3) k4).

(** Lines 72-81: the body of the [try] of the cache branch. *)
Definition read_cache (text : pystr) (cached_audio cached_timing : Path)
    : M VoiceoverResult :=
  content ← read_text cached_timing;
  timing_data ← lift (json_loads X content);
  let cost := _calculate_cost text in
  wt ← lift (dict_get timing_data (py "word_timings") (JArr []));
  ca ← lift (dict_get timing_data (py "character_alignment") (JObj []));
  mret (mkResult (path_str cached_audio) wt ca cost
                 (Z.of_nat (length text)) true).

(** Lines 69-83: [Some] result when the cache answers, [None] when the
    function goes on to generate. The [print] of line 70, which comes
    before the [try], and that of line 83 in the handler are left out: a
    call reaches them with the first 50 characters of the text and with the
    error of the cache, and they raise when these cannot be encoded for the
    standard output. *)
Definition try_cache (text : pystr) (cached_audio cached_timing : Path)
    : M (option VoiceoverResult) :=
  path_exists cached_audio ≫= λ a : bool,
  (if a then path_exists cached_timing else mret false) ≫= λ b : bool,
  if b then
    try_except (r ← read_cache text cached_audio cached_timing; mret (Some r))
               (λ e, mret None)
  else mret None.

(** Lines 89-148: the body of the [try] of one attempt. The [print] calls
    of lines 89, 115 and 139 are left out: the first comes before the
    request with the first 50 characters of the text, the second after the
    audio is written with the name of the output file; they raise, inside
    the [try], when these cannot be encoded for the standard output. *)
Definition attempt (text : pystr) (output_path : Path)
    (voice_id api_key : pystr) (cached_audio cached_timing : Path)
    : M VoiceoverResult :=
  result ← requests_post (make_request text voice_id api_key);
  audio_base64 ← lift (subscript result (py "audio_base64"));
  audio_bytes ← lift (b64decode X audio_base64);
  write_file output_path audio_bytes;;
  alignment ← lift (dict_get result (py "alignment") (JObj []));
  characters ← lift (dict_get alignment (py "characters") (JArr []));
  char_start_times ←
    lift (dict_get alignment (py "character_start_times_seconds") (JArr []));
  char_end_times ←
    lift (dict_get alignment (py "character_end_times_seconds") (JArr []));
  words ← lift (call_extract_word_timings characters char_start_times
                                          char_end_times);
  let word_timings := JArr (json_of_word <$> words) in
  let timing_data :=
    JObj [ (py "text", JStr text); (py "word_timings", word_timings);
           (py "character_alignment", alignment) ] in
  timing_file ← lift (with_suffix output_path (py ".timing.json"));
  write_file timing_file (json_dumps X timing_data);;
  path_exists cached_audio ≫= λ cached : bool,
  (if cached then mret ()
   else write_file cached_audio audio_bytes;;
        write_file cached_timing (json_dumps X timing_data));;
  let cost := _calculate_cost text in
  mret (mkResult (path_str output_path) word_timings alignment cost
                 (Z.of_nat (length text)) false).

(** Lines 86-157: [for attempt in range(retries)], with [todo] iterations
    left, then the [raise] after the loop. An attempt that raises sets
    [last_error] and the loop goes on. The [print] calls of lines 152 and
    154 in the handler are left out; that of line 152 prints the error of
    the attempt. *)
Fixpoint retry_loop (body : M VoiceoverResult) (retries : Z) (todo : nat)
    (last_error : option Exc) : M VoiceoverResult :=
  match todo with
  | O => raise (GenerationFailed retries last_error)
  | S todo' =>
      try_except body (λ e, retry_loop body retries todo' (Some e))
  end.


(** Lines 47-67: the output directory, the API key, the cache paths. *)
Definition prepare (text : pystr) (output_path : pystr) (voice_id : pystr)
    : M Prepared :=
  let output_path := Path_of_str output_path in
  mkdir_parents (length (parent output_path)) (parent output_path);;
  resolve_api_key ≫= λ api_key : option pystr,
  match api_key with
  | None | Some [] => raise ApiKeyRequired
  | Some ((_ :: _) as api_key) =>
      cache_key ← lift (_get_cache_key text voice_id);
      let cache_dir := parent output_path in
      let cached_audio := joinpath cache_dir (cache_key ++ py ".mp3") in
      let cached_timing :=
        joinpath cache_dir (cache_key ++ py ".timing.json") in
      mret (mkPrepared output_path api_key cached_audio cached_timing)
  end.

(** Lines 85-157: the generation, once the cache has not answered. *)
Definition synthesize (text voice_id : pystr) (retries : Z) (p : Prepared)
    : M VoiceoverResult :=
  retry_loop (attempt text (p_output_path p) voice_id (p_api_key p)
                      (p_cached_audio p) (p_cached_timing p))
             retries (Z.to_nat retries) None.

(** Lines 18-157. [output_path] is the string the caller passes. *)
Definition generate_voiceover (text : pystr) (output_path : pystr)
    (voice_id : pystr) (retries : Z) : M VoiceoverResult :=
  p ← prepare text output_path voice_id;
  try_cache text (p_cached_audio p) (p_cached_timing p) ≫= λ hit,
  match hit with
  | Some r => mret r
  | None => synthesize text voice_id retries p
  end.

End voiceover.

(** ** A scenario for the examples *)

Module Demo.

Definition text : pystr := py "hi there".
Definition output_path : pystr := py "/outputs/job/section_1.mp3".
Definition api_key : pystr := py "sk_demo".

(** [_get_cache_key(text, voice_id)] for the default voice. *)
Definition key : pystr :=
  Eval vm_compute in
    SHA256.hexdigest (json_dumps_sort_keys (cache_data text default_voice_id)).

Definition job_dir : Path := [py "/"; py "outputs"; py "job"].
Definition cached_audio : Path := job_dir ++ [key ++ py ".mp3"].
Definition cached_timing : Path := job_dir ++ [key ++ py ".timing.json"].

Definition environ : gmap string pystr :=
  {[ "ELEVENLABS_API_KEY"%string := api_key ]}.

Definition dirs : Files :=
  [ ([py "/"; py "outputs"], Dir); (job_dir, Dir) ].

(** The output directory exists and is empty: nothing is cached. *)
Definition fresh : World := mkWorld environ dirs 0 [].

(** The same with a cache entry for [key], its timing file holding
    [timing_content]. *)
Definition cached (timing_content : pystr) : World :=
  mkWorld environ
          (files_insert cached_audio (File [0; 1; 2]%N)
             (files_insert cached_timing (File timing_content) dirs)) 0 [].

(** The alignment of ["hi there"], one time unit a character. *)
Definition alignment : Json :=
  JObj [ (py "characters", JArr (JStr <$> chars_of text));
         (py "character_start_times_seconds",
          JArr (JInt <$> [0; 1; 2; 3; 4; 5; 6; 7]));
         (py "character_end_times_seconds",
          JArr (JInt <$> [1; 2; 3; 4; 5; 6; 7; 8])) ].

(** A well-formed response, and one that lacks the audio. *)
Definition good_response : Json :=
  JObj [ (py "audio_base64", JStr (py "AAEC")); (py "alignment", alignment) ].
Definition no_audio_response : Json :=
  JObj [ (py "alignment", alignment) ].

Definition refused (n : nat) : Exc :=
  mkExc "ConnectionError" (py "connection refused, call " ++ py (pretty n)).

(** [base64.b64decode] where the scenario calls it: ["AAEC"] is the three
    bytes 0, 1, 2; the scenario holds any other argument undecodable. *)
Definition b64decode (v : Json) : Result pystr :=
  match v with
  | JStr s =>
      if decide (s = py "AAEC") then Ok [0; 1; 2]%N
      else Err (mkExc "binascii.Error" (py "Incorrect padding"))
  | _ => Err (TypeError (py "argument should be a bytes-like object or ASCII string"))
  end.

(** [json.loads] where the scenario calls it: the text of an empty array
    and of an empty object; the scenario holds any other content invalid. *)
Definition json_loads (content : pystr) : Result Json :=
  if decide (content = py "[]") then Ok (JArr [])
  else if decide (content = py "{}") then Ok (JObj [])
  else Err (mkExc "JSONDecodeError" (py "Expecting value: line 1 column 1 (char 0)")).

(** [json.dumps(v, indent=2)] at nesting depth [level], for values without
    floats (as JSON has no literal for them here, a float is written [NaN],
    which is right for a nan only). *)
Definition newline (level : nat) : pystr :=
  [10%N] ++ mjoin (replicate level (py "  ")).

Fixpoint dumps (level : nat) (v : Json) : pystr :=
  match v with
  | JNull => py "null"
  | JBool true => py "true"
  | JBool false => py "false"
  | JInt n => py (pretty n)
  | JFloat _ => py "NaN"
  | JStr s => encode_basestring_ascii s
  | JArr [] => py "[]"
  | JArr l =>
      py "[" ++ newline (S level)
        ++ join (py "," ++ newline (S level)) (map (dumps (S level)) l)
        ++ newline level ++ py "]"
  | JObj [] => py "{}"
  | JObj items =>
      py "{" ++ newline (S level)
        ++ join (py "," ++ newline (S level))
             (map (λ kv, encode_basestring_ascii kv.1 ++ py ": "
                           ++ dumps (S level) kv.2) items)
        ++ newline level ++ py "}"
  end.

(** The libraries of the scenario, the network answering the calls with
    the outcomes of [script] in turn and refusing the calls after them. *)
Definition externals (script : list PostOutcome) : Externals :=
  mkExternals (λ n _, nth n script (Raises (refused n)))
              b64decode json_loads (dumps 0).

End Demo.

(** ** Reading the word timings *)

(** A word that spans characters of the first [n]: its index range is not
    empty and lies in [0, n). *)
Definition spans_within {T} (n : nat) (w : WordTiming T) : Prop :=
  0 ≤ char_start_index w
  ∧ char_start_index w ≤ char_end_index w
  ∧ char_end_index w < Z.of_nat n.

(** A word timed by the lists: its start is the start time at its first
    character (Python's [0] where [start_times] is too short), and its end
    is the end time at its last character or the last end time of all. *)
Definition timed_by {T} (zero : T) (start_times end_times : list T)
    (w : WordTiming T) : Prop :=
  w_start w = default zero (start_times !! Z.to_nat (char_start_index w))
  ∧ (end_times !! Z.to_nat (char_end_index w) = Some (w_end w)
     ∨ last end_times = Some (w_end w)).

(** Words in the order of their first characters. *)
Definition in_reading_order {T} (words : list (WordTiming T)) : Prop :=
  ∀ i j wi wj,
    (i ≤ j)%nat → words !! i = Some wi → words !! j = Some wj →
    char_start_index wi ≤ char_start_index wj.

(** [characters[char_start_index : char_end_index + 1]], the characters
    that a word spans. *)
Definition word_characters {T} (characters : list pystr) (w : WordTiming T)
    : list pystr :=
  take (Z.to_nat (char_end_index w + 1 - char_start_index w))
       (drop (Z.to_nat (char_start_index w)) characters).

(** The characters of a list that are no word breaks, joined. *)
Definition join_unbroken (cs : list pystr) : pystr :=
  mjoin (filter (λ c, is_word_break c = false) cs).

(** A word that spells the characters it spans. *)
Definition spells {T} (characters : list pystr) (w : WordTiming T) : Prop :=
  w_text w = join_unbroken (word_characters characters w).

(** What holds of [words] and [current_word] before the iteration at index
    [i] of the loop of lines 191-214. *)
Record loop_invariant {T} (zero : T) (characters : list pystr)
    (start_times end_times : list T) (i : nat)
    (st : list (WordTiming T) * WordTiming T) : Prop := mkLoopInvariant {
  inv_words : Forall (spans_within i) st.1;
  inv_timed : Forall (timed_by zero start_times end_times) st.1;
  inv_spelled : Forall (spells characters) st.1;
  inv_order : in_reading_order (st.1 ++ [st.2]);
  inv_start : 0 ≤ char_start_index st.2;
  inv_start_time :
    w_start st.2
    = default zero (start_times !! Z.to_nat (char_start_index st.2));
  inv_text :
    w_text st.2
    = join_unbroken (take (i - Z.to_nat (char_start_index st.2))
                          (drop (Z.to_nat (char_start_index st.2)) characters));
  inv_current :
    w_text st.2 ≠ [] →
    char_start_index st.2 ≤ char_end_index st.2
    ∧ char_end_index st.2 < Z.of_nat i;
  inv_gap :
    ∀ k c, w_text st.2 ≠ [] →
           char_end_index st.2 < Z.of_nat k → (k < i)%nat →
           characters !! k = Some c → is_word_break c = true;
  inv_next :
    ∀ k c, (i ≤ k)%nat → characters !! k = Some c →
           is_word_break c = false → char_start_index st.2 ≤ Z.of_nat k
}.

(** ** The shape of a cache key *)

(** A character of [hexdigest()]: a digit or a letter from [a] to [f]. *)
Definition is_lower_hex (c : N) : bool :=
  ((48 <=? c) && (c <=? 57) || (97 <=? c) && (c <=? 102))%N.

(** ** What a call of [generate_voiceover] leaves behind *)

(** The names of lines 52-55, in the order in which they are tried. *)
Definition api_key_names : list string :=
  [ "ELEVENLABS_API_KEY"; "elevenlabs_key"; "ELEVENLABS_KEY";
    "ELEVEN_API_KEY" ]%string.

(** The [timing_data] of lines 125-129. *)
Definition timing_data_of (text : pystr) (word_timings alignment : Json)
    : Json :=
  JObj [ (py "text", JStr text); (py "word_timings", word_timings);
         (py "character_alignment", alignment) ].

(** The world after [content] was written to [p]. *)
Definition wrote (p : Path) (content : pystr) (w : World) : World :=
  mkWorld (env w) (files_insert p (File content) (fs w)) (posts w)
          (writes w ++ [p]).

(** Nothing is lost from [w] to [w']: the environment is the same, a
    directory is still a directory and a file is still a file. *)
Definition keeps_all (w w' : World) : Prop :=
  env w' = env w
  ∧ ∀ q, (node_at w q = Some Dir → node_at w' q = Some Dir)
         ∧ (∀ c, node_at w q = Some (File c) →
                 ∃ c', node_at w' q = Some (File c')).

(** Worlds of the scenario with other environments: the key variable set
    but empty, and three of the variables set, the first of them empty. *)
Definition empty_key_world : World :=
  mkWorld {[ "ELEVENLABS_API_KEY"%string := [] ]} Demo.dirs 0 [].

Definition three_keys_world : World :=
  mkWorld {[ "ELEVEN_API_KEY"%string := py "sk_last";
             "ELEVENLABS_KEY"%string := py "sk_third";
             "ELEVENLABS_API_KEY"%string := [] ]}
          Demo.dirs 0 [].

(** The scenario after a first call has generated the audio: the words of
    ["hi there"], the result, the text of the timing files and the world
    with the four files written. *)
Definition demo_words : list (WordTiming Json) :=
  [ mkWord (py "hi") (JInt 0) (JInt 2) 0 1;
    mkWord (py "there") (JInt 3) (JInt 8) 3 7 ].

Definition demo_result : VoiceoverResult :=
  mkResult (py "/outputs/job/section_1.mp3")
           (JArr (json_of_word <$> demo_words)) Demo.alignment
           (_calculate_cost Demo.text) 8 false.

Definition demo_timing_data : Json :=
  timing_data_of Demo.text (JArr (json_of_word <$> demo_words))
                 Demo.alignment.

Definition demo_output : Path := Demo.job_dir ++ [py "section_1.mp3"].
Definition demo_timing_file : Path :=
  Demo.job_dir ++ [py "section_1.timing.json"].

Definition demo_generated : World :=
  wrote Demo.cached_timing (Demo.dumps 0 demo_timing_data)
    (wrote Demo.cached_audio [0; 1; 2]%N
       (wrote demo_timing_file (Demo.dumps 0 demo_timing_data)
          (wrote demo_output [0; 1; 2]%N (after_post Demo.fresh)))).


(** [json.loads] of the scenario, reading back the timing data that the
    first call wrote. *)
Definition loads_back (content : pystr) : Result Json :=
  if decide (content = Demo.dumps 0 demo_timing_data) then Ok demo_timing_data
  else Demo.json_loads content.

Definition reading_externals (script : list PostOutcome) : Externals :=
  mkExternals (λ n _, nth n script (Raises (Demo.refused n)))
              Demo.b64decode loads_back (Demo.dumps 0).

(** ** The legacy service (lines 226-409) *)

(** The [voice_settings] dict of lines 276-281. *)
Record VoiceSettings := mkVoiceSettings {
  vs_stability : float;
  vs_similarity_boost : float;
  vs_style : float;
  vs_use_speaker_boost : bool
}.

(** The attributes that [__init__] sets on an [ElevenLabsTimedService]; the
    attributes of the base class are left out but for [cache_dir]. *)
Record Service := mkService {
  self_api_key : pystr;
  self_voice_id : pystr;
  self_model_id : pystr;
  self_voice_settings : VoiceSettings;
  self_base_url : pystr;
  self_cache_dir : pystr
}.

(** Lines 327-332, [get_data_hash], on a dict of strings. *)
Definition get_data_hash (input_data : list (pystr * pystr)) : Result pystr :=
  let data_str := json_dumps_sort_keys input_data in
  b ← utf8_encode data_str;
  Ok (SHA256.hexdigest b).

(** The [input_data] of lines 377-381 and 398-402. *)
Definition input_data_of (self : Service) (text : pystr)
    : list (pystr * pystr) :=
  [ (py "input_text", text); (py "service", py "elevenlabs_timed");
    (py "voice_id", self_voice_id self) ].

(** The dict in the legacy format that [generate_from_text] returns. *)
Record LegacyResult := mkLegacyResult {
  input_text : pystr;
  input_data : list (pystr * pystr);
  original_audio : pystr;
  legacy_word_timings : Json;
  legacy_character_alignment : Json;
  service : pystr;
  legacy_cost : float;
  legacy_character_count : Z;
  legacy_from_cache : bool
}.

(** Lines 351-409, [generate_from_text]. The keys that lines 404-408 read
    with [result.get] are all in the dict that [generate_voiceover]
    returns, so the defaults are never taken. *)
Definition generate_from_text (X : Externals) (self : Service)
    (text : pystr) (cache_dir path : option pystr) : M LegacyResult :=
  let cache_dir := default (self_cache_dir self) cache_dir in
  mkdir_parents (length (Path_of_str cache_dir)) (Path_of_str cache_dir);;
  audio_filename ←
    match path with
    | None =>
        hash_key ← lift (get_data_hash (input_data_of self text));
        mret (hash_key ++ py ".mp3")
    | Some path => mret path
    end;
  let output_path :=
    joinpath (Path_of_str cache_dir)
             (path_name (Path_of_str audio_filename)) in
  result ← generate_voiceover X text (path_str output_path)
                              (self_voice_id self) 3;
  mret (mkLegacyResult text (input_data_of self text) audio_filename
          (word_timings result) (character_alignment result)
          (py "elevenlabs_timed") (cost result) (character_count result)
          (from_cache result)).

(** A service of the scenario, made with a key of its own. *)
Definition demo_service : Service :=
  mkService (py "sk_given") default_voice_id (py "eleven_multilingual_v2")
            (mkVoiceSettings 0.5 0.75 0 true)
            (py "https://api.elevenlabs.io/v1") (py "/outputs/job").

(** The exception of lines 267-271. *)
Definition ServiceKeyRequired : Exc :=
  ValueError (py "ElevenLabs API key required. Set ELEVENLABS_API_KEY environment variable or pass api_key parameter.").

(** Lines 258-271 of [__init__]: the value that becomes [self.api_key], or
    the [ValueError] when there is none. *)
Definition init_api_key (api_key : option pystr) : M pystr :=
  k1 ← getenv "ELEVENLABS_API_KEY";
  k2 ← getenv "elevenlabs_key";
  k3 ← getenv "ELEVENLABS_KEY";
  match py_or (py_or (py_or api_key k1) k2) k3 with
  | Some ((_ :: _) as k) => mret k
  | _ => raise ServiceKeyRequired
  end.

(** ** What is printed *)

(** The model of [generate_voiceover] leaves the [print] calls out. On a
    standard output that encodes as UTF-8 a call of [print] raises
    [UnicodeEncodeError] when its message holds a lone surrogate, and the
    messages of lines 70, 83, 89, 115 and 152 embed the first 50 characters
    of the text, the name of the output file and [str(e)] of a caught
    exception; the rest of each message can always be encoded. A string is
    [printable] when [print] accepts it: when it can be encoded. *)
Definition printable (s : pystr) : Prop :=
  ∃ b, utf8_encode s = Ok b.

(** What a run raised, when it raised. *)
Definition raised {A} (run : Result A * World) : option Exc :=
  match run.1 with
  | Ok _ => None
  | Err e => Some e
  end.

(** * Theorems *)

From Stdlib Require Import Lia.

(** * Timing reconstruction: properties *)

Section extract_facts.
Context {T : Type} (zero : T).
Implicit Types (characters : list pystr) (start_times end_times : list T).
Implicit Types (words : list (WordTiming T)) (current_word : WordTiming T).

Lemma getitem_in_range {A} (l : list A) (i : Z) :
  0 ≤ i < Z.of_nat (length l) → ∃ x, getitem l i = Ok x.
Proof.
  intros [Hlo Hhi]. unfold getitem.
  destruct (Z.ltb_spec i 0) as [|_]; [lia|].
  destruct (Z.ltb_spec i 0) as [|_]; [lia|].
  destruct (lookup_lt_is_Some_2 l (Z.to_nat i)) as [x ->]; [lia|]. eauto.
Qed.

Lemma getitem_last {A} (l : list A) :
  l ≠ [] → ∃ x, getitem l (-1) = Ok x.
Proof.
  intros Hne. unfold getitem. simpl.
  assert (0 < length l)%nat by (destruct l; [done | simpl; lia]).
  destruct (Z.ltb_spec (-1 + Z.of_nat (length l)) 0) as [|_]; [lia|].
  destruct (lookup_lt_is_Some_2 l (Z.to_nat (-1 + Z.of_nat (length l))))
    as [x ->]; [lia|]. eauto.
Qed.

(** The [while] loop of lines 200-202 had fuel enough: where it stops, its
    guard is false. *)
Lemma skip_whitespace_exit characters (fuel idx : nat) :
  (length characters ≤ idx + fuel)%nat →
  let r := skip_whitespace characters fuel idx in
  (idx ≤ r)%nat ∧
  match characters !! r with
  | Some c => is_word_break c = false
  | None => True
  end.
Proof.
  revert idx. induction fuel as [|fuel IH]; intros idx Hlen; simpl.
  - split; [lia|]. rewrite lookup_ge_None_2; [done | lia].
  - destruct (characters !! idx) as [c|] eqn:Hc.
    + destruct (is_word_break c) eqn:Hws.
      * destruct (IH (S idx)) as [? ?]; [lia|]. split; [lia | done].
      * split; [lia|]. by rewrite Hc.
    + split; [lia|]. by rewrite Hc.
Qed.

(** With the three lists of one length, an iteration at an index of the
    list raises nothing. *)
Lemma loop_body_total characters start_times end_times i char words current_word :
  length characters = length start_times →
  length start_times = length end_times →
  (i < length characters)%nat →
  ∃ st', loop_body zero characters start_times end_times i char
                   (words, current_word) = Ok st'.
Proof.
  intros Hcs Hse Hi. unfold loop_body.
  destruct (is_word_break char); [|eauto].
  assert (∃ st1 : list (WordTiming T) * WordTiming T,
    (if truthy (strip (w_text current_word))
     then e ← (if (0 <? i)%nat then getitem end_times (Z.of_nat i - 1)
               else getitem start_times (Z.of_nat i));
          Ok (words ++ [mkWord (w_text current_word) (w_start current_word) e
                          (char_start_index current_word) (Z.of_nat i - 1)],
              mkWord (w_text current_word) (w_start current_word) e
                          (char_start_index current_word) (Z.of_nat i - 1))
     else Ok (words, current_word)) = Ok st1) as [[words1 cur1] ->].
  { destruct (truthy _); [|eauto].
    destruct (Nat.ltb_spec 0 i).
    - destruct (getitem_in_range end_times (Z.of_nat i - 1)) as [e ->]; [lia|].
      simpl. eauto.
    - destruct (getitem_in_range start_times (Z.of_nat i)) as [e ->]; [lia|].
      simpl. eauto. }
  simpl.
  destruct (_ <? length characters)%nat; [|eauto].
  destruct (Nat.ltb_spec
    (skip_whitespace characters (length characters - (i + 1)) (i + 1))
    (length start_times)); [|simpl; eauto].
  destruct (getitem_in_range start_times
    (Z.of_nat (skip_whitespace characters (length characters - (i + 1)) (i + 1))))
    as [s ->]; [lia|]. simpl. eauto.
Qed.

Lemma for_loop_total characters start_times end_times rest i st :
  length characters = length start_times →
  length start_times = length end_times →
  (i + length rest = length characters)%nat →
  ∃ st', for_loop zero characters start_times end_times i rest st = Ok st'.
Proof.
  intros Hcs Hse. revert i st.
  induction rest as [|char rest IH]; intros i [words cur] Hi.
  - simpl. eauto.
  - destruct (loop_body_total characters start_times end_times i char words cur)
      as [st' Hst']; [done | done | simpl in Hi; lia |].
    cbn [for_loop]. rewrite Hst'. cbn [mbind Result_bind].
    apply IH. simpl in Hi. lia.
Qed.


(** A string whose [strip()] is truthy is not empty and not all whitespace. *)
Lemma lstrip_all_space (s : pystr) :
  forallb py_isspace s = true → lstrip s = [].
Proof.
  induction s as [|c s IH]; [done|]. simpl.
  intros [Hc Hs]%andb_prop. rewrite Hc. auto.
Qed.

Lemma strip_truthy (s : pystr) :
  truthy (strip s) = true → s ≠ [] ∧ forallb py_isspace s = false.
Proof.
  intros Hs.
  assert (forallb py_isspace s = false) as Hall.
  { destruct (forallb py_isspace s) eqn:Hall; [|done].
    unfold strip in Hs. rewrite lstrip_all_space in Hs; done. }
  split; [|done]. intros ->. done.
Qed.

(** The words a string gives have a text that [strip()] leaves non-empty. *)
Definition has_content (w : WordTiming T) : Prop :=
  truthy (strip (w_text w)) = true.

Lemma loop_body_content characters start_times end_times i char st st' :
  loop_body zero characters start_times end_times i char st = Ok st' →
  Forall has_content st.1 → Forall has_content st'.1.
Proof.
  destruct st as [words cur]. unfold loop_body.
  destruct (is_word_break char); [|by intros [= <-]].
  destruct (truthy (strip (w_text cur))) eqn:Hcur.
  - destruct (if (0 <? i)%nat then _ else _) as [e|e]; [|done].
    cbn [mbind Result_bind].
    destruct (_ <? length characters)%nat.
    + destruct (if (_ <? length start_times)%nat then _ else _) as [s|s];
        [|done].
      intros [= <-] Hw. simpl in *. apply Forall_app. split; [done|].
      by apply Forall_singleton.
    + intros [= <-] Hw. simpl in *. apply Forall_app. split; [done|].
      by apply Forall_singleton.
  - cbn [mbind Result_bind].
    destruct (_ <? length characters)%nat.
    + destruct (if (_ <? length start_times)%nat then _ else _) as [s|s];
        [|done].
      by intros [= <-].
    + by intros [= <-].
Qed.

Lemma for_loop_content characters start_times end_times rest i st st' :
  for_loop zero characters start_times end_times i rest st = Ok st' →
  Forall has_content st.1 → Forall has_content st'.1.
Proof.
  revert i st. induction rest as [|char rest IH]; intros i st.
  - by intros [= <-].
  - cbn [for_loop].
    destruct (loop_body zero characters start_times end_times i char st)
      as [st1|e] eqn:Hbody; [|done].
    cbn [mbind Result_bind]. intros Hrest Hst.
    eapply IH; [done|]. by eapply loop_body_content.
Qed.

Lemma extract_word_timings_content characters start_times end_times words :
  _extract_word_timings zero characters start_times end_times = Ok words →
  Forall has_content words.
Proof.
  unfold _extract_word_timings.
  destruct (_ || _); [by intros [= <-]|].
  destruct (if truthy start_times then _ else _) as [s0|e]; [|done].
  cbn [mbind Result_bind].
  destruct (for_loop _ _ _ _ _ _ _) as [[ws cur]|e] eqn:Hloop; [|done].
  cbn [mbind Result_bind].
  apply for_loop_content in Hloop as Hws; [|by constructor]. simpl in Hws.
  destruct (truthy (strip (w_text cur))) eqn:Hcur; [|by intros [= <-]].
  destruct (if truthy end_times then _ else _) as [e|e]; [|done].
  intros [= <-]. apply Forall_app. split; [done|].
  by apply Forall_singleton.
Qed.

End extract_facts.

(** C7. When any one of the three lists given to [_extract_word_timings] is
    empty, the result is the empty list. *)
Theorem extract_word_timings_empty_input {T} (zero : T)
    (characters : list pystr) (start_times end_times : list T) :
  characters = [] ∨ start_times = [] ∨ end_times = [] →
  _extract_word_timings zero characters start_times end_times = Ok [].
Proof.
  unfold _extract_word_timings.
  intros [-> | [-> | ->]]; [done | |].
  - by destruct characters.
  - by destruct characters, start_times.
Qed.

Lemma extract_word_timings_empty_input_witness :
  _extract_word_timings 0 (chars_of (py "hi")) ([] : list Z) [1; 2] = Ok [].
Proof.
  apply (extract_word_timings_empty_input 0 (chars_of (py "hi")) [] [1; 2]).
  right. left. reflexivity.
Defined.

(** C9. When the three lists have the same length, every index that
    [_extract_word_timings] reads is in range: the call returns a list and
    raises nothing. *)
Theorem extract_word_timings_total {T} (zero : T)
    (characters : list pystr) (start_times end_times : list T) :
  length characters = length start_times →
  length start_times = length end_times →
  ∃ words,
    _extract_word_timings zero characters start_times end_times = Ok words.
Proof.
  intros Hcs Hse. unfold _extract_word_timings.
  destruct (_ || _) eqn:Hempty; [eauto|].
  apply orb_false_elim in Hempty as [[Hc Hs]%orb_false_elim He].
  destruct start_times as [|s0 start_times']; [done|].
  destruct end_times as [|e0 end_times']; [done|].
  change (getitem (s0 :: start_times') 0) with (Ok s0).
  cbn [truthy mbind Result_bind].
  destruct (for_loop_total zero characters (s0 :: start_times')
              (e0 :: end_times') characters 0 ([], mkWord [] s0 zero 0 0))
    as [[ws cur] ->]; [done | done | done |].
  cbn [mbind Result_bind].
  destruct (truthy (strip (w_text cur))); [|eauto].
  destruct (getitem_last (e0 :: end_times')) as [e ->]; [done|].
  cbn [mbind Result_bind]. eauto.
Qed.

Lemma extract_word_timings_total_witness :
  ∃ words,
    _extract_word_timings 0 (chars_of (py " a  b ")) [0; 1; 2; 3; 4; 5]
                          [1; 2; 3; 4; 5; 6] = Ok words.
Proof.
  apply (extract_word_timings_total 0 (chars_of (py " a  b "))
           [0; 1; 2; 3; 4; 5] [1; 2; 3; 4; 5; 6]); reflexivity.
Defined.

(** C4. No entry that [_extract_word_timings] returns has an empty or an
    all-whitespace text, whatever whitespace the characters hold, leading,
    trailing or repeated. *)
Theorem extract_word_timings_no_blank_text {T} (zero : T)
    (characters : list pystr) (start_times end_times : list T)
    (words : list (WordTiming T)) :
  _extract_word_timings zero characters start_times end_times = Ok words →
  Forall (λ w, w_text w ≠ [] ∧ forallb py_isspace (w_text w) = false
               ∧ strip (w_text w) ≠ []) words.
Proof.
  intros Hwords%extract_word_timings_content.
  eapply Forall_impl; [exact Hwords|].
  intros w Hw. unfold has_content in Hw.
  destruct (strip_truthy _ Hw) as [? ?].
  split_and!; [done | done |]. intros Hnil. by rewrite Hnil in Hw.
Qed.

Lemma extract_word_timings_no_blank_text_witness :
  Forall (λ w : WordTiming Z,
            w_text w ≠ [] ∧ forallb py_isspace (w_text w) = false
            ∧ strip (w_text w) ≠ [])
         [ mkWord (py "hi") 2 4 2 3; mkWord (py "yo") 7 9 7 8;
           mkWord (py "yo") 7 10 7 9; mkWord (py "yo") 7 11 7 9 ].
Proof.
  apply (extract_word_timings_no_blank_text 0
           (chars_of (py "  hi   yo  "))
           [0; 1; 2; 3; 4; 5; 6; 7; 8; 9; 10]
           [1; 2; 3; 4; 5; 6; 7; 8; 9; 10; 11]).
  reflexivity.
Defined.

(** C1, as the code has it. For the characters of ["hi there"] with start
    times 0..7 and end times 1..8, [_extract_word_timings] returns two
    words: ["hi"] from 0 to 2 over the characters 0..1, and ["there"] from 3
    (the start time of its first character, at index 3) to 8 over the
    characters 3..7. *)
Theorem extract_word_timings_hi_there :
  _extract_word_timings 0 (chars_of (py "hi there"))
    [0; 1; 2; 3; 4; 5; 6; 7] [1; 2; 3; 4; 5; 6; 7; 8]
  = Ok [ mkWord (py "hi") 0 2 0 1; mkWord (py "there") 3 8 3 7 ].
Proof. reflexivity. Qed.

(** C1, as the spec words it (["there"] starting at 4), fails. *)
Lemma extract_word_timings_hi_there_not_at_4 :
  ∃ words,
    _extract_word_timings 0 (chars_of (py "hi there"))
      [0; 1; 2; 3; 4; 5; 6; 7] [1; 2; 3; 4; 5; 6; 7; 8] = Ok words
    ∧ ¬ spec_hi_there_words words.
Proof.
  eexists. split; [reflexivity|].
  intros (i1 & j1 & i2 & j2 & Heq). discriminate Heq.
Qed.

(** X1. After trailing whitespace the last word is returned once more:
    line 204 finds no next character and leaves [current_word] as it was,
    so line 217 finds its text again and appends it, closed at the last end
    time. *)
Example extract_trailing_space :
  _extract_word_timings 0 (chars_of (py "hi ")) [0; 1; 2] [1; 2; 3]
  = Ok [ mkWord (py "hi") 0 2 0 1; mkWord (py "hi") 0 3 0 1 ].
Proof. reflexivity. Qed.

(** * The cache key: properties *)

Section escaping.
Local Open Scope N_scope.

Ltac n_arith := zify; Z.to_euclidean_division_equations; lia.

Lemma unhex_hex_digit (d : N) : d < 16 → unhex (hex_digit d) = d.
Proof.
  intros Hd. unfold unhex, hex_digit.
  destruct (N.ltb_spec d 10).
  - destruct (N.ltb_spec (48 + d) 58); lia.
  - destruct (N.ltb_spec (87 + d) 58); lia.
Qed.

Lemma unescape_u_hex4 (n : N) (r : pystr) :
  n < 65536 → unescape_u (hex4 n ++ r) = Some (n, r).
Proof.
  intros Hn. unfold hex4, unescape_u, unhex4. cbn [app].
  rewrite !unhex_hex_digit by n_arith.
  do 2 f_equal. n_arith.
Qed.

Lemma lor_high_surrogate (x : N) : x < 1024 → N.lor 0xd800 x = 0xd800 + x.
Proof.
  intros Hx.
  assert (forallb (λ i, N.lor 0xd800 (N.of_nat i) =? 0xd800 + N.of_nat i)
                  (seq 0 1024) = true) as Hall by (vm_compute; reflexivity).
  rewrite forallb_forall in Hall.
  specialize (Hall (N.to_nat x)). rewrite N2Nat.id in Hall.
  apply N.eqb_eq, Hall, in_seq. lia.
Qed.

Lemma lor_low_surrogate (x : N) : x < 1024 → N.lor 0xdc00 x = 0xdc00 + x.
Proof.
  intros Hx.
  assert (forallb (λ i, N.lor 0xdc00 (N.of_nat i) =? 0xdc00 + N.of_nat i)
                  (seq 0 1024) = true) as Hall by (vm_compute; reflexivity).
  rewrite forallb_forall in Hall.
  specialize (Hall (N.to_nat x)). rewrite N2Nat.id in Hall.
  apply N.eqb_eq, Hall, in_seq. lia.
Qed.

Lemma land_0x3ff (x : N) : N.land x 0x3ff = x mod 1024.
Proof. change 0x3ff with (N.ones 10). by rewrite N.land_ones. Qed.

Lemma unescape_first_bmp (n : N) (r : pystr) :
  n < 65536 → ¬ (0xd800 ≤ n ≤ 0xdbff) →
  unescape_first (92 :: 117 :: hex4 n ++ r) = Some (n, r).
Proof.
  intros Hn Hsur. cbn [unescape_first N.eqb Pos.eqb].
  rewrite unescape_u_hex4 by done. cbn [mbind option_bind].
  destruct (N.leb_spec 0xd800 n); [|done].
  destruct (N.leb_spec n 0xdbff); [|done]. lia.
Qed.

Lemma unescape_first_pair (hi lo : N) (r : pystr) :
  0xd800 ≤ hi ≤ 0xdbff → lo < 65536 →
  unescape_first (92 :: 117 :: hex4 hi ++ 92 :: 117 :: hex4 lo ++ r)
  = Some (0x10000 + (hi - 0xd800) * 1024 + (lo - 0xdc00), r).
Proof.
  intros Hhi Hlo. cbn [unescape_first N.eqb Pos.eqb].
  rewrite unescape_u_hex4 by lia. cbn [mbind option_bind].
  destruct (N.leb_spec 0xd800 hi); [|lia].
  destruct (N.leb_spec hi 0xdbff); [|lia]. cbn [andb].
  rewrite unescape_u_hex4 by done. done.
Qed.

(** [escape_char] loses nothing on a scalar value. *)
Lemma unescape_escape_char (c : N) (r : pystr) :
  is_scalar c = true → unescape_first (escape_char c ++ r) = Some (c, r).
Proof.
  intros Hc. unfold escape_char.
  destruct (N.eqb_spec c 92) as [->|]; [done|].
  destruct (N.eqb_spec c 34) as [->|]; [done|].
  destruct (N.eqb_spec c 8) as [->|]; [done|].
  destruct (N.eqb_spec c 12) as [->|]; [done|].
  destruct (N.eqb_spec c 10) as [->|]; [done|].
  destruct (N.eqb_spec c 13) as [->|]; [done|].
  destruct (N.eqb_spec c 9) as [->|]; [done|].
  assert (¬ (0xd800 ≤ c ≤ 0xdfff) ∧ c ≤ 0x10ffff) as [Hsur Hmax].
  { unfold is_scalar in Hc.
    destruct (N.ltb_spec c 0xd800); [lia|].
    destruct (N.ltb_spec 0xdfff c); [|done].
    destruct (N.leb_spec c 0x10ffff); [lia | done]. }
  destruct ((32 <=? c) && (c <=? 126)) eqn:Hplain.
  { cbn [app unescape_first]. by destruct (N.eqb_spec c 92). }
  change (py "\u") with [92; 117].
  destruct (N.ltb_spec c 0x10000).
  - cbn [app]. apply unescape_first_bmp; lia.
  - cbv zeta. rewrite N.shiftr_div_pow2, !land_0x3ff.
    rewrite lor_high_surrogate, lor_low_surrogate by n_arith.
    rewrite <- !app_assoc. cbn [app].
    rewrite unescape_first_pair by n_arith.
    do 2 f_equal. n_arith.
Qed.

(** An escaped character never starts with the closing quote. *)
Lemma escape_char_head (c : N) :
  ∃ x t, escape_char c = x :: t ∧ x ≠ 34.
Proof.
  unfold escape_char.
  repeat match goal with
         | |- context [N.eqb c ?k] =>
             destruct (N.eqb_spec c k); [by eexists _, _|]
         end.
  destruct (_ && _); [by exists c, []|].
  destruct (_ <? _); by eexists _, _.
Qed.

(** The escaped body of a string, up to its closing quote, determines the
    string when its code points are scalar values. *)
Lemma escaped_body_inj (s1 s2 r1 r2 : pystr) :
  forallb is_scalar s1 = true → forallb is_scalar s2 = true →
  (s1 ≫= escape_char) ++ 34 :: r1 = (s2 ≫= escape_char) ++ 34 :: r2 →
  s1 = s2 ∧ r1 = r2.
Proof.
  revert s2. induction s1 as [|c1 s1 IH]; intros [|c2 s2] H1 H2 Heq.
  - by injection Heq.
  - exfalso. cbn [mbind list_bind app] in Heq.
    destruct (escape_char_head c2) as (x & t & Hx & Hne). rewrite Hx in Heq.
    rewrite <- app_assoc in Heq. cbn [app] in Heq. congruence.
  - exfalso. cbn [mbind list_bind app] in Heq.
    destruct (escape_char_head c1) as (x & t & Hx & Hne). rewrite Hx in Heq.
    rewrite <- app_assoc in Heq. cbn [app] in Heq. congruence.
  - cbn [mbind list_bind] in Heq. rewrite <- !app_assoc in Heq.
    cbn [forallb] in H1, H2.
    apply andb_prop in H1 as [Hc1 H1]. apply andb_prop in H2 as [Hc2 H2].
    apply (f_equal unescape_first) in Heq as Hfirst.
    rewrite !unescape_escape_char in Hfirst by done.
    injection Hfirst as -> Hrest.
    destruct (IH s2 H1 H2 Hrest) as [-> ->]. done.
Qed.


Lemma hex_digit_ascii (d : N) : d < 16 → hex_digit d < 128.
Proof. unfold hex_digit. destruct (N.ltb_spec d 10); lia. Qed.

Lemma hex4_ascii (n : N) : Forall (λ b, b < 128) (hex4 n).
Proof.
  unfold hex4. repeat constructor; apply hex_digit_ascii; n_arith.
Qed.

(** [ensure_ascii]: an escaped character is ASCII. *)
Lemma escape_char_ascii (c : N) : Forall (λ b, b < 128) (escape_char c).
Proof.
  unfold escape_char.
  repeat match goal with
         | |- context [N.eqb c ?k] =>
             destruct (N.eqb_spec c k); [by repeat constructor|]
         end.
  destruct (N.leb_spec 32 c); destruct (N.leb_spec c 126); cbn [andb].
  1: { repeat constructor. lia. }
  all: destruct (_ <? _); cbv zeta;
       repeat (apply Forall_app; split);
       first [apply hex4_ascii | by repeat constructor].
Qed.

Lemma escaped_body_ascii (s : pystr) :
  Forall (λ b, b < 128) (s ≫= escape_char).
Proof.
  induction s as [|c s IH]; [constructor|].
  cbn [mbind list_bind]. apply Forall_app. split; [|done].
  apply escape_char_ascii.
Qed.

(** UTF-8 leaves ASCII text as it is. *)
Lemma utf8_encode_ascii (s : pystr) :
  Forall (λ b, b < 128) s → utf8_encode s = Ok s.
Proof.
  induction 1 as [|c s Hc _ IH]; [done|].
  cbn [utf8_encode]. unfold utf8_char.
  destruct (N.ltb_spec c 0x80); [|lia]. by rewrite IH.
Qed.

End escaping.

Lemma json_dumps_cache_data (text voice_id : pystr) :
  json_dumps_sort_keys (cache_data text voice_id)
  = data_str_head ++ (text ≫= escape_char) ++ quote ++ data_str_middle
      ++ (voice_id ≫= escape_char) ++ quote ++ py "}".
Proof.
  unfold json_dumps_sort_keys, cache_data.
  change (sorted_items _) with
    [ (py "service", py "elevenlabs_timed"); (py "text", text);
      (py "voice_id", voice_id) ].
  cbn [fmap list_fmap join fst snd]. unfold encode_basestring_ascii.
  rewrite <- !app_assoc. reflexivity.
Qed.

Lemma json_dumps_cache_data_ascii (text voice_id : pystr) :
  Forall (λ b, (b < 128)%N) (json_dumps_sort_keys (cache_data text voice_id)).
Proof.
  rewrite json_dumps_cache_data.
  repeat (apply Forall_app; split);
    try apply escaped_body_ascii;
    by (vm_compute; repeat constructor).
Qed.

(** The key is the digest of the serialization: the encoding to UTF-8
    never fails on it. *)
Lemma get_cache_key_value (text voice_id : pystr) :
  _get_cache_key text voice_id
  = Ok (SHA256.hexdigest (json_dumps_sort_keys (cache_data text voice_id))).
Proof.
  unfold _get_cache_key. cbv zeta.
  by rewrite utf8_encode_ascii by apply json_dumps_cache_data_ascii.
Qed.

(** C5, as the code has it. The key is the SHA-256 digest of the canonical
    serialization of the pair, a function of [text] and [voice_id] alone;
    two pairs of strings without surrogate code points that differ in
    [text] or in [voice_id] have different serializations. (Whether the
    digests differ is then a matter of SHA-256.) *)
Theorem get_cache_key_separates (text voice_id text' voice_id' : pystr) :
  _get_cache_key text voice_id
  = Ok (SHA256.hexdigest (json_dumps_sort_keys (cache_data text voice_id)))
  ∧ (forallb is_scalar text = true → forallb is_scalar voice_id = true →
     forallb is_scalar text' = true → forallb is_scalar voice_id' = true →
     (text, voice_id) ≠ (text', voice_id') →
     json_dumps_sort_keys (cache_data text voice_id)
     ≠ json_dumps_sort_keys (cache_data text' voice_id')).
Proof.
  split.
  - apply get_cache_key_value.
  - intros Ht Hv Ht' Hv' Hne Heq. apply Hne.
    rewrite !json_dumps_cache_data in Heq.
    apply app_inv_head in Heq.
    apply escaped_body_inj in Heq as [-> Heq]; [|done..].
    apply app_inv_head in Heq.
    apply escaped_body_inj in Heq as [-> _]; done.
Qed.

Lemma get_cache_key_separates_witness :
  _get_cache_key (py "Hello") default_voice_id
  = Ok (SHA256.hexdigest
          (json_dumps_sort_keys (cache_data (py "Hello") default_voice_id)))
  ∧ json_dumps_sort_keys (cache_data (py "Hello") default_voice_id)
    ≠ json_dumps_sort_keys (cache_data (py "Hello!") default_voice_id).
Proof.
  destruct (get_cache_key_separates (py "Hello") default_voice_id
              (py "Hello!") default_voice_id) as [Hkey Hsep].
  split; [exact Hkey|].
  apply Hsep; [reflexivity | reflexivity | reflexivity | reflexivity |].
  discriminate.
Defined.

(** C5, as the spec words it, fails: an astral character and the two
    surrogates that spell it are different texts with one key. *)
Lemma get_cache_key_collision :
  [0x1f600%N] ≠ [0xd83d%N; 0xde00%N]
  ∧ _get_cache_key [0x1f600%N] default_voice_id
    = _get_cache_key [0xd83d%N; 0xde00%N] default_voice_id.
Proof. split; [discriminate|]. vm_compute. reflexivity. Qed.

Example sha256_abc :
  SHA256.hexdigest (py "abc")
  = py "ba7816bf8f01cfea414140de5dae2223b00361a396177a9cb410ff61f20015ad".
Proof. vm_compute. reflexivity. Qed.

(** The digest [hashlib] gives for the grinning face with the voice ["v"]. *)
Example cache_key_grinning :
  _get_cache_key [0x1f600%N] (py "v")
  = Ok (py "f3d5745951a622f4126b328fc67584ccf12baf8be977db899d635d51e135a882").
Proof. vm_compute. reflexivity. Qed.

(** * Voiceover generation: properties *)

(** ** The monad *)

Lemma bind_run {A B} (m : M A) (f : A → M B) (w : World) :
  (m ≫= f) w = match m w with
               | (Ok a, w') => f a w'
               | (Err e, w') => (Err e, w')
               end.
Proof. reflexivity. Qed.

Lemma bind_Ok {A B} (m : M A) (f : A → M B) (w w' : World) (b : B) :
  (m ≫= f) w = (Ok b, w') →
  ∃ a w1, m w = (Ok a, w1) ∧ f a w1 = (Ok b, w').
Proof.
  rewrite bind_run. destruct (m w) as [[a|e] w1]; [eauto | done].
Qed.

Lemma lift_Ok {A} (r : Result A) (w w' : World) (a : A) :
  lift r w = (Ok a, w') → r = Ok a ∧ w' = w.
Proof. unfold lift. by intros [= -> ->]. Qed.

(** ** What a step leaves unchanged *)

(** [w'] differs from [w] at most by new directories. *)
Definition only_new_dirs (w w' : World) : Prop :=
  env w' = env w ∧ posts w' = posts w ∧ writes w' = writes w ∧
  ∀ q, files_lookup (fs w') q = files_lookup (fs w) q
       ∨ (files_lookup (fs w) q = None ∧ files_lookup (fs w') q = Some Dir).

Lemma only_new_dirs_refl (w : World) : only_new_dirs w w.
Proof. unfold only_new_dirs. eauto. Qed.

Lemma only_new_dirs_trans (w1 w2 w3 : World) :
  only_new_dirs w1 w2 → only_new_dirs w2 w3 → only_new_dirs w1 w3.
Proof.
  intros (He1 & Hp1 & Hw1 & Hf1) (He2 & Hp2 & Hw2 & Hf2).
  split_and!; [congruence..|].
  intros q. destruct (Hf1 q) as [H1|[H1 H1']], (Hf2 q) as [H2|[H2 H2']];
    [left | right | right | right]; split_and?; congruence.
Qed.

Lemma only_new_dirs_node (w w' : World) (q : Path) (n : Node) :
  only_new_dirs w w' → node_at w q = Some n → node_at w' q = Some n.
Proof.
  intros (_ & _ & _ & Hfs). unfold node_at.
  destruct q as [|a [|b q]]; [done | |].
  - destruct (is_anchor a); [done|].
    destruct (Hfs [a]) as [Heq|[Hnone _]]; congruence.
  - destruct (Hfs (a :: b :: q)) as [Heq|[Hnone _]]; congruence.
Qed.

Lemma only_new_dirs_file (w w' : World) (q : Path) (c : pystr) :
  only_new_dirs w w' →
  files_lookup (fs w') q = Some (File c) → files_lookup (fs w) q = Some (File c).
Proof.
  intros (_ & _ & _ & Hfs) Hq. destruct (Hfs q) as [<-|[_ ?]]; [done|congruence].
Qed.

Lemma os_mkdir_frame (p : Path) (w w' : World) (r : Result unit) :
  os_mkdir p w = (r, w') → only_new_dirs w w'.
Proof.
  unfold os_mkdir. destruct (node_at w p) eqn:Hp.
  { intros [= _ <-]. apply only_new_dirs_refl. }
  destruct (node_at w (parent p)) as [[|]|];
    intros [= _ <-]; try apply only_new_dirs_refl.
  unfold only_new_dirs. cbn. split_and!; [done..|].
  intros q. unfold files_insert. cbn [files_lookup].
  destruct (decide (p = q)) as [<-|Hne]; [|by left].
  right. split; [|done].
  unfold node_at in Hp. destruct p as [|a [|b p]]; [done| |done].
  by destruct (is_anchor a).
Qed.

Lemma mkdir_exist_ok_frame (p : Path) (w w' : World) (r : Result unit) :
  mkdir_exist_ok p w = (r, w') → only_new_dirs w w'.
Proof.
  unfold mkdir_exist_ok, try_except.
  destruct (os_mkdir p w) as [[[]|e] w1] eqn:Hmk.
  { intros [= _ <-]. by eapply os_mkdir_frame. }
  apply os_mkdir_frame in Hmk.
  destruct (is_FileNotFoundError e).
  { unfold raise. by intros [= _ <-]. }
  rewrite bind_run. unfold is_dir.
  destruct (match node_at w1 p with Some Dir => true | _ => false end);
    unfold raise; by intros [= _ <-].
Qed.

Lemma mkdir_parents_frame (fuel : nat) (p : Path) (w w' : World)
    (r : Result unit) :
  mkdir_parents fuel p w = (r, w') → only_new_dirs w w'.
Proof.
  revert p w w' r. induction fuel as [|fuel IH]; intros p w w' r;
    cbn [mkdir_parents]; unfold try_except;
    destruct (os_mkdir p w) as [[[]|e] w1] eqn:Hmk;
    try (intros [= _ <-]; by eapply os_mkdir_frame);
    apply os_mkdir_frame in Hmk.
  - destruct (is_FileNotFoundError e).
    + destruct (decide (parent p = p)); unfold raise; by intros [= _ <-].
    + rewrite bind_run. unfold is_dir.
      destruct (match node_at w1 p with Some Dir => true | _ => false end);
        unfold raise; by intros [= _ <-].
  - destruct (is_FileNotFoundError e).
    + destruct (decide (parent p = p)); [unfold raise; by intros [= _ <-]|].
      rewrite bind_run.
      destruct (mkdir_parents fuel (parent p) w1) as [[[]|e'] w2] eqn:Hrec;
        apply IH in Hrec.
      * intros Hlast%mkdir_exist_ok_frame.
        eauto using only_new_dirs_trans.
      * intros [= _ <-]. eauto using only_new_dirs_trans.
    + rewrite bind_run. unfold is_dir.
      destruct (match node_at w1 p with Some Dir => true | _ => false end);
        unfold raise; by intros [= _ <-].
Qed.

(** The fuel of [mkdir_parents] is enough: more fuel than the length of the
    path changes nothing. *)
Lemma length_parent (p : Path) :
  parent p ≠ p → S (length (parent p)) = length p.
Proof.
  unfold parent. destruct p as [|a [|b p]]; [done | |].
  - by destruct (is_anchor a).
  - intros _. rewrite removelast_firstn_len, length_take. cbn [length]. lia.
Qed.

Lemma mkdir_parents_fuel (fuel1 fuel2 : nat) (p : Path) (w : World) :
  (length p ≤ fuel1)%nat → (length p ≤ fuel2)%nat →
  mkdir_parents fuel1 p w = mkdir_parents fuel2 p w.
Proof.
  revert fuel2 p w. induction fuel1 as [|fuel1 IH]; intros fuel2 p w H1 H2.
  - destruct p; [|cbn in H1; lia]. by destruct fuel2.
  - destruct fuel2 as [|fuel2].
    { destruct p; [done | cbn in H2; lia]. }
    cbn [mkdir_parents]. unfold try_except.
    destruct (os_mkdir p w) as [[[]|e] w1]; [done|].
    destruct (is_FileNotFoundError e); [|done].
    destruct (decide (parent p = p)) as [|Hne]; [done|].
    apply length_parent in Hne. rewrite !bind_run.
    rewrite (IH fuel2) by lia. done.
Qed.

(** ** Paths: the values [pathlib] gives *)

Example path_of_str_examples :
  Path_of_str (py "/outputs/job/section_1.mp3")
    = [py "/"; py "outputs"; py "job"; py "section_1.mp3"]
  ∧ Path_of_str (py "//a/b") = [py "//"; py "a"; py "b"]
  ∧ Path_of_str (py "///a/b") = [py "/"; py "a"; py "b"]
  ∧ Path_of_str (py "a//b/./c/") = [py "a"; py "b"; py "c"]
  ∧ Path_of_str (py "./a/..") = [py "a"; py ".."]
  ∧ Path_of_str (py "") = [] ∧ Path_of_str (py ".") = []
  ∧ Path_of_str (py "/") = [py "/"].
Proof. repeat split. Qed.

Example path_parent_examples :
  path_str (parent (Path_of_str (py "/outputs/job/section_1.mp3")))
    = py "/outputs/job"
  ∧ path_str (parent (Path_of_str (py "section_1.mp3"))) = py "."
  ∧ path_str (parent (Path_of_str (py "/"))) = py "/"
  ∧ path_str (joinpath (parent (Path_of_str (py "out.mp3"))) (py "k.mp3"))
    = py "k.mp3".
Proof. repeat split. Qed.

Example with_suffix_examples :
  with_suffix (Path_of_str (py "/o/s_1.mp3")) (py ".timing.json")
    = Ok [py "/"; py "o"; py "s_1.timing.json"]
  ∧ with_suffix [py "a.tar.gz"] (py ".x") = Ok [py "a.tar.x"]
  ∧ with_suffix [py ".bashrc"] (py ".x") = Ok [py ".bashrc.x"]
  ∧ with_suffix [py "a."] (py ".x") = Ok [py "a..x"]
  ∧ exc_type <$> (match with_suffix [] (py ".x") with
                  | Err e => Some e
                  | Ok _ => None
                  end) = Some "ValueError"%string.
Proof. repeat split. Qed.

(** ** Lines 47-67 *)

Lemma resolve_api_key_run (w : World) :
  ∃ k, resolve_api_key w = (Ok k, w).
Proof. unfold resolve_api_key. rewrite !bind_run. cbn. eauto. Qed.

Lemma prepare_inv (text output_path voice_id : pystr) (w w1 : World)
    (p : Prepared) :
  prepare text output_path voice_id w = (Ok p, w1) →
  only_new_dirs w w1
  ∧ p_output_path p = Path_of_str output_path
  ∧ p_api_key p ≠ []
  ∧ ∃ cache_key,
      _get_cache_key text voice_id = Ok cache_key
      ∧ p_cached_audio p
        = joinpath (parent (Path_of_str output_path)) (cache_key ++ py ".mp3")
      ∧ p_cached_timing p
        = joinpath (parent (Path_of_str output_path))
                   (cache_key ++ py ".timing.json").
Proof.
  unfold prepare. cbv zeta. rewrite bind_run.
  destruct (mkdir_parents _ _ w) as [[[]|e] w0] eqn:Hmk; [|done].
  apply mkdir_parents_frame in Hmk. rewrite bind_run.
  destruct (resolve_api_key_run w0) as [k ->].
  destruct k as [[|c k]|]; [done| |done].
  rewrite bind_run. unfold lift.
  destruct (_get_cache_key text voice_id) as [key|e] eqn:Hkey; [|done].
  intros [= <- <-]. cbn [p_output_path p_api_key p_cached_audio p_cached_timing].
  split; [exact Hmk|]. split; [done|]. split; [done|]. eauto.
Qed.

(** ** The cache branch (lines 69-83) *)

Section cache_branch.
Context (X : Externals) (text : pystr) (cached_audio cached_timing : Path).

(** Reading the cache changes nothing. *)
Lemma read_cache_world (w w' : World) (r : Result VoiceoverResult) :
  read_cache X text cached_audio cached_timing w = (r, w') → w' = w.
Proof.
  unfold read_cache. rewrite bind_run. unfold read_text.
  destruct (node_at w cached_timing) as [[content|]|]; try by intros [= _ <-].
  rewrite bind_run. unfold lift.
  destruct (json_loads X content) as [timing_data|e]; [|by intros [= _ <-]].
  cbv zeta. rewrite bind_run.
  destruct (dict_get timing_data _ _) as [wt|e]; [|by intros [= _ <-]].
  rewrite bind_run.
  destruct (dict_get timing_data _ _) as [ca|e]; by intros [= _ <-].
Qed.


(** The cache answers when both files exist and the [try] of lines 72-81
    raises nothing. *)
Lemma try_cache_run (w : World) :
  try_cache X text cached_audio cached_timing w
  = (Ok (if bool_decide (is_Some (node_at w cached_audio))
            && bool_decide (is_Some (node_at w cached_timing))
         then match read_cache X text cached_audio cached_timing w with
              | (Ok r, _) => Some r
              | (Err _, _) => None
              end
         else None), w).
Proof.
  unfold try_cache. rewrite bind_run. unfold path_exists at 1.
  destruct (bool_decide (is_Some (node_at w cached_audio))); cbn [andb].
  - rewrite bind_run. unfold path_exists.
    destruct (bool_decide (is_Some (node_at w cached_timing))); [|done].
    unfold try_except. rewrite bind_run.
    destruct (read_cache X text cached_audio cached_timing w)
      as [[r|e] w'] eqn:Hread; apply read_cache_world in Hread as ->; done.
  - by rewrite bind_run.
Qed.

Lemma read_cache_hit (w : World) (content : pystr)
    (items : list (pystr * Json)) :
  node_at w cached_timing = Some (File content) →
  json_loads X content = Ok (JObj items) →
  read_cache X text cached_audio cached_timing w
  = (Ok (mkResult (path_str cached_audio)
                  (default (JArr []) (assoc (py "word_timings") items))
                  (default (JObj []) (assoc (py "character_alignment") items))
                  (_calculate_cost text) (Z.of_nat (length text)) true), w).
Proof.
  intros Hnode Hjson. unfold read_cache. rewrite bind_run. unfold read_text.
  rewrite Hnode. rewrite bind_run. unfold lift. rewrite Hjson. done.
Qed.

(** What the cache returns carries the cost and the length of [text]. *)
Lemma read_cache_cost (w w' : World) (r : VoiceoverResult) :
  read_cache X text cached_audio cached_timing w = (Ok r, w') →
  cost r = _calculate_cost text ∧ character_count r = Z.of_nat (length text).
Proof.
  unfold read_cache. intros H.
  repeat (apply bind_Ok in H as (? & ? & _ & H)). cbv zeta in H.
  repeat (apply bind_Ok in H as (? & ? & _ & H)).
  by injection H as <- _.
Qed.

End cache_branch.

(** ** One attempt (lines 89-148) *)

(** A step that makes no request. *)
Definition no_post {A} (m : M A) : Prop :=
  ∀ w r w', m w = (r, w') → posts w' = posts w.

Lemma no_post_bind {A B} (m : M A) (f : A → M B) :
  no_post m → (∀ a, no_post (f a)) → no_post (m ≫= f).
Proof.
  intros Hm Hf w r w'. rewrite bind_run.
  destruct (m w) as [[a|e] w1] eqn:Hmw.
  - intros Hfa. apply Hf in Hfa. apply Hm in Hmw. congruence.
  - intros [= _ <-]. by apply Hm in Hmw.
Qed.

Lemma no_post_lift {A} (r : Result A) : no_post (lift r).
Proof. by intros w r' w' [= _ <-]. Qed.

Lemma no_post_ret {A} (a : A) : no_post (mret a : M A).
Proof. by intros w r' w' [= _ <-]. Qed.

Lemma no_post_path_exists (p : Path) : no_post (path_exists p).
Proof. by intros w r' w' [= _ <-]. Qed.

Lemma no_post_write_file (p : Path) (content : pystr) :
  no_post (write_file p content).
Proof.
  intros w r w'. unfold write_file.
  destruct (node_at w p) as [[|]|];
    destruct (node_at w (parent p)) as [[|]|]; by intros [= _ <-].
Qed.

Ltac solve_no_post :=
  repeat first
    [ progress cbv zeta
    | apply no_post_bind; [|intros ?]
    | apply no_post_lift
    | apply no_post_ret
    | apply no_post_write_file
    | apply no_post_path_exists
    | match goal with |- no_post (if ?c then _ else _) => destruct c end ].

Section attempts.
Context (X : Externals) (text : pystr) (output_path : Path).
Context (voice_id api_key : pystr) (cached_audio cached_timing : Path).

Local Abbreviation body :=
  (attempt X text output_path voice_id api_key cached_audio cached_timing).
Local Abbreviation req := (make_request text voice_id api_key).

(** An attempt makes one request, whatever comes of it. *)
Lemma attempt_posts (w w' : World) (r : Result VoiceoverResult) :
  body w = (r, w') → posts w' = S (posts w).
Proof.
  unfold attempt. rewrite bind_run. unfold requests_post.
  destruct (http_post X (posts w) req) as [e|result]; [by intros [= _ <-]|].
  intros Hrest.
  change (S (posts w)) with (posts (after_post w)).
  revert Hrest. generalize (after_post w). intros w0.
  match goal with |- ?m w0 = _ → _ => enough (no_post m) as Hm by apply Hm end.
  solve_no_post.
Qed.

(** The request fails: the attempt raises its error, nothing else done. *)
Lemma attempt_transport_error (w : World) (e : Exc) :
  http_post X (posts w) req = Raises e →
  body w = (Err e, after_post w).
Proof.
  intros Hpost. unfold attempt. rewrite bind_run. unfold requests_post.
  by rewrite Hpost.
Qed.


(** What an attempt returns carries the cost and the length of [text]. *)
Lemma attempt_cost (w w' : World) (r : VoiceoverResult) :
  body w = (Ok r, w') →
  cost r = _calculate_cost text ∧ character_count r = Z.of_nat (length text)
  ∧ from_cache r = false ∧ audio_path r = path_str output_path.
Proof.
  unfold attempt. intros H.
  repeat (apply bind_Ok in H as (? & ? & _ & H)). cbv zeta in H.
  repeat (apply bind_Ok in H as (? & ? & _ & H)).
  by injection H as <- _.
Qed.

(** ** The retry loop (lines 86-157) *)

Lemma retry_loop_raise (retries : Z) (todo : nat) (last : option Exc)
    (w w' : World) (e : Exc) :
  body w = (Err e, w') →
  retry_loop body retries (S todo) last w
  = retry_loop body retries todo (Some e) w'.
Proof. intros Hbody. cbn [retry_loop]. unfold try_except. by rewrite Hbody. Qed.

Lemma retry_loop_return (retries : Z) (todo : nat) (last : option Exc)
    (w w' : World) (r : VoiceoverResult) :
  body w = (Ok r, w') →
  retry_loop body retries (S todo) last w = (Ok r, w').
Proof. intros Hbody. cbn [retry_loop]. unfold try_except. by rewrite Hbody. Qed.

(** The loop never takes a request back. *)
Lemma retry_loop_posts_mono (retries : Z) (todo : nat) (last : option Exc)
    (w : World) :
  (posts w ≤ posts (retry_loop body retries todo last w).2)%nat.
Proof.
  revert last w. induction todo as [|todo IH]; intros last w; [done|].
  destruct (body w) as [[r|e] w'] eqn:Hbody.
  - rewrite (retry_loop_return _ _ _ _ _ _ Hbody). cbn.
    apply attempt_posts in Hbody. lia.
  - rewrite (retry_loop_raise _ _ _ _ _ _ Hbody).
    apply attempt_posts in Hbody. specialize (IH (Some e) w'). lia.
Qed.


(** What the loop raises is the exception of line 157. *)
Lemma retry_loop_error (retries : Z) (todo : nat) (last : option Exc)
    (w w' : World) (e : Exc) :
  retry_loop body retries todo last w = (Err e, w') →
  ∃ last_error, e = GenerationFailed retries last_error.
Proof.
  revert last w. induction todo as [|todo IH]; intros last w.
  - intros [= <- _]. eauto.
  - destruct (body w) as [[r0|e0] w0] eqn:Hbody.
    + by rewrite (retry_loop_return _ _ _ _ _ _ Hbody).
    + rewrite (retry_loop_raise _ _ _ _ _ _ Hbody). apply IH.
Qed.

(** What the loop returns is what an attempt returned. *)
Lemma retry_loop_cost (retries : Z) (todo : nat) (last : option Exc)
    (w w' : World) (r : VoiceoverResult) :
  retry_loop body retries todo last w = (Ok r, w') →
  cost r = _calculate_cost text ∧ character_count r = Z.of_nat (length text)
  ∧ from_cache r = false ∧ audio_path r = path_str output_path.
Proof.
  revert last w. induction todo as [|todo IH]; intros last w; [done|].
  destruct (body w) as [[r0|e] w0] eqn:Hbody.
  - rewrite (retry_loop_return _ _ _ _ _ _ Hbody). intros [= <- <-].
    by eapply attempt_cost.
  - rewrite (retry_loop_raise _ _ _ _ _ _ Hbody). apply IH.
Qed.

End attempts.

(** ** The whole function *)

Section generate.
Context (X : Externals) (text output_path voice_id : pystr) (retries : Z).

(** Once lines 47-67 are through, the function is the cache branch followed,
    unless the cache answers, by the generation. *)
Lemma generate_voiceover_prepared (w w1 : World) (p : Prepared) :
  prepare text output_path voice_id w = (Ok p, w1) →
  generate_voiceover X text output_path voice_id retries w
  = if bool_decide (is_Some (node_at w1 (p_cached_audio p)))
       && bool_decide (is_Some (node_at w1 (p_cached_timing p)))
    then match read_cache X text (p_cached_audio p) (p_cached_timing p) w1 with
         | (Ok r, _) => (Ok r, w1)
         | (Err _, _) => synthesize X text voice_id retries p w1
         end
    else synthesize X text voice_id retries p w1.
Proof.
  intros Hprep. unfold generate_voiceover. rewrite bind_run, Hprep.
  rewrite bind_run, try_cache_run.
  destruct (_ && _); [|done].
  by destruct (read_cache X text _ _ w1) as [[r|e] w2].
Qed.


(** What the function returns carries the cost and the length of [text]. *)
Lemma generate_voiceover_cost (w w' : World) (r : VoiceoverResult) :
  generate_voiceover X text output_path voice_id retries w = (Ok r, w') →
  cost r = _calculate_cost text ∧ character_count r = Z.of_nat (length text).
Proof.
  unfold generate_voiceover. intros H.
  apply bind_Ok in H as (p & w1 & _ & H).
  apply bind_Ok in H as (hit & w2 & Hhit & H).
  destruct hit as [r0|].
  - injection H as -> ->. rewrite try_cache_run in Hhit.
    destruct (_ && _); [|done].
    destruct (read_cache X text _ _ w1) as [[r1|e] w3] eqn:Hread; [|done].
    injection Hhit as -> _. by eapply read_cache_cost.
  - unfold synthesize in H. apply retry_loop_cost in H. tauto.
Qed.

End generate.

(** * Voiceover generation: the claims *)




(** C10, as the spec words it, fails: both cache files exist and the timing
    file parses, to the empty array; the function generates anew, returns
    the requested path and writes it and its timing file. *)
Lemma parsed_cache_regenerated :
  is_Some (node_at (Demo.cached (py "[]")) Demo.cached_audio)
  ∧ node_at (Demo.cached (py "[]")) Demo.cached_timing = Some (File (py "[]"))
  ∧ Demo.json_loads (py "[]") = Ok (JArr [])
  ∧ (λ r, (audio_path r, from_cache r)) <$>
      returned (generate_voiceover
                  (Demo.externals [Responds Demo.good_response]) Demo.text
                  Demo.output_path default_voice_id 3
                  (Demo.cached (py "[]")))
    = Some (py "/outputs/job/section_1.mp3", false)
  ∧ writes (generate_voiceover
              (Demo.externals [Responds Demo.good_response]) Demo.text
              Demo.output_path default_voice_id 3 (Demo.cached (py "[]"))).2
    = [ Demo.job_dir ++ [py "section_1.mp3"];
        Demo.job_dir ++ [py "section_1.timing.json"] ].
Proof.
  split; [exists (File [0; 1; 2]%N); vm_compute; reflexivity|].
  split_and!; vm_compute; reflexivity.
Qed.

(** The doubles that Python computes: [8 * 0.0003] and [3 * 0.0003]. *)
Example calculate_cost_hi_there :
  _calculate_cost (py "hi there") = 0x1.3a92a30553261p-9%float
  ∧ _calculate_cost (py "abc") = 0x1.d7dbf487fcb92p-11%float.
Proof. split; vm_compute; reflexivity. Qed.



(** * Timing reconstruction: what the words say *)

Section word_facts.
Context {T : Type} (zero : T).
Implicit Types (characters : list pystr) (start_times end_times : list T).
Implicit Types (words : list (WordTiming T)) (w : WordTiming T).

Lemma getitem_Ok_lookup {A} (l : list A) (i : Z) (x : A) :
  0 ≤ i → getitem l i = Ok x → l !! Z.to_nat i = Some x.
Proof.
  intros Hi. unfold getitem.
  destruct (Z.ltb_spec i 0) as [|_]; [lia|].
  destruct (Z.ltb_spec i 0) as [|_]; [lia|].
  destruct (l !! Z.to_nat i); by intros [= ->].
Qed.

Lemma getitem_Ok_last {A} (l : list A) (x : A) :
  getitem l (-1) = Ok x → last l = Some x.
Proof.
  unfold getitem. cbn [Z.ltb Z.compare].
  destruct (Z.ltb_spec (-1 + Z.of_nat (length l)) 0) as [|Hlen]; [done|].
  destruct (l !! Z.to_nat (-1 + Z.of_nat (length l))) as [y|] eqn:Hy;
    intros [= ->].
  rewrite last_lookup. rewrite <- Hy. f_equal. lia.
Qed.

(** Between where it starts and where it stops, the loop of lines 200-202
    saw whitespace only. *)
Lemma skip_whitespace_breaks characters (fuel idx k : nat) :
  (idx ≤ k < skip_whitespace characters fuel idx)%nat →
  ∃ c, characters !! k = Some c ∧ is_word_break c = true.
Proof.
  revert idx. induction fuel as [|fuel IH]; intros idx; cbn [skip_whitespace].
  - lia.
  - destruct (characters !! idx) as [c|] eqn:Hc; [|lia].
    destruct (is_word_break c) eqn:Hws; [|lia].
    intros [Hlo Hhi]. destruct (decide (k = idx)) as [->|Hne]; [eauto|].
    apply (IH (S idx)). lia.
Qed.

Lemma skip_whitespace_next characters (fuel idx k : nat) (c : pystr) :
  (idx ≤ k)%nat → characters !! k = Some c → is_word_break c = false →
  (skip_whitespace characters fuel idx ≤ k)%nat.
Proof.
  intros Hk Hc Hws.
  destruct (Nat.le_gt_cases (skip_whitespace characters fuel idx) k)
    as [|Hgt]; [done|].
  destruct (skip_whitespace_breaks characters fuel idx k) as (c' & Hc' & Hws');
    [lia|]. congruence.
Qed.

(** Words stay in reading order when one that starts no earlier is put at
    the end. *)
Lemma in_reading_order_snoc words w :
  in_reading_order (words ++ [w])
  ↔ in_reading_order words
    ∧ Forall (λ a, char_start_index a ≤ char_start_index w) words.
Proof.
  split.
  - intros Hord. split.
    + intros i j wi wj Hij Hi Hj.
      apply (Hord i j); [done | |];
        by apply lookup_app_l_Some.
    + apply Forall_lookup. intros i a Hi.
      apply (Hord i (length words)).
      * apply lookup_lt_Some in Hi. lia.
      * by apply lookup_app_l_Some.
      * by rewrite list_lookup_middle.
  - intros [Hord Hall] i j wi wj Hij Hi Hj.
    rewrite Forall_lookup in Hall.
    apply lookup_snoc_Some in Hi as [[Hilt Hi]|[-> ->]];
      apply lookup_snoc_Some in Hj as [[Hjlt Hj]|[Hjeq ->]].
    + by apply (Hord i j).
    + by apply (Hall i).
    + lia.
    + done.
Qed.

Section loop.
Context (characters : list pystr) (start_times end_times : list T).

Local Abbreviation Inv := (loop_invariant zero characters start_times end_times).

Lemma join_unbroken_snoc (cs : list pystr) (c : pystr) :
  join_unbroken (cs ++ [c])
  = join_unbroken cs ++ (if is_word_break c then [] else c).
Proof.
  unfold join_unbroken. rewrite filter_app, filter_cons, filter_nil.
  destruct (is_word_break c); cbn.
  - rewrite decide_False by done. by rewrite !app_nil_r.
  - rewrite decide_True by done.
    rewrite join_app. cbn. by rewrite app_nil_r.
Qed.

Lemma join_unbroken_breaks (cs : list pystr) :
  Forall (λ c, is_word_break c = true) cs → join_unbroken cs = [].
Proof.
  unfold join_unbroken. induction 1 as [|c cs Hc _ IH]; [done|].
  rewrite filter_cons, decide_False by congruence. done.
Qed.

(** One more character of the slice that starts at [a]. *)
Lemma take_drop_snoc (i a : nat) (char : pystr) :
  characters !! i = Some char → (a ≤ i)%nat →
  take (S i - a) (drop a characters)
  = take (i - a) (drop a characters) ++ [char].
Proof.
  intros Hchar Ha. replace (S i - a)%nat with (S (i - a)) by lia.
  apply take_S_r. rewrite lookup_drop. rewrite <- Hchar. f_equal. lia.
Qed.

(** A word break at index [i] adds nothing to the text read from [a]. *)
Lemma join_unbroken_step (i a : nat) (char : pystr) :
  characters !! i = Some char → is_word_break char = true →
  join_unbroken (take (S i - a) (drop a characters))
  = join_unbroken (take (i - a) (drop a characters)).
Proof.
  intros Hchar Hws. destruct (Nat.le_gt_cases a i) as [Ha|Ha].
  - rewrite (take_drop_snoc i a char), join_unbroken_snoc, Hws by done.
    by rewrite app_nil_r.
  - by replace (S i - a)%nat with (i - a)%nat by lia.
Qed.

(** Lines 194-197: closing the current word keeps the invariant. *)
Lemma close_word_invariant (i : nat) (char : pystr)
    (words : list (WordTiming T)) (cur : WordTiming T)
    (st1 : list (WordTiming T) * WordTiming T) :
  characters !! i = Some char → is_word_break char = true →
  Inv i (words, cur) →
  (if truthy (strip (w_text cur)) then
     e ← (if (0 <? i)%nat then getitem end_times (Z.of_nat i - 1)
          else getitem start_times (Z.of_nat i));
     let current_word :=
       mkWord (w_text cur) (w_start cur) e (char_start_index cur)
              (Z.of_nat i - 1) in
     Ok (words ++ [current_word], current_word)
   else Ok (words, cur)) = Ok st1 →
  Inv (S i) st1.
Proof.
  intros Hchar Hws
    [Hwords Htimed Hspelled Hord Hstart Hstime Htext Hcur Hgap Hnext].
  cbn [fst snd] in *.
  apply in_reading_order_snoc in Hord as [Hord Hle].
  assert (Forall (spans_within (S i)) words) as Hwords'.
  { eapply Forall_impl; [exact Hwords|]. unfold spans_within. intros w. lia. }
  assert (∀ k c, (S i ≤ k)%nat → characters !! k = Some c →
                 is_word_break c = false → char_start_index cur ≤ Z.of_nat k)
    as Hnext' by (intros k c Hk; apply Hnext; lia).
  pose proof (join_unbroken_step i (Z.to_nat (char_start_index cur)) char
                Hchar Hws) as Hstep.
  destruct (truthy (strip (w_text cur))) eqn:Hcontent.
  - assert (w_text cur ≠ []) as Hne
      by (by intros Hnil; rewrite Hnil in Hcontent).
    destruct (Hcur Hne) as [Hse Hei].
    destruct (Nat.ltb_spec 0 i) as [Hpos|]; [|lia].
    destruct (getitem end_times (Z.of_nat i - 1)) as [e|err] eqn:He; [|done].
    apply getitem_Ok_lookup in He; [|lia].
    cbn [mbind Result_bind]. intros [= <-].
    constructor; cbn [fst snd w_text w_start w_end char_start_index
                      char_end_index].
    + apply Forall_app. split; [done|]. apply Forall_singleton.
      unfold spans_within. cbn. lia.
    + apply Forall_app. split; [done|]. apply Forall_singleton.
      split; cbn; [done | by left].
    + apply Forall_app. split; [done|]. apply Forall_singleton.
      unfold spells, word_characters. cbn. rewrite Htext.
      do 2 f_equal. lia.
    + apply in_reading_order_snoc. split.
      * apply in_reading_order_snoc. by split.
      * apply Forall_app. split; [done|]. by apply Forall_singleton.
    + done.
    + done.
    + by rewrite Hstep.
    + intros _. lia.
    + intros k c _ Hk Hki Hc. assert (k = i) as -> by lia. congruence.
    + done.
  - intros [= <-].
    constructor; cbn [fst snd]; try done.
    + apply in_reading_order_snoc. by split.
    + by rewrite Hstep.
    + intros Hne. specialize (Hcur Hne). lia.
    + intros k c Hne Hk Hki Hc.
      destruct (decide (k = i)) as [->|]; [congruence|].
      apply (Hgap k c); [done | done | lia | done].
Qed.

(** One iteration keeps the invariant. *)
Lemma loop_body_invariant (i : nat) (char : pystr)
    (st st' : list (WordTiming T) * WordTiming T) :
  characters !! i = Some char →
  loop_body zero characters start_times end_times i char st = Ok st' →
  Inv i st → Inv (S i) st'.
Proof.
  intros Hchar Hbody Hinv. destruct st as [words cur].
  revert Hbody. unfold loop_body.
  destruct (is_word_break char) eqn:Hws.
  - (* whitespace: the word is closed when it has content *)
    destruct (if truthy (strip (w_text cur)) then _ else _)
      as [[words1 cur1]|err] eqn:Hclose; [|done].
    apply (close_word_invariant i char) in Hclose; [|done..].
    cbn [mbind Result_bind].
    set (next := skip_whitespace characters (length characters - (i + 1))
                                 (i + 1)).
    destruct (Nat.ltb_spec next (length characters)) as [Hnextlt|];
      [|by intros [= <-]].
    (* a next word starts at the next character that is no whitespace *)
    destruct Hclose as [Hwords1 Htimed1 Hspelled1 Hord1 Hstart1 Hstime1
                        Htext1 Hcur1 Hgap1 Hnext1].
    cbn [fst snd] in *.
    apply in_reading_order_snoc in Hord1 as [Hord1 Hle1].
    pose proof (skip_whitespace_exit characters (length characters - (i + 1))
                  (i + 1)) as Hexit.
    cbv zeta in Hexit. fold next in Hexit.
    destruct Hexit as [Hge Hexit]; [lia|].
    destruct (characters !! next) as [c|] eqn:Hc;
      [|apply lookup_ge_None in Hc; lia].
    assert (char_start_index cur1 ≤ Z.of_nat next) as Hcur_next
      by (apply (Hnext1 next c); [lia | done | done]).
    destruct (if (next <? length start_times)%nat then _ else _)
      as [s|err] eqn:Hs; [|done].
    cbn [mbind Result_bind]. intros [= <-].
    constructor; cbn [fst snd w_text w_start w_end char_start_index
                      char_end_index].
    + done.
    + done.
    + done.
    + apply in_reading_order_snoc. split; [done|].
      eapply Forall_impl; [exact Hle1|]. cbn. intros w. lia.
    + lia.
    + rewrite Nat2Z.id.
      destruct (Nat.ltb_spec next (length start_times)) as [Hlt|Hge'].
      * apply getitem_Ok_lookup in Hs; [|lia]. rewrite Nat2Z.id in Hs.
        by rewrite Hs.
      * injection Hs as <-. by rewrite lookup_ge_None_2.
    + rewrite Nat2Z.id. by replace (S i - next)%nat with 0%nat by lia.
    + done.
    + done.
    + intros k c' Hk Hc' Hws'. apply inj_le.
      apply (skip_whitespace_next characters _ _ k c'); [lia | done | done].
  - (* a character of the word *)
    intros [= <-].
    destruct Hinv
      as [Hwords Htimed Hspelled Hord Hstart Hstime Htext Hcur Hgap Hnext].
    cbn [fst snd] in *.
    apply in_reading_order_snoc in Hord as [Hord Hle].
    assert (char_start_index cur ≤ Z.of_nat i) as Hsi
      by (by apply (Hnext i char)).
    constructor; cbn [fst snd w_text w_start w_end char_start_index
                      char_end_index].
    + eapply Forall_impl; [exact Hwords|]. unfold spans_within.
      intros w. lia.
    + done.
    + done.
    + apply in_reading_order_snoc. by split.
    + done.
    + done.
    + rewrite (take_drop_snoc i _ char), join_unbroken_snoc, Hws by (done || lia).
      by rewrite Htext.
    + intros _. lia.
    + intros k c _ Hk Hki. lia.
    + intros k c Hk. apply Hnext. lia.
Qed.

(** The loop keeps the invariant up to the end of the characters. *)
Lemma for_loop_invariant (rest : list pystr) (i : nat)
    (st st' : list (WordTiming T) * WordTiming T) :
  drop i characters = rest → (i ≤ length characters)%nat →
  for_loop zero characters start_times end_times i rest st = Ok st' →
  Inv i st → Inv (length characters) st'.
Proof.
  revert i st. induction rest as [|char rest IH]; intros i st Hdrop Hi.
  - intros [= <-] Hinv.
    apply (f_equal length) in Hdrop. rewrite length_drop in Hdrop.
    cbn [length] in Hdrop.
    by replace (length characters) with i by lia.
  - cbn [for_loop].
    destruct (loop_body zero characters start_times end_times i char st)
      as [st1|e] eqn:Hbody; [|done].
    cbn [mbind Result_bind]. intros Hrest Hinv.
    assert (characters !! i = Some char) as Hchar.
    { rewrite <- (Nat.add_0_r i), <- lookup_drop. by rewrite Hdrop. }
    apply (IH (S i) st1); [| |done|].
    + rewrite <- Nat.add_1_r, <- drop_drop. by rewrite Hdrop.
    + apply lookup_lt_Some in Hchar. lia.
    + by eapply loop_body_invariant.
Qed.

Lemma join_unbroken_app (cs1 cs2 : list pystr) :
  join_unbroken (cs1 ++ cs2) = join_unbroken cs1 ++ join_unbroken cs2.
Proof. unfold join_unbroken. by rewrite filter_app, join_app. Qed.

(** What the loop has established when the function returns. *)
Lemma extract_word_timings_invariant (words : list (WordTiming T)) :
  _extract_word_timings zero characters start_times end_times = Ok words →
  Forall (spans_within (length characters)) words
  ∧ Forall (timed_by zero start_times end_times) words
  ∧ Forall (spells characters) words
  ∧ in_reading_order words.
Proof.
  unfold _extract_word_timings.
  destruct (_ || _) eqn:Hempty.
  { intros [= <-]. split_and!; [done..|]. by intros i j wi wj _ ?. }
  apply orb_false_elim in Hempty as [[Hc Hs]%orb_false_elim He].
  destruct (truthy start_times) eqn:Hst; [|done].
  destruct (getitem start_times 0) as [s0|err] eqn:Hs0; [|done].
  apply getitem_Ok_lookup in Hs0; [|done].
  cbn [mbind Result_bind].
  destruct (for_loop _ _ _ _ _ _ _) as [[ws cur]|err] eqn:Hloop; [|done].
  cbn [mbind Result_bind].
  apply (for_loop_invariant characters 0) in Hloop; [|done | lia |].
  2:{ constructor; cbn [fst snd w_text w_start w_end char_start_index
                        char_end_index]; try done.
      all: try lia.
      - apply in_reading_order_snoc. split; [|done]. by intros i j wi wj _ ?.
      - by rewrite Hs0. }
  destruct Hloop
    as [Hwords Htimed Hspelled Hord Hstart Hstime Htext Hcur Hgap Hnext].
  cbn [fst snd] in *.
  apply in_reading_order_snoc in Hord as [Hord Hle].
  destruct (truthy (strip (w_text cur))) eqn:Hcontent;
    [|by intros [= <-]].
  assert (w_text cur ≠ []) as Hne
    by (by intros Hnil; rewrite Hnil in Hcontent).
  destruct (Hcur Hne) as [Hse Hei].
  destruct (truthy end_times) eqn:Het; [|done].
  destruct (getitem end_times (-1)) as [e|err] eqn:Hlast; [|done].
  apply getitem_Ok_last in Hlast.
  cbn [mbind Result_bind]. intros [= <-].
  split_and!.
  - apply Forall_app. split; [done|]. apply Forall_singleton.
    unfold spans_within. cbn. lia.
  - apply Forall_app. split; [done|]. apply Forall_singleton.
    split; cbn; [done | by right].
  - apply Forall_app. split; [done|]. apply Forall_singleton.
    unfold spells, word_characters. cbn. rewrite Htext.
    set (a := Z.to_nat (char_start_index cur)).
    set (n := Z.to_nat (char_end_index cur + 1 - char_start_index cur)).
    rewrite <- (take_drop n (take (length characters - a) (drop a characters))).
    rewrite join_unbroken_app, take_take.
    replace (n `min` (length characters - a))%nat with n by lia.
    rewrite (join_unbroken_breaks (drop _ _)); [by rewrite app_nil_r|].
    apply Forall_lookup. intros j c Hj.
    rewrite lookup_drop in Hj.
    apply lookup_take_Some in Hj as [Hj Hjlt].
    rewrite lookup_drop in Hj.
    apply (Hgap (a + (n + j))%nat c); [done | lia | | done].
    apply lookup_lt_Some in Hj. lia.
  - apply in_reading_order_snoc. by split.
Qed.

(** From [i] on, characters that are no word breaks are added to the
    current word, which then ends at the last of them. *)
Lemma for_loop_unbroken (rest : list pystr) (i : nat)
    (words : list (WordTiming T)) (cur : WordTiming T) :
  Forall (λ c, is_word_break c = false) rest →
  for_loop zero characters start_times end_times i rest (words, cur)
  = Ok (words,
        mkWord (w_text cur ++ mjoin rest) (w_start cur) (w_end cur)
               (char_start_index cur)
               (if rest is [] then char_end_index cur
                else Z.of_nat (i + length rest) - 1)).
Proof.
  intros Hrest. revert i cur.
  induction Hrest as [|char rest Hchar _ IH]; intros i cur.
  - cbn. rewrite app_nil_r. by destruct cur.
  - cbn [for_loop]. unfold loop_body. rewrite Hchar.
    cbn [mbind Result_bind]. rewrite IH.
    cbn [w_text w_start w_end char_start_index char_end_index mjoin
         list_join length].
    rewrite <- app_assoc. do 3 f_equal.
    destruct rest; cbn [length]; lia.
Qed.

(** From [i] on, over word breaks up to the end of the characters, a
    current word without content stays as it is and no word is added. *)
Lemma for_loop_breaks (rest : list pystr) (i : nat)
    (words : list (WordTiming T)) (cur : WordTiming T) :
  drop i characters = rest →
  Forall (λ c, is_word_break c = true) rest →
  truthy (strip (w_text cur)) = false →
  for_loop zero characters start_times end_times i rest (words, cur)
  = Ok (words, cur).
Proof.
  intros Hdrop Hrest Hcur. revert i Hdrop.
  induction Hrest as [|char rest Hchar Hrest IH]; intros i Hdrop; [done|].
  cbn [for_loop]. unfold loop_body. rewrite Hchar, Hcur.
  cbn [mbind Result_bind].
  set (next := skip_whitespace characters (length characters - (i + 1))
                               (i + 1)).
  pose proof (skip_whitespace_exit characters (length characters - (i + 1))
                (i + 1)) as Hexit.
  cbv zeta in Hexit. fold next in Hexit.
  destruct Hexit as [Hge Hexit]; [lia|].
  destruct (Nat.ltb_spec next (length characters)) as [Hlt|_].
  { destruct (characters !! next) as [c|] eqn:Hc;
      [|apply lookup_ge_None in Hc; lia].
    assert (is_word_break c = true); [|congruence].
    assert ((char :: rest) !! (next - i)%nat = Some c) as Hin.
    { rewrite <- Hdrop, lookup_drop, <- Hc. f_equal. lia. }
    assert (Forall (λ c, is_word_break c = true) (char :: rest)) as Hall
      by by constructor.
    rewrite Forall_lookup in Hall. by apply (Hall _ _ Hin). }
  cbn [mbind Result_bind]. apply IH.
  rewrite <- Nat.add_1_r, <- drop_drop. by rewrite Hdrop.
Qed.

End loop.
End word_facts.

(** X3. Every word that [_extract_word_timings] returns has a character
    index range inside the input: [0 <= char_start_index <= char_end_index
    < len(characters)]. *)
Theorem extract_word_timings_index_bounds {T} (zero : T)
    (characters : list pystr) (start_times end_times : list T)
    (words : list (WordTiming T)) :
  _extract_word_timings zero characters start_times end_times = Ok words →
  Forall (spans_within (length characters)) words.
Proof.
  intros Hwords.
  by apply extract_word_timings_invariant in Hwords as (? & ? & ? & ?).
Qed.

Lemma extract_word_timings_index_bounds_witness :
  Forall (spans_within 11)
         [ mkWord (py "hi") 2 4 2 3; mkWord (py "yo") 7 9 7 8;
           mkWord (py "yo") 7 10 7 9; mkWord (py "yo") 7 11 7 9 ].
Proof.
  apply (extract_word_timings_index_bounds 0
           (chars_of (py "  hi   yo  "))
           [0; 1; 2; 3; 4; 5; 6; 7; 8; 9; 10]
           [1; 2; 3; 4; 5; 6; 7; 8; 9; 10; 11]).
  reflexivity.
Defined.

(** X4. Every word that [_extract_word_timings] returns takes its times
    from the lists at its own indices: its start is
    [start_times[char_start_index]] (Python's [0] when [start_times] is
    shorter than that), and its end is [end_times[char_end_index]] or the
    last entry of [end_times]. *)
Theorem extract_word_timings_times {T} (zero : T)
    (characters : list pystr) (start_times end_times : list T)
    (words : list (WordTiming T)) :
  _extract_word_timings zero characters start_times end_times = Ok words →
  Forall (timed_by zero start_times end_times) words.
Proof.
  intros Hwords.
  by apply extract_word_timings_invariant in Hwords as (? & ? & ? & ?).
Qed.

Lemma extract_word_timings_times_witness :
  Forall (timed_by 0 [0; 10; 20; 30; 40; 50] [5; 15; 25; 35; 45; 55])
         [ mkWord (py "a") 10 15 1 1; mkWord (py "b") 40 45 4 4;
           mkWord (py "b") 40 55 4 4 ].
Proof.
  apply (extract_word_timings_times 0 (chars_of (py " a  b "))
           [0; 10; 20; 30; 40; 50] [5; 15; 25; 35; 45; 55]).
  reflexivity.
Defined.

(** X5. The text of every word that [_extract_word_timings] returns is what
    the characters of its index range spell:
    [characters[char_start_index : char_end_index + 1]] joined, the word
    breaks among them left out. *)
Theorem extract_word_timings_text {T} (zero : T)
    (characters : list pystr) (start_times end_times : list T)
    (words : list (WordTiming T)) :
  _extract_word_timings zero characters start_times end_times = Ok words →
  Forall (spells characters) words.
Proof.
  intros Hwords.
  by apply extract_word_timings_invariant in Hwords as (? & ? & ? & ?).
Qed.

Lemma extract_word_timings_text_witness :
  Forall (spells (chars_of (py "  hi   yo  ")))
         [ mkWord (py "hi") 2 4 2 3; mkWord (py "yo") 7 9 7 8;
           mkWord (py "yo") 7 10 7 9; mkWord (py "yo") 7 11 7 9 ].
Proof.
  apply (extract_word_timings_text 0
           (chars_of (py "  hi   yo  "))
           [0; 1; 2; 3; 4; 5; 6; 7; 8; 9; 10]
           [1; 2; 3; 4; 5; 6; 7; 8; 9; 10; 11]).
  reflexivity.
Defined.

(** X6. [_extract_word_timings] returns the words in reading order: a word
    later in the list starts at the same character as an earlier one or
    after it. *)
Theorem extract_word_timings_in_order {T} (zero : T)
    (characters : list pystr) (start_times end_times : list T)
    (words : list (WordTiming T)) :
  _extract_word_timings zero characters start_times end_times = Ok words →
  in_reading_order words.
Proof.
  intros Hwords.
  by apply extract_word_timings_invariant in Hwords as (? & ? & ? & ?).
Qed.

Lemma extract_word_timings_in_order_witness :
  in_reading_order
    [ mkWord (py "hi") 2 4 2 3; mkWord (py "yo") 7 9 7 8;
      mkWord (py "yo") 7 10 7 9; mkWord (py "yo") 7 11 7 9 ].
Proof.
  apply (extract_word_timings_in_order 0
           (chars_of (py "  hi   yo  "))
           [0; 1; 2; 3; 4; 5; 6; 7; 8; 9; 10]
           [1; 2; 3; 4; 5; 6; 7; 8; 9; 10; 11]).
  reflexivity.
Defined.

(** X7. Characters with no space, newline or tab among them come back as
    one word: all of them joined, from the first start time to the last end
    time, over the indices [0] to [len(characters) - 1]; or as no word at
    all when [strip()] leaves nothing of the joined text. *)
Theorem extract_word_timings_one_word {T} (zero : T)
    (characters : list pystr) (start_times end_times : list T)
    (s0 e : T) :
  characters ≠ [] →
  Forall (λ c, is_word_break c = false) characters →
  head start_times = Some s0 → last end_times = Some e →
  _extract_word_timings zero characters start_times end_times
  = Ok (if truthy (strip (mjoin characters))
        then [ mkWord (mjoin characters) s0 e 0
                      (Z.of_nat (length characters) - 1) ]
        else []).
Proof.
  intros Hne Hchars Hs0 He. unfold _extract_word_timings.
  destruct characters as [|c0 characters']; [done|].
  destruct start_times as [|s start_times']; [done|].
  injection Hs0 as ->.
  destruct (getitem_last end_times) as [e' He']; [by destruct end_times|].
  pose proof (getitem_Ok_last _ _ He') as Hlast.
  assert (e' = e) as -> by congruence.
  destruct end_times as [|e0 end_times']; [done|].
  change (getitem (s0 :: start_times') 0) with (Ok s0).
  cbn [truthy negb orb mbind Result_bind].
  rewrite for_loop_unbroken by done.
  cbn [mbind Result_bind w_text w_start w_end char_start_index
       char_end_index app].
  destruct (truthy (strip _)); [|done].
  rewrite He'. done.
Qed.

Lemma extract_word_timings_one_word_witness :
  _extract_word_timings 0 (chars_of (py "hey")) [0; 1; 2] [1; 2; 3]
  = Ok [ mkWord (py "hey") 0 3 0 2 ].
Proof.
  apply (extract_word_timings_one_word 0 (chars_of (py "hey"))
           [0; 1; 2] [1; 2; 3] 0 3);
    [done | by repeat constructor | reflexivity | reflexivity].
Defined.

(** X8. Characters that are all spaces, newlines or tabs give no word,
    whatever the lengths of the two time lists. *)
Theorem extract_word_timings_only_breaks {T} (zero : T)
    (characters : list pystr) (start_times end_times : list T) :
  Forall (λ c, is_word_break c = true) characters →
  _extract_word_timings zero characters start_times end_times = Ok [].
Proof.
  intros Hchars. unfold _extract_word_timings.
  destruct (_ || _) eqn:Hempty; [done|].
  apply orb_false_elim in Hempty as [[Hc Hs]%orb_false_elim He].
  destruct start_times as [|s0 start_times']; [done|].
  change (getitem (s0 :: start_times') 0) with (Ok s0).
  cbn [truthy mbind Result_bind].
  by rewrite for_loop_breaks.
Qed.

Lemma extract_word_timings_only_breaks_witness :
  _extract_word_timings 0 [ [0x20%N]; [0x0a%N]; [0x09%N]; [0x20%N] ]
                        [0; 1] [1]
  = Ok [].
Proof.
  apply (extract_word_timings_only_breaks 0
           [ [0x20%N]; [0x0a%N]; [0x09%N]; [0x20%N] ] [0; 1] [1]).
  by repeat constructor.
Defined.

(** * The cache key and the cache paths *)

Section hexdigest_shape.
Local Open Scope N_scope.

Lemma hex_digit_lower_hex (d : N) : d < 16 → is_lower_hex (hex_digit d) = true.
Proof.
  intros Hd. unfold is_lower_hex, hex_digit.
  destruct (N.ltb_spec d 10).
  - replace (48 <=? 48 + d) with true by (symmetry; apply N.leb_le; lia).
    replace (48 + d <=? 57) with true by (symmetry; apply N.leb_le; lia).
    done.
  - replace (97 <=? 87 + d) with true by (symmetry; apply N.leb_le; lia).
    replace (87 + d <=? 102) with true by (symmetry; apply N.leb_le; lia).
    by rewrite orb_true_r.
Qed.

Lemma hex4_lower_hex (n : N) : forallb is_lower_hex (hex4 n) = true.
Proof.
  unfold hex4. cbn [forallb].
  rewrite !hex_digit_lower_hex; [done | apply N.mod_lt; lia ..].
Qed.

Lemma compress_length (block h : list N) :
  length h = 8%nat → length (SHA256.compress block h) = 8%nat.
Proof.
  intros Hh. unfold SHA256.compress. cbv zeta.
  rewrite length_zip_with, Hh. done.
Qed.

Lemma blocks_length (n : nat) (ws h : list N) :
  length h = 8%nat → length (SHA256.blocks n ws h) = 8%nat.
Proof.
  revert ws h. induction n as [|n IH]; intros ws h Hh; [done|].
  cbn [SHA256.blocks]. apply IH. by apply compress_length.
Qed.

Lemma digest_words_length (msg : list N) :
  length (SHA256.digest_words msg) = 8%nat.
Proof. unfold SHA256.digest_words. by apply blocks_length. Qed.

(** [hexdigest()] is 64 characters, digits and letters from [a] to [f]. *)
Lemma hexdigest_shape (msg : list N) :
  length (SHA256.hexdigest msg) = 64%nat
  ∧ forallb is_lower_hex (SHA256.hexdigest msg) = true.
Proof.
  unfold SHA256.hexdigest.
  pose proof (digest_words_length msg) as Hlen.
  destruct (SHA256.digest_words msg)
    as [|w0 [|w1 [|w2 [|w3 [|w4 [|w5 [|w6 [|w7 [|w8 ws]]]]]]]]];
    try done.
  split; [done|].
  cbn [mbind list_bind app]. rewrite !forallb_app, !hex4_lower_hex. done.
Qed.

End hexdigest_shape.

(** ** One more component on a path *)

Lemma lstrip_sep_id (s : pystr) :
  head s ≠ Some 47%N → lstrip_sep s = s.
Proof.
  destruct s as [|c s]; [done|]. cbn. intros Hc.
  destruct (decide (c = 47%N)) as [->|]; done.
Qed.

Lemma split_on_no_sep (s : pystr) :
  Forall (λ c, c ≠ 47%N) s → split_on 47 s = [s].
Proof.
  induction 1 as [|c s Hc _ IH]; [done|].
  cbn [split_on]. rewrite decide_False by done. by rewrite IH.
Qed.

(** A file name without a slash is a path of one component. *)
Lemma Path_of_str_name (s : pystr) :
  Forall (λ c, c ≠ 47%N) s → s ≠ [] → s ≠ py "." → Path_of_str s = [s].
Proof.
  intros Hs Hne Hdot. unfold Path_of_str. cbv zeta.
  rewrite lstrip_sep_id by (destruct Hs; [done | cbn; congruence]).
  rewrite Nat.sub_diag, split_on_no_sep by done.
  cbn [app]. rewrite filter_cons, filter_nil.
  by rewrite decide_True.
Qed.

Lemma joinpath_name (p : Path) (s : pystr) :
  Forall (λ c, c ≠ 47%N) s → s ≠ [] → s ≠ py "." → joinpath p s = p ++ [s].
Proof.
  intros Hs Hne Hdot. unfold joinpath. cbv zeta.
  rewrite Path_of_str_name by done.
  destruct s as [|c s]; [done|]. cbn [is_anchor].
  rewrite bool_decide_eq_false_2; [done|].
  by inversion Hs.
Qed.

Lemma lower_hex_no_sep (k : pystr) :
  forallb is_lower_hex k = true → Forall (λ c, c ≠ 47%N) k.
Proof.
  induction k as [|c k IH]; [done|]. cbn [forallb].
  intros [Hc Hk]%andb_prop. constructor; [|by apply IH].
  by intros ->.
Qed.

(** A key with a suffix such as [".mp3"] names a file in the directory it is
    joined to. *)
Lemma joinpath_key (dir : Path) (key suffix : pystr) :
  length key = 64%nat → forallb is_lower_hex key = true →
  Forall (λ c, c ≠ 47%N) suffix →
  joinpath dir (key ++ suffix) = dir ++ [key ++ suffix].
Proof.
  intros Hlen Hhex Hsuffix. apply joinpath_name.
  - apply Forall_app. split; [by apply lower_hex_no_sep | done].
  - destruct key; [done | done].
  - intros Heq. apply (f_equal length) in Heq.
    rewrite length_app, Hlen in Heq. cbn in Heq. lia.
Qed.

Lemma get_cache_key_shape (text voice_id key : pystr) :
  _get_cache_key text voice_id = Ok key →
  length key = 64%nat ∧ forallb is_lower_hex key = true.
Proof.
  unfold _get_cache_key. cbv zeta.
  destruct (utf8_encode _) as [b|e]; [|done].
  cbn [mbind Result_bind]. intros [= <-]. apply hexdigest_shape.
Qed.

(** X9. A cache key is 64 characters long, each a digit or a letter from
    [a] to [f]. *)
Theorem get_cache_key_format (text voice_id key : pystr) :
  _get_cache_key text voice_id = Ok key →
  length key = 64%nat ∧ forallb is_lower_hex key = true.
Proof. apply get_cache_key_shape. Qed.

Lemma get_cache_key_format_witness :
  length Demo.key = 64%nat ∧ forallb is_lower_hex Demo.key = true.
Proof.
  apply (get_cache_key_format Demo.text default_voice_id Demo.key).
  vm_compute; reflexivity.
Defined.

(** X10. The two cache files lie in the directory of the output path, named
    by the cache key: [<key>.mp3] and [<key>.timing.json] are direct
    children of [output_path.parent], whatever the name of the output
    file. *)
Theorem cache_files_beside_output (text output_path voice_id : pystr)
    (w w1 : World) (p : Prepared) :
  prepare text output_path voice_id w = (Ok p, w1) →
  ∃ key,
    _get_cache_key text voice_id = Ok key
    ∧ p_cached_audio p
      = parent (Path_of_str output_path) ++ [key ++ py ".mp3"]
    ∧ p_cached_timing p
      = parent (Path_of_str output_path) ++ [key ++ py ".timing.json"].
Proof.
  intros Hprep.
  destruct (prepare_inv _ _ _ _ _ _ Hprep)
    as (_ & _ & _ & key & Hkey & -> & ->).
  exists key. split; [done|].
  unfold _get_cache_key in Hkey. cbv zeta in Hkey.
  destruct (utf8_encode _) as [b|e]; [|done].
  injection Hkey as <-.
  destruct (hexdigest_shape b) as [Hlen Hhex].
  rewrite !joinpath_key; [done | done | done | by repeat constructor
                          | done | done | by repeat constructor].
Qed.

Lemma cache_files_beside_output_witness :
  ∃ key,
    _get_cache_key Demo.text default_voice_id = Ok key
    ∧ Demo.cached_audio
      = parent (Path_of_str Demo.output_path) ++ [key ++ py ".mp3"]
    ∧ Demo.cached_timing
      = parent (Path_of_str Demo.output_path) ++ [key ++ py ".timing.json"].
Proof.
  apply (cache_files_beside_output Demo.text Demo.output_path
           default_voice_id Demo.fresh Demo.fresh
           (mkPrepared (Demo.job_dir ++ [py "section_1.mp3"]) Demo.api_key
                       Demo.cached_audio Demo.cached_timing)).
  vm_compute; reflexivity.
Defined.

(** * Voiceover generation: more of what the code does *)

(** ** The API key (lines 51-61) *)

Lemma resolve_api_key_value (w : World) :
  resolve_api_key w
  = (Ok (py_or (py_or (py_or (env w !! "ELEVENLABS_API_KEY"%string)
                             (env w !! "elevenlabs_key"%string))
                      (env w !! "ELEVENLABS_KEY"%string))
               (env w !! "ELEVEN_API_KEY"%string)), w).
Proof. reflexivity. Qed.

(** The chain of [or] gives the first value that is set and not empty. *)
Lemma py_or_chain_first (k1 k2 k3 k4 : option pystr) :
  match py_or (py_or (py_or k1 k2) k3) k4 with
  | Some (c :: k) =>
      head (filter (λ k, k ≠ []) (omap id [k1; k2; k3; k4])) = Some (c :: k)
  | _ => filter (λ k, k ≠ []) (omap id [k1; k2; k3; k4]) = []
  end.
Proof.
  destruct k1 as [[|c1 k1]|], k2 as [[|c2 k2]|], k3 as [[|c3 k3]|],
    k4 as [[|c4 k4]|]; reflexivity.
Qed.

(** Lines 47-61 make no request and write no file, whatever comes of
    them. *)
Lemma prepare_frame (text output_path voice_id : pystr) (w w1 : World)
    (r : Result Prepared) :
  prepare text output_path voice_id w = (r, w1) → only_new_dirs w w1.
Proof.
  unfold prepare. cbv zeta. rewrite bind_run.
  destruct (mkdir_parents _ _ w) as [[[]|e] w0] eqn:Hmk;
    apply mkdir_parents_frame in Hmk; [|by intros [= _ <-]].
  rewrite bind_run, resolve_api_key_value.
  destruct (py_or _ _) as [[|c k]|]; try by intros [= _ <-].
  rewrite bind_run. unfold lift.
  destruct (_get_cache_key text voice_id); by intros [= _ <-].
Qed.

(** ** The requests of a call *)

Section requests.
Context (X : Externals) (text output_path voice_id : pystr) (retries : Z).

Lemma retry_loop_posts_upper (out : Path) (api_key : pystr)
    (cached_audio cached_timing : Path) (todo : nat) (last : option Exc)
    (w : World) :
  (posts (retry_loop (attempt X text out voice_id api_key cached_audio
                              cached_timing) retries todo last w).2
   ≤ posts w + todo)%nat.
Proof.
  revert last w. induction todo as [|todo IH]; intros last w; [cbn; lia|].
  destruct (attempt X text out voice_id api_key cached_audio cached_timing w)
    as [[r|e] w'] eqn:Hbody.
  - rewrite (retry_loop_return _ _ _ _ _ _ _ _ _ _ _ _ _ Hbody). cbn.
    apply attempt_posts in Hbody. lia.
  - rewrite (retry_loop_raise _ _ _ _ _ _ _ _ _ _ _ _ _ Hbody).
    apply attempt_posts in Hbody. specialize (IH (Some e) w'). lia.
Qed.

End requests.

(** X11. Without an API key, the four variables of lines 52-55 each unset
    or empty, the call raises the [ValueError] of lines 59-61 once the
    output directory is made: no request is sent and no file is written,
    whatever the cache holds. *)
Theorem missing_api_key_raises (X : Externals)
    (text output_path voice_id : pystr) (retries : Z) (w w1 : World) :
  Forall (λ name, env w !! name = None ∨ env w !! name = Some [])
         api_key_names →
  mkdir_parents (length (parent (Path_of_str output_path)))
                (parent (Path_of_str output_path)) w = (Ok (), w1) →
  generate_voiceover X text output_path voice_id retries w
    = (Err ApiKeyRequired, w1)
  ∧ exc_type ApiKeyRequired = "ValueError"%string
  ∧ posts w1 = posts w
  ∧ writes w1 = writes w.
Proof.
  intros Hkeys Hmk.
  pose proof (mkdir_parents_frame _ _ _ _ _ Hmk) as (Henv & Hposts & Hwrites & _).
  split; [|done].
  unfold generate_voiceover, prepare. cbv zeta.
  rewrite !bind_run, Hmk, bind_run, resolve_api_key_value, Henv.
  unfold api_key_names in Hkeys.
  apply Forall_cons in Hkeys as [H1 Hkeys].
  apply Forall_cons in Hkeys as [H2 Hkeys].
  apply Forall_cons in Hkeys as [H3 Hkeys].
  apply Forall_cons in Hkeys as [H4 _].
  by destruct H1 as [-> | ->], H2 as [-> | ->], H3 as [-> | ->],
    H4 as [-> | ->].
Qed.

Lemma missing_api_key_raises_witness :
  generate_voiceover (Demo.externals [Responds Demo.good_response])
                     Demo.text Demo.output_path default_voice_id 3
                     empty_key_world
    = (Err ApiKeyRequired, empty_key_world)
  ∧ exc_type ApiKeyRequired = "ValueError"%string
  ∧ posts empty_key_world = posts empty_key_world
  ∧ writes empty_key_world = writes empty_key_world.
Proof.
  apply (missing_api_key_raises
           (Demo.externals [Responds Demo.good_response]) Demo.text
           Demo.output_path default_voice_id 3
           empty_key_world empty_key_world).
  - repeat constructor;
      first [ right; vm_compute; reflexivity | left; vm_compute; reflexivity ].
  - vm_compute; reflexivity.
Defined.

(** X12. The key that the call uses is the value of the first of
    [ELEVENLABS_API_KEY], [elevenlabs_key], [ELEVENLABS_KEY] and
    [ELEVEN_API_KEY], in this order, that is set and not empty. *)
Theorem api_key_precedence (text output_path voice_id : pystr)
    (w w1 : World) (p : Prepared) :
  prepare text output_path voice_id w = (Ok p, w1) →
  head (filter (λ k, k ≠ []) (omap (λ name, env w !! name) api_key_names))
  = Some (p_api_key p).
Proof.
  unfold prepare. cbv zeta. rewrite bind_run.
  destruct (mkdir_parents _ _ w) as [[[]|e] w0] eqn:Hmk; [|done].
  apply mkdir_parents_frame in Hmk as (Henv & _).
  rewrite bind_run, resolve_api_key_value, Henv.
  pose proof (py_or_chain_first (env w !! "ELEVENLABS_API_KEY"%string)
                (env w !! "elevenlabs_key"%string)
                (env w !! "ELEVENLABS_KEY"%string)
                (env w !! "ELEVEN_API_KEY"%string)) as Hfirst.
  destruct (py_or _ _) as [[|c k]|]; [done| |done].
  rewrite bind_run. unfold lift.
  destruct (_get_cache_key text voice_id) as [key|e]; [|done].
  intros [= <- _]. cbn [p_api_key]. rewrite <- Hfirst.
  unfold api_key_names. cbn [omap list_omap id].
  by destruct (env w !! "ELEVENLABS_API_KEY"%string),
    (env w !! "elevenlabs_key"%string), (env w !! "ELEVENLABS_KEY"%string),
    (env w !! "ELEVEN_API_KEY"%string).
Qed.

Lemma api_key_precedence_witness :
  head (filter (λ k, k ≠ [])
          (omap (λ name, env three_keys_world !! name) api_key_names))
  = Some (p_api_key
            (mkPrepared (Demo.job_dir ++ [py "section_1.mp3"])
                        (py "sk_third") Demo.cached_audio
                        Demo.cached_timing)).
Proof.
  apply (api_key_precedence Demo.text Demo.output_path default_voice_id
           three_keys_world three_keys_world
           (mkPrepared (Demo.job_dir ++ [py "section_1.mp3"]) (py "sk_third")
                       Demo.cached_audio Demo.cached_timing)).
  vm_compute; reflexivity.
Defined.

Lemma generate_voiceover_posts (X : Externals)
    (text output_path voice_id : pystr) (retries : Z) (w : World) :
  (posts w
   ≤ posts (generate_voiceover X text output_path voice_id retries w).2
   ≤ posts w + Z.to_nat retries)%nat.
Proof.
  unfold generate_voiceover. rewrite bind_run.
  destruct (prepare text output_path voice_id w) as [[p|e] w1] eqn:Hprep;
    apply prepare_frame in Hprep as (_ & Hposts & _);
    [|cbn [snd]; lia].
  rewrite bind_run, try_cache_run.
  destruct (if _ && _ then _ else _) as [r|]; [cbn; lia|].
  unfold synthesize. rewrite <- Hposts. split.
  - apply retry_loop_posts_mono.
  - apply retry_loop_posts_upper.
Qed.

(** X13. A call sends at most [retries] requests, none when [retries] is
    zero or negative, and never takes one back from the count. *)
Theorem requests_bounded_by_retries (X : Externals)
    (text output_path voice_id : pystr) (retries : Z) (w : World) :
  (posts w
   ≤ posts (generate_voiceover X text output_path voice_id retries w).2
   ≤ posts w + Z.to_nat retries)%nat.
Proof. apply generate_voiceover_posts. Qed.

(** Without a key in the environment lines 47-61 raise. *)
Lemma prepare_no_key (text output_path voice_id : pystr) (w : World) :
  Forall (λ name, env w !! name = None ∨ env w !! name = Some [])
         api_key_names →
  ∃ e w1, prepare text output_path voice_id w = (Err e, w1).
Proof.
  intros Hkeys. unfold prepare. cbv zeta. rewrite bind_run.
  destruct (mkdir_parents _ _ w) as [[[]|e] w0] eqn:Hmk; [|eauto].
  apply mkdir_parents_frame in Hmk as (Henv & _).
  rewrite bind_run, resolve_api_key_value, Henv.
  unfold api_key_names in Hkeys.
  apply Forall_cons in Hkeys as [H1 Hkeys].
  apply Forall_cons in Hkeys as [H2 Hkeys].
  apply Forall_cons in Hkeys as [H3 Hkeys].
  apply Forall_cons in Hkeys as [H4 _].
  destruct H1 as [-> | ->], H2 as [-> | ->], H3 as [-> | ->],
    H4 as [-> | ->]; cbn; eauto.
Qed.

(** ** Writing a file *)

Lemma write_file_run (p : Path) (content : pystr) (w w' : World)
    (r : Result unit) :
  write_file p content w = (r, w') →
  (r = Ok () ∧ w' = wrote p content w ∧ node_at w p ≠ Some Dir
   ∧ node_at w (parent p) = Some Dir)
  ∨ (∃ e, r = Err e ∧ w' = w
          ∧ (node_at w p = Some Dir ∨ node_at w (parent p) ≠ Some Dir)).
Proof.
  unfold write_file.
  destruct (node_at w p) as [[c|]|] eqn:Hp;
    destruct (node_at w (parent p)) as [[c'|]|] eqn:Hpar;
    intros [= <- <-];
    first [ left; by split_and! | right; eexists; split_and!; [done..|];
            first [ by left | by right ] ].
Qed.

Lemma node_at_wrote (p q : Path) (content : pystr) (w : World) :
  node_at w p ≠ Some Dir →
  node_at (wrote p content w) q
  = if decide (q = p) then Some (File content) else node_at w q.
Proof.
  intros Hp. unfold node_at, wrote, files_insert in *. cbn [fs files_lookup].
  destruct (decide (q = p)) as [->|Hne].
  - rewrite decide_True by done.
    destruct p as [|a [|b p]]; [done | | done].
    by destruct (is_anchor a).
  - rewrite decide_False by done. done.
Qed.

Lemma keeps_all_refl (w : World) : keeps_all w w.
Proof. split; [done|]. intros q. split; eauto. Qed.

Lemma keeps_all_trans (w1 w2 w3 : World) :
  keeps_all w1 w2 → keeps_all w2 w3 → keeps_all w1 w3.
Proof.
  intros [He1 H1] [He2 H2]. split; [congruence|].
  intros q. destruct (H1 q) as [Hd1 Hf1], (H2 q) as [Hd2 Hf2].
  split; [auto|]. intros c Hc. destruct (Hf1 c Hc) as [c' Hc']. eauto.
Qed.

Lemma keeps_all_after_post (w : World) : keeps_all w (after_post w).
Proof. split; [done|]. intros q. split; eauto. Qed.

Lemma keeps_all_wrote (p : Path) (content : pystr) (w : World) :
  node_at w p ≠ Some Dir → keeps_all w (wrote p content w).
Proof.
  intros Hp. split; [done|]. intros q.
  rewrite node_at_wrote by done.
  destruct (decide (q = p)) as [->|]; [|eauto].
  split; [done | eauto].
Qed.

Lemma keeps_all_only_new_dirs (w w' : World) :
  only_new_dirs w w' → keeps_all w w'.
Proof.
  intros Hframe. split; [apply Hframe|].
  intros q. split; [|intros c Hc; exists c];
    by apply (only_new_dirs_node w w').
Qed.

(** ** How far an attempt gets (lines 89-148) *)

Section attempt_trace.
Context (X : Externals) (text : pystr) (output_path : Path).
Context (voice_id api_key : pystr) (cached_audio cached_timing : Path).

Local Abbreviation body :=
  (attempt X text output_path voice_id api_key cached_audio cached_timing).

(** The text written to the timing files for the result [r]. *)
Local Abbreviation timing_text words alignment :=
  (json_dumps X (timing_data_of text (JArr (json_of_word <$> words))
                                alignment)).

(** The result of lines 140-147. *)
Local Abbreviation result_of words alignment :=
  (mkResult (path_str output_path) (JArr (json_of_word <$> words)) alignment
            (_calculate_cost text) (Z.of_nat (length text)) false).

(** An attempt stops after the request, after the audio file, after the
    timing file or after the cached audio, or it goes through: with the
    cache as it found it, or with the two cache files written last. *)
Inductive attempt_trace (w : World)
    : Result VoiceoverResult → World → Prop :=
| stops_after_request e :
    attempt_trace w (Err e) (after_post w)
| stops_after_audio e audio_bytes :
    node_at w output_path ≠ Some Dir →
    node_at w (parent output_path) = Some Dir →
    attempt_trace w (Err e) (wrote output_path audio_bytes (after_post w))
| stops_after_timing e audio_bytes words alignment timing_file :
    node_at w output_path ≠ Some Dir →
    node_at w (parent output_path) = Some Dir →
    with_suffix output_path (py ".timing.json") = Ok timing_file →
    let w1 := wrote output_path audio_bytes (after_post w) in
    node_at w1 timing_file ≠ Some Dir →
    let w2 := wrote timing_file (timing_text words alignment) w1 in
    node_at w2 cached_audio = None →
    node_at w2 (parent cached_audio) ≠ Some Dir →
    attempt_trace w (Err e) w2
| stops_after_cached_audio e audio_bytes words alignment timing_file :
    node_at w output_path ≠ Some Dir →
    node_at w (parent output_path) = Some Dir →
    with_suffix output_path (py ".timing.json") = Ok timing_file →
    let w1 := wrote output_path audio_bytes (after_post w) in
    node_at w1 timing_file ≠ Some Dir →
    let w2 := wrote timing_file (timing_text words alignment) w1 in
    node_at w2 cached_audio = None →
    node_at w2 (parent cached_audio) = Some Dir →
    let w3 := wrote cached_audio audio_bytes w2 in
    node_at w3 cached_timing = Some Dir
    ∨ node_at w3 (parent cached_timing) ≠ Some Dir →
    attempt_trace w (Err e) w3
| returns_with_cache_kept audio_bytes words alignment timing_file :
    node_at w output_path ≠ Some Dir →
    node_at w (parent output_path) = Some Dir →
    with_suffix output_path (py ".timing.json") = Ok timing_file →
    let w1 := wrote output_path audio_bytes (after_post w) in
    node_at w1 timing_file ≠ Some Dir →
    let w2 := wrote timing_file (timing_text words alignment) w1 in
    is_Some (node_at w2 cached_audio) →
    attempt_trace w (Ok (result_of words alignment)) w2
| returns_with_cache_written audio_bytes words alignment timing_file :
    node_at w output_path ≠ Some Dir →
    node_at w (parent output_path) = Some Dir →
    with_suffix output_path (py ".timing.json") = Ok timing_file →
    let w1 := wrote output_path audio_bytes (after_post w) in
    node_at w1 timing_file ≠ Some Dir →
    let w2 := wrote timing_file (timing_text words alignment) w1 in
    node_at w2 cached_audio = None →
    let w3 := wrote cached_audio audio_bytes w2 in
    node_at w3 cached_timing ≠ Some Dir →
    node_at w3 (parent cached_timing) = Some Dir →
    attempt_trace w (Ok (result_of words alignment))
                  (wrote cached_timing (timing_text words alignment) w3).

Lemma attempt_traced (w w' : World) (r : Result VoiceoverResult) :
  body w = (r, w') → attempt_trace w r w'.
Proof.
  unfold attempt. rewrite bind_run. unfold requests_post.
  destruct (http_post X (posts w) _) as [e|result];
    [intros [= <- <-]; constructor|].
  rewrite bind_run. unfold lift at 1.
  destruct (subscript result _) as [audio_base64|e];
    [|intros [= <- <-]; constructor].
  rewrite bind_run. unfold lift at 1.
  destruct (b64decode X audio_base64) as [audio_bytes|e];
    [|intros [= <- <-]; constructor].
  rewrite bind_run.
  destruct (write_file output_path audio_bytes (after_post w))
    as [r1 w1] eqn:Hw1.
  apply write_file_run in Hw1
    as [(-> & -> & Hout & Hpar)|(e & -> & -> & _)];
    [|intros [= <- <-]; constructor].
  change (node_at (after_post w)) with (node_at w) in Hout, Hpar.
  rewrite bind_run. unfold lift at 1.
  destruct (dict_get result _ _) as [alignment|e];
    [|intros [= <- <-]; by constructor].
  rewrite bind_run. unfold lift at 1.
  destruct (dict_get alignment _ _) as [characters|e];
    [|intros [= <- <-]; by constructor].
  rewrite bind_run. unfold lift at 1.
  destruct (dict_get alignment _ _) as [char_start_times|e];
    [|intros [= <- <-]; by constructor].
  rewrite bind_run. unfold lift at 1.
  destruct (dict_get alignment _ _) as [char_end_times|e];
    [|intros [= <- <-]; by constructor].
  rewrite bind_run. unfold lift at 1.
  destruct (call_extract_word_timings _ _ _) as [words|e];
    [|intros [= <- <-]; by constructor].
  cbv zeta. rewrite bind_run. unfold lift at 1.
  destruct (with_suffix output_path _) as [timing_file|e] eqn:Hsuffix;
    [|intros [= <- <-]; by constructor].
  rewrite bind_run.
  destruct (write_file timing_file _ _) as [r2 w2] eqn:Hw2.
  apply write_file_run in Hw2
    as [(-> & -> & Htf & Htfpar)|(e & -> & -> & _)];
    [|intros [= <- <-]; by constructor].
  rewrite bind_run. unfold path_exists at 1.
  destruct (node_at _ cached_audio) as [n|] eqn:Hcached.
  - rewrite bool_decide_eq_true_2 by eauto. rewrite bind_run.
    intros [= <- <-].
    apply (returns_with_cache_kept w audio_bytes words alignment timing_file);
      done.
  - rewrite bool_decide_eq_false_2 by (by intros [? ?]).
    rewrite !bind_run.
    destruct (write_file cached_audio _ _) as [r3 w3] eqn:Hw3.
    apply write_file_run in Hw3
      as [(-> & -> & Hca & Hcapar)|(e & -> & -> & [Hdir|Hnopar])].
    + destruct (write_file cached_timing _ _) as [r4 w4] eqn:Hw4.
      apply write_file_run in Hw4
        as [(-> & -> & Hct & Hctpar)|(e & -> & -> & Hfail)].
      * intros [= <- <-].
        by apply (returns_with_cache_written w audio_bytes words alignment
                    timing_file).
      * intros [= <- <-].
        by apply (stops_after_cached_audio w e audio_bytes words alignment
                    timing_file).
    + congruence.
    + intros [= <- <-].
      by apply (stops_after_timing w e audio_bytes words alignment
                  timing_file).
Qed.

End attempt_trace.

(** ** What an attempt and the loop keep *)

Section attempt_facts.
Context (X : Externals) (text : pystr) (output_path : Path).
Context (voice_id api_key : pystr) (cached_audio cached_timing : Path).

Local Abbreviation body :=
  (attempt X text output_path voice_id api_key cached_audio cached_timing).

Lemma attempt_keeps_all (w w' : World) (r : Result VoiceoverResult) :
  body w = (r, w') → keeps_all w w'.
Proof.
  intros Hbody%attempt_traced.
  pose proof (keeps_all_after_post w) as Hpost.
  destruct Hbody;
    repeat match goal with x := _ |- _ => subst x end;
    repeat match goal with
           | |- keeps_all _ (wrote _ _ _) =>
               eapply keeps_all_trans; [|apply keeps_all_wrote]
           end;
    first [ done | congruence ].
Qed.

Lemma retry_loop_keeps_all (retries : Z) (todo : nat) (last : option Exc)
    (w : World) :
  keeps_all w (retry_loop body retries todo last w).2.
Proof.
  revert last w. induction todo as [|todo IH]; intros last w.
  { apply keeps_all_refl. }
  destruct (body w) as [[r|e] w'] eqn:Hbody.
  - rewrite (retry_loop_return _ _ _ _ _ _ _ _ _ _ _ _ _ Hbody).
    by eapply attempt_keeps_all.
  - rewrite (retry_loop_raise _ _ _ _ _ _ _ _ _ _ _ _ _ Hbody).
    eapply keeps_all_trans; [by eapply attempt_keeps_all | apply IH].
Qed.

(** What the loop returns, an attempt returned. *)
Lemma retry_loop_Ok_attempt (retries : Z) (todo : nat) (last : option Exc)
    (w w' : World) (r : VoiceoverResult) :
  retry_loop body retries todo last w = (Ok r, w') →
  ∃ w0, keeps_all w w0 ∧ (posts w ≤ posts w0)%nat ∧ body w0 = (Ok r, w').
Proof.
  revert last w. induction todo as [|todo IH]; intros last w; [done|].
  destruct (body w) as [[r0|e] w1] eqn:Hbody.
  - rewrite (retry_loop_return _ _ _ _ _ _ _ _ _ _ _ _ _ Hbody).
    intros [= <- <-]. exists w. split; [apply keeps_all_refl | done].
  - rewrite (retry_loop_raise _ _ _ _ _ _ _ _ _ _ _ _ _ Hbody).
    intros (w0 & Hkeeps & Hposts & Hw0)%IH. exists w0.
    split; [|split; [|done]].
    + eapply keeps_all_trans; [by eapply attempt_keeps_all | done].
    + apply attempt_posts in Hbody. lia.
Qed.

End attempt_facts.

(** X14. A call loses nothing: whatever it returns or raises, the
    environment is as before, every directory is still a directory and
    every file is still a file (its content may be new). *)
Theorem nothing_is_lost (X : Externals) (text output_path voice_id : pystr)
    (retries : Z) (w : World) :
  keeps_all w (generate_voiceover X text output_path voice_id retries w).2.
Proof.
  unfold generate_voiceover. rewrite bind_run.
  destruct (prepare text output_path voice_id w) as [[p|e] w1] eqn:Hprep;
    apply prepare_frame, keeps_all_only_new_dirs in Hprep; [|done].
  rewrite bind_run, try_cache_run.
  destruct (if _ && _ then _ else _) as [r|]; [done|].
  eapply keeps_all_trans; [done|]. apply retry_loop_keeps_all.
Qed.

Section attempt_theorems.
Context (X : Externals) (text : pystr) (output_path : Path).
Context (voice_id api_key : pystr) (cached_audio cached_timing : Path).

Local Abbreviation body :=
  (attempt X text output_path voice_id api_key cached_audio cached_timing).

(** After an attempt that returns, the output file is there. *)
Lemma attempt_Ok_output (w w' : World) (r : VoiceoverResult) :
  body w = (Ok r, w') →
  audio_path r = path_str output_path ∧ from_cache r = false
  ∧ ∃ c, node_at w' output_path = Some (File c).
Proof.
  intros Hbody%attempt_traced. remember (Ok r) as res eqn:Hres.
  destruct Hbody; try discriminate Hres; injection Hres as <-;
    repeat match goal with x := _ |- _ => subst x end;
    (split; [done|]); (split; [done|]);
    rewrite !node_at_wrote by first [done | congruence];
    repeat case_decide; eauto; done.
Qed.

End attempt_theorems.

Lemma attempt_Ok_writes (X : Externals) (text : pystr)
    (output_path : Path) (voice_id api_key : pystr)
    (cached_audio cached_timing : Path) (w w' : World)
    (r : VoiceoverResult) :
  attempt X text output_path voice_id api_key cached_audio cached_timing w
    = (Ok r, w') →
  ∃ timing_file,
    with_suffix output_path (py ".timing.json") = Ok timing_file
    ∧ writes w'
      = writes w ++ [output_path; timing_file]
          ++ (if decide (is_Some (node_at w cached_audio)
                         ∨ cached_audio = output_path
                         ∨ cached_audio = timing_file)
              then [] else [cached_audio; cached_timing]).
Proof.
  intros Hbody%attempt_traced. remember (Ok r) as res eqn:Hres.
  destruct Hbody as [| | | |b ws al tf Hout Hpar Htf w1 Hw1 w2 Hca
                     |b ws al tf Hout Hpar Htf w1 Hw1 w2 Hca w3 Hct Hctpar];
    try discriminate Hres; injection Hres as <-;
    exists tf; (split; [done|]); subst w2 w1.
  - rewrite !node_at_wrote in Hca by done.
    rewrite decide_True.
    { cbn [writes wrote after_post]. by rewrite <- !app_assoc, app_nil_r. }
    repeat case_decide; auto.
  - rewrite !node_at_wrote in Hca by done.
    rewrite decide_False.
    { subst w3. cbn [writes wrote after_post]. by rewrite <- !app_assoc. }
    repeat case_decide; try done.
    change (node_at (after_post w)) with (node_at w) in Hca.
    intros [[n Hn]|[?|?]]; congruence.
Qed.

(** X15. An attempt that returns has written the output file and then its
    timing file, the output path with the suffix [.timing.json]; and after
    them the two cache files, unless the cached audio was there already
    (before the attempt, or as one of the two files just written). It
    writes nothing else. *)
Theorem successful_attempt_writes (X : Externals) (text : pystr)
    (output_path : Path) (voice_id api_key : pystr)
    (cached_audio cached_timing : Path) (w w' : World)
    (r : VoiceoverResult) :
  attempt X text output_path voice_id api_key cached_audio cached_timing w
    = (Ok r, w') →
  ∃ timing_file,
    with_suffix output_path (py ".timing.json") = Ok timing_file
    ∧ writes w'
      = writes w ++ [output_path; timing_file]
          ++ (if decide (is_Some (node_at w cached_audio)
                         ∨ cached_audio = output_path
                         ∨ cached_audio = timing_file)
              then [] else [cached_audio; cached_timing]).
Proof. apply attempt_Ok_writes. Qed.

Lemma successful_attempt_writes_witness :
  ∃ timing_file,
    with_suffix demo_output (py ".timing.json") = Ok timing_file
    ∧ writes demo_generated
      = writes Demo.fresh ++ [demo_output; timing_file]
          ++ (if decide (is_Some (node_at Demo.fresh Demo.cached_audio)
                         ∨ Demo.cached_audio = demo_output
                         ∨ Demo.cached_audio = timing_file)
              then [] else [Demo.cached_audio; Demo.cached_timing]).
Proof.
  apply (successful_attempt_writes
           (Demo.externals [Responds Demo.good_response]) Demo.text
           demo_output default_voice_id Demo.api_key Demo.cached_audio
           Demo.cached_timing Demo.fresh demo_generated demo_result).
  vm_compute; reflexivity.
Defined.



(** ** The path a call returns *)

Lemma read_cache_Ok (X : Externals) (text : pystr)
    (cached_audio cached_timing : Path) (w w' : World)
    (r : VoiceoverResult) :
  read_cache X text cached_audio cached_timing w = (Ok r, w') →
  audio_path r = path_str cached_audio ∧ from_cache r = true.
Proof.
  unfold read_cache. intros H.
  repeat (apply bind_Ok in H as (? & ? & _ & H)). cbv zeta in H.
  repeat (apply bind_Ok in H as (? & ? & _ & H)).
  by injection H as <- _.
Qed.

(** ** Making the output directory *)

Lemma parent_prefix (p : Path) : parent p `prefix_of` p.
Proof.
  unfold parent. destruct p as [|a [|b p]].
  - done.
  - destruct (is_anchor a); [done | apply prefix_nil].
  - exists [List.last (a :: b :: p) []]. by apply app_removelast_last.
Qed.

Lemma os_mkdir_other (p q : Path) (w w' : World) (r : Result unit) :
  os_mkdir p w = (r, w') → q ≠ p →
  files_lookup (fs w') q = files_lookup (fs w) q.
Proof.
  unfold os_mkdir. intros Hmk Hq.
  destruct (node_at w p); [by injection Hmk as _ <-|].
  destruct (node_at w (parent p)) as [[|]|]; injection Hmk as _ <-;
    [done | | done].
  cbn [fs files_insert files_lookup]. by rewrite decide_False.
Qed.

Lemma mkdir_exist_ok_other (p q : Path) (w w' : World) (r : Result unit) :
  mkdir_exist_ok p w = (r, w') → q ≠ p →
  files_lookup (fs w') q = files_lookup (fs w) q.
Proof.
  unfold mkdir_exist_ok, try_except. intros Hmk Hq.
  destruct (os_mkdir p w) as [[[]|e] w1] eqn:Hos;
    apply (os_mkdir_other p q) in Hos; try done.
  { by injection Hmk as _ <-. }
  destruct (is_FileNotFoundError e); [by injection Hmk as _ <-|].
  rewrite bind_run in Hmk. unfold is_dir in Hmk.
  destruct (match node_at w1 p with Some Dir => true | _ => false end);
    by injection Hmk as _ <-.
Qed.

(** [mkdir(parents=True)] touches the path and its ancestors only. *)
Lemma mkdir_parents_other (fuel : nat) (p q : Path) (w w' : World)
    (r : Result unit) :
  mkdir_parents fuel p w = (r, w') → ¬ q `prefix_of` p →
  files_lookup (fs w') q = files_lookup (fs w) q.
Proof.
  revert p w w' r. induction fuel as [|fuel IH]; intros p w w' r Hmk Hq;
    cbn [mkdir_parents] in Hmk; unfold try_except in Hmk;
    (assert (q ≠ p) as Hne by (by intros ->));
    destruct (os_mkdir p w) as [[[]|e] w1] eqn:Hos;
    apply (os_mkdir_other p q) in Hos; try done;
    try (by injection Hmk as _ <-).
  - destruct (is_FileNotFoundError e).
    + destruct (decide (parent p = p)); by injection Hmk as _ <-.
    + rewrite bind_run in Hmk. unfold is_dir in Hmk.
      destruct (match node_at w1 p with Some Dir => true | _ => false end);
        by injection Hmk as _ <-.
  - destruct (is_FileNotFoundError e).
    + destruct (decide (parent p = p)); [by injection Hmk as _ <-|].
      rewrite bind_run in Hmk.
      destruct (mkdir_parents fuel (parent p) w1) as [[[]|e'] w2] eqn:Hrec;
        apply IH in Hrec;
        try (intros Hpre; apply Hq; etrans; [done | apply parent_prefix]).
      * apply (mkdir_exist_ok_other p q) in Hmk; [congruence | done].
      * injection Hmk as _ <-. congruence.
    + rewrite bind_run in Hmk. unfold is_dir in Hmk.
      destruct (match node_at w1 p with Some Dir => true | _ => false end);
        by injection Hmk as _ <-.
Qed.

(** On a directory that exists [mkdir(parents=True, exist_ok=True)] does
    nothing. *)
Lemma mkdir_parents_existing (fuel : nat) (p : Path) (w : World) :
  node_at w p = Some Dir → mkdir_parents fuel p w = (Ok (), w).
Proof.
  intros Hp.
  assert (os_mkdir p w = (Err (FileExistsError p), w)) as Hos
    by (unfold os_mkdir; by rewrite Hp).
  destruct fuel; cbn [mkdir_parents]; unfold try_except; rewrite Hos;
    change (is_FileNotFoundError (FileExistsError p)) with false;
    cbv iota; rewrite bind_run; unfold is_dir; by rewrite Hp.
Qed.

(** ** The cache paths *)

Section cache_paths.
Context (dir : Path) (key : pystr).
Hypothesis Hlen : length key = 64%nat.
Hypothesis Hhex : forallb is_lower_hex key = true.

Lemma key_name_not_anchor (suffix : pystr) :
  is_anchor (key ++ suffix) = false.
Proof.
  destruct key as [|c k]; [done|]. cbn [app is_anchor].
  apply bool_decide_eq_false_2. intros ->. done.
Qed.

Lemma node_at_key_file (w : World) (suffix : pystr) :
  node_at w (dir ++ [key ++ suffix])
  = files_lookup (fs w) (dir ++ [key ++ suffix]).
Proof.
  unfold node_at. destruct dir as [|a [|b d]]; [|done..].
  cbn [app]. by rewrite key_name_not_anchor.
Qed.

Lemma parent_key_file (suffix : pystr) :
  parent (dir ++ [key ++ suffix]) = dir.
Proof.
  unfold parent. destruct dir as [|a [|b d]].
  - cbn [app]. by rewrite key_name_not_anchor.
  - done.
  - apply (removelast_last (a :: b :: d)).
Qed.

Lemma key_file_not_dir (suffix : pystr) : dir ++ [key ++ suffix] ≠ dir.
Proof.
  intros Heq%(f_equal length). rewrite length_app in Heq. cbn in Heq. lia.
Qed.

Lemma key_file_not_prefix (suffix : pystr) :
  ¬ (dir ++ [key ++ suffix]) `prefix_of` dir.
Proof.
  intros [k Hk]. apply (f_equal length) in Hk.
  rewrite !length_app in Hk. cbn in Hk. lia.
Qed.

Lemma cached_audio_not_timing :
  dir ++ [key ++ py ".mp3"] ≠ dir ++ [key ++ py ".timing.json"].
Proof.
  intros Heq%app_inv_head. injection Heq as Heq.
  apply app_inv_head in Heq. done.
Qed.

(** A timing file is never the cached audio. *)
Lemma timing_file_not_cached_audio (output timing_file : Path) :
  with_suffix output (py ".timing.json") = Ok timing_file →
  timing_file ≠ dir ++ [key ++ py ".mp3"].
Proof.
  unfold with_suffix. cbv zeta. destruct (negb _); [done|].
  intros [= <-] Heq. apply app_inj_tail in Heq as [_ Heq].
  apply (f_equal last) in Heq. rewrite !last_app in Heq. done.
Qed.

Lemma rfind_dot_none (s : pystr) :
  Forall (λ c, c ≠ 46%N) s → rfind_dot s = None.
Proof.
  induction 1 as [|c s Hc _ IH]; [done|].
  cbn [rfind_dot]. rewrite IH. by rewrite decide_False.
Qed.

Lemma rfind_dot_last (s ext : pystr) :
  Forall (λ c, c ≠ 46%N) ext →
  rfind_dot (s ++ 46%N :: ext) = Some (length s).
Proof.
  intros Hext. induction s as [|c s IH].
  - cbn [app rfind_dot length]. rewrite rfind_dot_none by done.
    by rewrite decide_True.
  - cbn [app rfind_dot length]. by rewrite IH.
Qed.

(** The timing file of the cached audio is the cached timing file. *)
Lemma with_suffix_cached_audio :
  with_suffix (dir ++ [key ++ py ".mp3"]) (py ".timing.json")
  = Ok (dir ++ [key ++ py ".timing.json"]).
Proof.
  unfold with_suffix. cbv zeta.
  assert (path_name (dir ++ [key ++ py ".mp3"]) = key ++ py ".mp3") as ->.
  { unfold path_name. destruct dir as [|a [|b d]].
    - cbn [app]. by rewrite key_name_not_anchor.
    - done.
    - by rewrite last_snoc. }
  assert (truthy (key ++ py ".mp3") = true) as ->
    by (by destruct key).
  cbn [negb].
  change (py ".mp3") with (46%N :: py "mp3").
  rewrite rfind_dot_last by (by repeat constructor).
  rewrite length_app, Hlen. cbn [length Nat.add Nat.sub Nat.ltb Nat.leb andb].
  rewrite take_app_length' by done.
  by rewrite removelast_last.
Qed.

End cache_paths.

(** ** Filling the cache *)

Section cache_filled.
Context (X : Externals) (text : pystr) (output_path : Path).
Context (voice_id api_key : pystr) (dir : Path) (key : pystr).
Hypothesis Hlen : length key = 64%nat.
Hypothesis Hhex : forallb is_lower_hex key = true.
Hypothesis Hdir : parent output_path = dir.

Local Abbreviation cached_audio := (dir ++ [key ++ py ".mp3"]).
Local Abbreviation cached_timing := (dir ++ [key ++ py ".timing.json"]).
Local Abbreviation body :=
  (attempt X text output_path voice_id api_key cached_audio cached_timing).

(** The cache can still be filled: nothing but the output file is in the
    place of the cached audio, and no directory in the place of the cached
    timing file. *)
Definition cache_open (w : World) : Prop :=
  node_at w cached_timing ≠ Some Dir
  ∧ (output_path ≠ cached_audio → node_at w cached_audio = None).

Lemma attempt_Err_cache_open (w w' : World) (e : Exc) :
  cache_open w → body w = (Err e, w') → cache_open w'.
Proof.
  intros [Hopen_ct Hopen_ca] Hbody%attempt_traced.
  remember (Err e) as res eqn:Hres.
  destruct Hbody
    as [e0|e0 b Hout Hpar
        |e0 b ws al tf Hout Hpar Htf w1 Hw1 w2 Hca Hcapar
        |e0 b ws al tf Hout Hpar Htf w1 Hw1 w2 Hca Hcapar w3 Hfail
        |b ws al tf Hout Hpar Htf w1 Hw1 w2 Hca
        |b ws al tf Hout Hpar Htf w1 Hw1 w2 Hca w3 Hct Hctpar];
    try discriminate Hres.
  - done.
  - split.
    + rewrite node_at_wrote by done. by case_decide.
    + intros Hne. rewrite node_at_wrote by done.
      rewrite decide_False by done. by apply Hopen_ca.
  - pose proof (timing_file_not_cached_audio dir key _ _ Htf) as Hne_tf.
    subst w2 w1. split.
    + rewrite !node_at_wrote by done. by repeat case_decide.
    + intros Hne. rewrite !node_at_wrote by done.
      rewrite !decide_False by done. by apply Hopen_ca.
  - exfalso.
    pose proof (timing_file_not_cached_audio dir key _ _ Htf) as Hne_tf.
    rewrite parent_key_file in Hfail, Hcapar by done.
    subst w3. rewrite !node_at_wrote in Hfail by congruence.
    rewrite (decide_False (P := cached_timing = cached_audio)) in Hfail
      by (by intros Heq%eq_sym%cached_audio_not_timing).
    rewrite (decide_False (P := dir = cached_audio)) in Hfail
      by (by intros Heq%eq_sym%key_file_not_dir).
    destruct Hfail as [Hfail|Hfail]; [|done].
    subst w2 w1. rewrite !node_at_wrote in Hfail by done.
    by repeat case_decide.
Qed.

Lemma attempt_Ok_cache_filled (w w' : World) (r : VoiceoverResult) :
  cache_open w → body w = (Ok r, w') →
  is_Some (node_at w' cached_audio)
  ∧ node_at w' cached_timing
    = Some (File (json_dumps X (timing_data_of text (word_timings r)
                                               (character_alignment r))))
  ∧ node_at w' dir = Some Dir.
Proof.
  intros [Hopen_ct Hopen_ca] Hbody.
  pose proof (attempt_keeps_all _ _ _ _ _ _ _ _ _ _ Hbody) as [_ Hkeeps].
  apply attempt_traced in Hbody.
  remember (Ok r) as res eqn:Hres.
  destruct Hbody
    as [e0|e0 b Hout Hpar
        |e0 b ws al tf Hout Hpar Htf w1 Hw1 w2 Hca Hcapar
        |e0 b ws al tf Hout Hpar Htf w1 Hw1 w2 Hca Hcapar w3 Hfail
        |b ws al tf Hout Hpar Htf w1 Hw1 w2 Hca
        |b ws al tf Hout Hpar Htf w1 Hw1 w2 Hca w3 Hct Hctpar];
    try discriminate Hres; injection Hres as <-;
    (split_and!; [| |apply Hkeeps; by rewrite <- Hdir]);
    pose proof (timing_file_not_cached_audio dir key _ _ Htf) as Hne_tf.
  - done.
  - (* the cached audio is the output file, its timing file the cached one *)
    cbn [word_timings character_alignment].
    destruct (decide (output_path = cached_audio)) as [Heq|Hne].
    + rewrite Heq, with_suffix_cached_audio in Htf by done.
      injection Htf as <-. subst w2. rewrite node_at_wrote by done.
      by rewrite decide_True.
    + exfalso. subst w2 w1. rewrite !node_at_wrote in Hca by done.
      rewrite !decide_False in Hca by done.
      change (node_at (after_post w)) with (node_at w) in Hca.
      rewrite (Hopen_ca Hne) in Hca. by destruct Hca.
  - subst w3. rewrite !node_at_wrote by congruence.
    rewrite decide_False by apply cached_audio_not_timing.
    rewrite decide_True by done. eauto.
  - cbn [word_timings character_alignment].
    rewrite node_at_wrote by done. by rewrite decide_True.
Qed.

Lemma retry_loop_cache_filled (retries : Z) (todo : nat)
    (last : option Exc) (w w' : World) (r : VoiceoverResult) :
  cache_open w →
  retry_loop body retries todo last w = (Ok r, w') →
  is_Some (node_at w' cached_audio)
  ∧ node_at w' cached_timing
    = Some (File (json_dumps X (timing_data_of text (word_timings r)
                                               (character_alignment r))))
  ∧ node_at w' dir = Some Dir.
Proof.
  revert last w. induction todo as [|todo IH]; intros last w Hopen; [done|].
  destruct (body w) as [[r0|e] w1] eqn:Hbody.
  - rewrite (retry_loop_return _ _ _ _ _ _ _ _ _ _ _ _ _ Hbody).
    intros [= <- <-]. by apply (attempt_Ok_cache_filled w).
  - rewrite (retry_loop_raise _ _ _ _ _ _ _ _ _ _ _ _ _ Hbody).
    apply IH. by eapply attempt_Err_cache_open.
Qed.

End cache_filled.

(** ** A second call *)

Lemma prepare_other (text output_path voice_id : pystr) (w w1 : World)
    (r : Result Prepared) (q : Path) :
  prepare text output_path voice_id w = (r, w1) →
  ¬ q `prefix_of` parent (Path_of_str output_path) →
  files_lookup (fs w1) q = files_lookup (fs w) q.
Proof.
  unfold prepare. cbv zeta. rewrite bind_run. intros Hprep Hq.
  destruct (mkdir_parents _ _ w) as [[[]|e] w0] eqn:Hmk;
    apply (mkdir_parents_other _ _ q) in Hmk; try done;
    [|by injection Hprep as _ <-].
  rewrite bind_run, resolve_api_key_value in Hprep.
  destruct (py_or _ _) as [[|c k]|]; try by injection Hprep as _ <-.
  rewrite bind_run in Hprep. unfold lift in Hprep.
  destruct (_get_cache_key text voice_id); by injection Hprep as _ <-.
Qed.

(** Lines 47-67 again, for an output in a directory that exists, under the
    same environment: the same key, the world as it is. *)
Lemma prepare_again (text output_path output_path' voice_id : pystr)
    (w w1 w' : World) (p : Prepared) (key : pystr) :
  prepare text output_path voice_id w = (Ok p, w1) →
  _get_cache_key text voice_id = Ok key →
  env w' = env w →
  node_at w' (parent (Path_of_str output_path')) = Some Dir →
  prepare text output_path' voice_id w'
  = (Ok (mkPrepared (Path_of_str output_path') (p_api_key p)
           (joinpath (parent (Path_of_str output_path')) (key ++ py ".mp3"))
           (joinpath (parent (Path_of_str output_path'))
                     (key ++ py ".timing.json"))), w').
Proof.
  intros Hprep Hkey Henv Hdir. revert Hprep. unfold prepare. cbv zeta.
  rewrite !bind_run.
  destruct (mkdir_parents _ _ w) as [[[]|e] w0] eqn:Hmk; [|done].
  apply mkdir_parents_frame in Hmk as (Henv0 & _).
  rewrite (mkdir_parents_existing _ _ w') by done.
  rewrite !bind_run, !resolve_api_key_value, Henv0, Henv.
  destruct (py_or _ _) as [[|c k]|]; [done | | done].
  rewrite !bind_run. unfold lift. rewrite Hkey.
  by intros [= <- _].
Qed.

(** X19. A call that generated the audio has filled the cache for the
    calls after it. When the cached audio was not there before the call and
    no directory was in the place of the cached timing file, and
    [json.loads] reads back what [json.dumps] wrote, then a second call for
    the same text and voice, with an output path in the same directory,
    returns the word timings and the alignment of the first from the cache:
    [from_cache] is set, [audio_path] is the cached audio, and the call
    sends no request and writes nothing, whatever its [retries]. *)
Theorem second_call_hits_cache (X : Externals)
    (text output_path output_path' voice_id key : pystr)
    (retries retries' : Z) (w w' : World) (r : VoiceoverResult) :
  generate_voiceover X text output_path voice_id retries w = (Ok r, w') →
  _get_cache_key text voice_id = Ok key →
  node_at w (parent (Path_of_str output_path) ++ [key ++ py ".mp3"]) = None →
  node_at w (parent (Path_of_str output_path) ++ [key ++ py ".timing.json"])
    ≠ Some Dir →
  parent (Path_of_str output_path') = parent (Path_of_str output_path) →
  json_loads X (json_dumps X (timing_data_of text (word_timings r)
                                             (character_alignment r)))
    = Ok (timing_data_of text (word_timings r) (character_alignment r)) →
  generate_voiceover X text output_path' voice_id retries' w'
  = (Ok (mkResult
           (path_str (parent (Path_of_str output_path)
                        ++ [key ++ py ".mp3"]))
           (word_timings r) (character_alignment r) (cost r)
           (character_count r) true), w').
Proof.
  intros Hgen Hkey Hca Hct Hparent Hjson.
  destruct (get_cache_key_shape _ _ _ Hkey) as [Hlen Hhex].
  destruct (generate_voiceover_cost _ _ _ _ _ _ _ _ Hgen) as [Hcost Hcount].
  unfold generate_voiceover in Hgen.
  apply bind_Ok in Hgen as (p & w1 & Hprep & Hgen).
  apply bind_Ok in Hgen as (hit & w2 & Hhit & Hgen).
  rewrite try_cache_run in Hhit.
  destruct (prepare_inv _ _ _ _ _ _ Hprep)
    as ((Henv1 & _) & Hout & _ & key' & Hkey' & Hpca & Hpct).
  assert (key' = key) as -> by congruence.
  rewrite joinpath_key in Hpca, Hpct by (done || by repeat constructor).
  set (dir := parent (Path_of_str output_path)) in *.
  (* the cache is open when the attempts begin *)
  assert (node_at w1 (dir ++ [key ++ py ".mp3"]) = None) as Hca1.
  { rewrite node_at_key_file in Hca |- * by done.
    rewrite (prepare_other _ _ _ _ _ _ _ Hprep); [done|].
    by apply key_file_not_prefix. }
  assert (node_at w1 (dir ++ [key ++ py ".timing.json"]) ≠ Some Dir) as Hct1.
  { rewrite node_at_key_file in Hct |- * by done.
    rewrite (prepare_other _ _ _ _ _ _ _ Hprep); [done|].
    by apply key_file_not_prefix. }
  rewrite Hpca, Hca1 in Hhit.
  rewrite bool_decide_eq_false_2 in Hhit by (by intros [? ?]).
  injection Hhit as <- <-.
  unfold synthesize in Hgen. rewrite Hpca, Hpct, Hout in Hgen.
  pose proof (retry_loop_keeps_all X text (Path_of_str output_path) voice_id
                (p_api_key p) (dir ++ [key ++ py ".mp3"])
                (dir ++ [key ++ py ".timing.json"]) retries
                (Z.to_nat retries) None w1) as [Henv2 _].
  rewrite Hgen in Henv2. cbn [snd] in Henv2.
  apply (retry_loop_cache_filled X text (Path_of_str output_path) voice_id
           (p_api_key p) dir key Hlen Hhex eq_refl) in Hgen
    as ([audio Haudio] & Htiming & Hdir); [|by split].
  (* the second call *)
  unfold generate_voiceover.
  rewrite bind_run,
    (prepare_again text output_path output_path' voice_id w w1 w' p key)
    by (done || congruence).
  rewrite Hparent. fold dir.
  rewrite !joinpath_key by (done || by repeat constructor).
  cbn [p_cached_audio p_cached_timing].
  rewrite bind_run, try_cache_run, Haudio, Htiming.
  rewrite !bool_decide_eq_true_2 by eauto. cbn [andb].
  rewrite (read_cache_hit X text _ _ w' _ _ Htiming Hjson).
  by rewrite Hcost, Hcount.
Qed.

Lemma second_call_hits_cache_witness :
  generate_voiceover (reading_externals [Responds Demo.good_response])
                     Demo.text (py "/outputs/job/again.mp3")
                     default_voice_id 0 demo_generated
  = (Ok (mkResult
           (path_str (parent (Path_of_str Demo.output_path)
                        ++ [Demo.key ++ py ".mp3"]))
           (word_timings demo_result) (character_alignment demo_result)
           (cost demo_result) (character_count demo_result) true),
     demo_generated).
Proof.
  apply (second_call_hits_cache
           (reading_externals [Responds Demo.good_response]) Demo.text
           Demo.output_path (py "/outputs/job/again.mp3") default_voice_id
           Demo.key 3 0 Demo.fresh demo_generated demo_result);
    first [ vm_compute; reflexivity | by vm_compute ].
Defined.

(** ** What [from_cache] tells *)

(** A result from the cache comes with no request and no write. *)
Lemma generate_voiceover_from_cache (X : Externals)
    (text output_path voice_id : pystr) (retries : Z) (w w' : World)
    (r : VoiceoverResult) :
  generate_voiceover X text output_path voice_id retries w = (Ok r, w') →
  from_cache r = true → only_new_dirs w w'.
Proof.
  unfold generate_voiceover. intros H Hfrom.
  apply bind_Ok in H as (p & w1 & Hprep & H).
  apply bind_Ok in H as (hit & w2 & Hhit & H).
  rewrite try_cache_run in Hhit. injection Hhit as _ <-.
  apply prepare_frame in Hprep.
  destruct hit as [r0|]; [by injection H as _ <-|].
  unfold synthesize in H. apply retry_loop_cost in H as (_ & _ & Hf & _).
  congruence.
Qed.

(** A result not from the cache comes with a request and with the output
    file written. *)
Lemma generate_voiceover_generated (X : Externals)
    (text output_path voice_id : pystr) (retries : Z) (w w' : World)
    (r : VoiceoverResult) :
  generate_voiceover X text output_path voice_id retries w = (Ok r, w') →
  from_cache r = false →
  (posts w < posts w')%nat ∧ Path_of_str output_path ∈ writes w'.
Proof.
  unfold generate_voiceover. intros H Hfrom.
  apply bind_Ok in H as (p & w1 & Hprep & H).
  apply bind_Ok in H as (hit & w2 & Hhit & H).
  rewrite try_cache_run in Hhit.
  destruct (prepare_inv _ _ _ _ _ _ Hprep) as ((_ & Hposts & _) & Hout & _).
  destruct hit as [r0|].
  { injection H as -> _. destruct (_ && _); [|done].
    destruct (read_cache X text _ _ w1) as [[r1|e] w3] eqn:Hread; [|done].
    injection Hhit as -> _. apply read_cache_Ok in Hread as [_ Hf].
    congruence. }
  injection Hhit as _ <-. unfold synthesize in H.
  apply retry_loop_Ok_attempt in H as (w0 & _ & Hposts0 & Hbody).
  pose proof (attempt_posts _ _ _ _ _ _ _ _ _ _ Hbody) as Hposts'.
  apply attempt_Ok_writes in Hbody as (tf & _ & Hwrites).
  split; [lia|]. rewrite Hwrites, <- Hout. set_solver.
Qed.

(** X20. [from_cache] tells what the call did. A result marked as from the
    cache came with no request and no file written; a result not so marked
    came with a request sent and the output file written. *)
Theorem from_cache_is_faithful (X : Externals)
    (text output_path voice_id : pystr) (retries : Z) (w w' : World)
    (r : VoiceoverResult) :
  generate_voiceover X text output_path voice_id retries w = (Ok r, w') →
  if from_cache r
  then posts w' = posts w ∧ writes w' = writes w
  else (posts w < posts w')%nat ∧ Path_of_str output_path ∈ writes w'.
Proof.
  intros Hgen. destruct (from_cache r) eqn:Hfrom.
  - by apply generate_voiceover_from_cache in Hgen as (_ & ? & ? & _).
  - by apply generate_voiceover_generated in Hgen.
Qed.

Lemma from_cache_is_faithful_witness :
  (posts Demo.fresh < posts demo_generated)%nat
  ∧ Path_of_str Demo.output_path ∈ writes demo_generated.
Proof.
  apply (from_cache_is_faithful
           (Demo.externals [Responds Demo.good_response]) Demo.text
           Demo.output_path default_voice_id 3 Demo.fresh demo_generated
           demo_result).
  vm_compute; reflexivity.
Defined.

(** * The legacy service *)

Section legacy.
Context (X : Externals) (self : Service) (text : pystr).
Context (cache_dir path : option pystr).

(** The call is the directory made, the file name chosen, and then
    [generate_voiceover] with three attempts. *)
Lemma generate_from_text_Ok (w w' : World) (res : LegacyResult) :
  generate_from_text X self text cache_dir path w = (Ok res, w') →
  ∃ w0 audio_filename output_path result,
    only_new_dirs w w0
    ∧ (∀ p, path = Some p → audio_filename = p)
    ∧ generate_voiceover X text output_path (self_voice_id self) 3 w0
      = (Ok result, w')
    ∧ res = mkLegacyResult text (input_data_of self text) audio_filename
              (word_timings result) (character_alignment result)
              (py "elevenlabs_timed") (cost result) (character_count result)
              (from_cache result).
Proof.
  unfold generate_from_text. cbv zeta. intros H.
  apply bind_Ok in H as ([] & w0 & Hmk%mkdir_parents_frame & H).
  apply bind_Ok in H as (audio_filename & w1 & Hname & H).
  apply bind_Ok in H as (result & w2 & Hgen & H).
  injection H as <- <-.
  assert (w1 = w0 ∧ ∀ p, path = Some p → audio_filename = p) as [-> Hpath].
  { destruct path as [p|].
    - injection Hname as <- <-. split; [done|]. by intros ? [= <-].
    - apply bind_Ok in Hname as (hash_key & w3 & [_ ->]%lift_Ok & Hname).
      injection Hname as _ <-. done. }
  eauto 10.
Qed.

(** Whatever comes of the call, its requests are those of
    [generate_voiceover] with three attempts. *)
Lemma generate_from_text_posts (w : World) :
  (posts w
   ≤ posts (generate_from_text X self text cache_dir path w).2
   ≤ posts w + 3)%nat.
Proof.
  unfold generate_from_text. cbv zeta. rewrite bind_run.
  destruct (mkdir_parents _ _ w) as [[[]|e] w0] eqn:Hmk;
    apply mkdir_parents_frame in Hmk as (_ & Hposts & _); [|cbn; lia].
  rewrite bind_run.
  match goal with
  | |- context [match ?m w0 with _ => _ end] =>
      assert (∃ r, m w0 = (r, w0)) as [[audio_filename|e] ->]
  end.
  { destruct path as [p|]; [by eexists|].
    rewrite bind_run. unfold lift.
    destruct (get_data_hash _); by eexists. }
  2: { cbn; lia. }
  rewrite bind_run.
  match goal with
  | |- context [generate_voiceover X text ?out ?v 3 w0] =>
      pose proof (generate_voiceover_posts X text out v 3 w0) as Hgen;
      destruct (generate_voiceover X text out v 3 w0) as [[result|e] w1]
  end; unfold mret, M_ret; cbn [snd] in *;
    change (Z.to_nat 3) with 3%nat in Hgen; lia.
Qed.

End legacy.

(** X21. The legacy service cannot generate with the key it was made with:
    [generate_from_text] does not pass [self.api_key] on. With none of the
    four variables of lines 52-55 set to a key, the call raises, whatever
    the key of the service; it sends no request and writes no file. *)
Theorem legacy_needs_key_in_environment (X : Externals) (self : Service)
    (text : pystr) (cache_dir path : option pystr) (w : World) :
  Forall (λ name, env w !! name = None ∨ env w !! name = Some [])
         api_key_names →
  ∃ e w',
    generate_from_text X self text cache_dir path w = (Err e, w')
    ∧ posts w' = posts w ∧ writes w' = writes w.
Proof.
  intros Hkeys.
  destruct (generate_from_text X self text cache_dir path w)
    as [[res|e] w'] eqn:Hrun.
  - exfalso.
    apply generate_from_text_Ok
      in Hrun as (w0 & name & out & result & (Henv & _) & _ & Hgen & _).
    rewrite <- Henv in Hkeys.
    destruct (prepare_no_key text out (self_voice_id self) w0 Hkeys)
      as (e & w1 & Hprep).
    unfold generate_voiceover in Hgen. rewrite bind_run, Hprep in Hgen.
    done.
  - exists e, w'. split; [done|].
    revert Hrun. unfold generate_from_text. cbv zeta. rewrite bind_run.
    destruct (mkdir_parents _ _ w) as [[[]|e0] w0] eqn:Hmk;
      apply mkdir_parents_frame in Hmk as (Henv & Hposts & Hwrites & _);
      [|by intros [= _ <-]].
    rewrite bind_run.
    match goal with
    | |- context [match ?m w0 with _ => _ end] =>
        assert (∃ r, m w0 = (r, w0)) as [[audio_filename|e1] ->]
    end.
    { destruct path as [p|]; [by eexists|].
      rewrite bind_run. unfold lift.
      destruct (get_data_hash _); by eexists. }
    2: { by intros [= _ <-]. }
    rewrite bind_run. unfold generate_voiceover. rewrite bind_run.
    rewrite <- Henv in Hkeys.
    match goal with
    | |- context [prepare text ?out ?v w0] =>
        destruct (prepare_no_key text out v w0 Hkeys) as (e2 & w1 & Hprep);
        rewrite Hprep;
        apply prepare_frame in Hprep as (_ & Hposts1 & Hwrites1 & _)
    end.
    intros [= _ <-]. split; congruence.
Qed.

Lemma legacy_needs_key_in_environment_witness :
  ∃ e w',
    generate_from_text (Demo.externals [Responds Demo.good_response])
                       demo_service Demo.text None None empty_key_world
      = (Err e, w')
    ∧ posts w' = posts empty_key_world
    ∧ writes w' = writes empty_key_world.
Proof.
  apply (legacy_needs_key_in_environment
           (Demo.externals [Responds Demo.good_response]) demo_service
           Demo.text None None empty_key_world).
  repeat constructor;
    first [ right; vm_compute; reflexivity | left; vm_compute; reflexivity ].
Defined.

(** X22. When the legacy call returns a result from the cache, it has sent
    no request, written nothing and added no file; yet [original_audio] is
    the [path] it was given, a file name that the call has not made to
    exist. *)
Theorem legacy_cache_hit_writes_nothing (X : Externals) (self : Service)
    (text : pystr) (cache_dir : option pystr) (path : pystr)
    (w w' : World) (res : LegacyResult) :
  generate_from_text X self text cache_dir (Some path) w = (Ok res, w') →
  legacy_from_cache res = true →
  original_audio res = path
  ∧ posts w' = posts w
  ∧ writes w' = writes w
  ∧ ∀ q c, files_lookup (fs w') q = Some (File c) →
           files_lookup (fs w) q = Some (File c).
Proof.
  intros Hrun Hfrom.
  apply generate_from_text_Ok
    in Hrun as (w0 & name & out & result & Hframe0 & Hname & Hgen & ->).
  cbn [legacy_from_cache original_audio] in *.
  apply generate_voiceover_from_cache in Hgen; [|done].
  pose proof (only_new_dirs_trans _ _ _ Hframe0 Hgen)
    as Hframe.
  split; [by apply Hname|].
  pose proof Hframe as (_ & Hposts & Hwrites & _).
  split_and!; [done | done |].
  intros q c. by apply only_new_dirs_file.
Qed.

Lemma legacy_cache_hit_writes_nothing_witness :
  original_audio
    (mkLegacyResult Demo.text (input_data_of demo_service Demo.text)
       (py "narration.mp3") (word_timings demo_result)
       (character_alignment demo_result) (py "elevenlabs_timed")
       (cost demo_result) (character_count demo_result) true)
  = py "narration.mp3"
  ∧ posts demo_generated = posts demo_generated
  ∧ writes demo_generated = writes demo_generated
  ∧ ∀ q c, files_lookup (fs demo_generated) q = Some (File c) →
           files_lookup (fs demo_generated) q = Some (File c).
Proof.
  apply (legacy_cache_hit_writes_nothing
           (reading_externals []) demo_service Demo.text None
           (py "narration.mp3") demo_generated demo_generated
           (mkLegacyResult Demo.text (input_data_of demo_service Demo.text)
              (py "narration.mp3") (word_timings demo_result)
              (character_alignment demo_result) (py "elevenlabs_timed")
              (cost demo_result) (character_count demo_result) true)).
  - vm_compute; reflexivity.
  - reflexivity.
Defined.

(** X23. A legacy call sends at most three requests, whatever comes of
    it: it asks [generate_voiceover] for three attempts. *)
Theorem legacy_requests_bounded (X : Externals) (self : Service)
    (text : pystr) (cache_dir path : option pystr) (w : World) :
  (posts w
   ≤ posts (generate_from_text X self text cache_dir path w).2
   ≤ posts w + 3)%nat.
Proof. apply generate_from_text_posts. Qed.

Lemma init_api_key_value (api_key : option pystr) (w : World) :
  init_api_key api_key w
  = match py_or (py_or (py_or api_key (env w !! "ELEVENLABS_API_KEY"%string))
                       (env w !! "elevenlabs_key"%string))
                (env w !! "ELEVENLABS_KEY"%string) with
    | Some ((_ :: _) as k) => (Ok k, w)
    | _ => (Err ServiceKeyRequired, w)
    end.
Proof.
  unfold init_api_key, getenv, mbind, M_bind. cbv beta iota.
  by destruct (py_or _ _) as [[|c k]|].
Qed.

(** X24. A service made without a key of its own holds the key that its
    calls use: what [__init__] takes from the environment for
    [self.api_key] is what [generate_voiceover] takes from it. *)
Theorem service_key_is_call_key (text output_path voice_id : pystr)
    (w w0 w1 : World) (k : pystr) (p : Prepared) :
  init_api_key None w = (Ok k, w0) →
  prepare text output_path voice_id w = (Ok p, w1) →
  p_api_key p = k.
Proof.
  rewrite init_api_key_value. unfold prepare. cbv zeta.
  intros Hinit. rewrite bind_run.
  destruct (mkdir_parents _ _ w) as [[[]|e] w2] eqn:Hmk; [|done].
  apply mkdir_parents_frame in Hmk as (Henv & _).
  rewrite bind_run, resolve_api_key_value, Henv.
  revert Hinit.
  destruct (env w !! "ELEVENLABS_API_KEY"%string) as [[|c1 k1]|],
    (env w !! "elevenlabs_key"%string) as [[|c2 k2]|],
    (env w !! "ELEVENLABS_KEY"%string) as [[|c3 k3]|];
    cbn [py_or]; try done;
    intros [= <- _]; rewrite bind_run; unfold lift;
    destruct (_get_cache_key text voice_id); try done;
    by intros [= <- _].
Qed.

Lemma service_key_is_call_key_witness :
  p_api_key (mkPrepared demo_output (py "sk_third") Demo.cached_audio
                        Demo.cached_timing)
  = py "sk_third".
Proof.
  apply (service_key_is_call_key Demo.text Demo.output_path default_voice_id
           three_keys_world three_keys_world three_keys_world).
  - vm_compute; reflexivity.
  - vm_compute; reflexivity.
Defined.

(** * The claims on the whole call, with what is printed *)

From Stdlib Require Import Floats.SpecFloat Floats.FloatOps Floats.FloatAxioms.

(** ** The cache files before and after lines 47-67 *)

(** Making the output directory leaves the two cache paths as they are. *)
Lemma prepare_cache_nodes (text output_path voice_id : pystr) (w w1 : World)
    (p : Prepared) :
  prepare text output_path voice_id w = (Ok p, w1) →
  node_at w1 (p_cached_audio p) = node_at w (p_cached_audio p)
  ∧ node_at w1 (p_cached_timing p) = node_at w (p_cached_timing p).
Proof.
  intros Hprep.
  destruct (prepare_inv _ _ _ _ _ _ Hprep)
    as (_ & _ & _ & key & Hkey & -> & ->).
  destruct (get_cache_key_shape _ _ _ Hkey) as [Hlen Hhex].
  rewrite !joinpath_key by (done || by repeat constructor).
  rewrite !node_at_key_file by done.
  split; apply (prepare_other _ _ _ _ _ _ _ Hprep);
    by apply key_file_not_prefix.
Qed.

(** C3, as the code has it. With [retries = 3], a cache file absent, and
    each of the three requests failing in transport, the function makes
    exactly three requests and then raises the exception of line 157. That
    exception is a plain [Exception], the one the function raises whatever
    made its attempts fail, and not a transport error; the last of the
    three errors is in it as text only: the message names 3 attempts and
    ends with [str] of that error. Nothing is written. What lines 89 and
    152 print, the first 50 characters of the text and the three errors,
    is taken to be printable. *)
Theorem three_failed_attempts_exhaust (X : Externals)
    (text output_path voice_id : pystr) (w w1 : World) (p : Prepared)
    (e1 e2 e3 : Exc) :
  prepare text output_path voice_id w = (Ok p, w1) →
  node_at w (p_cached_audio p) = None
  ∨ node_at w (p_cached_timing p) = None →
  http_post X (posts w) (make_request text voice_id (p_api_key p))
    = Raises e1 →
  http_post X (1 + posts w) (make_request text voice_id (p_api_key p))
    = Raises e2 →
  http_post X (2 + posts w) (make_request text voice_id (p_api_key p))
    = Raises e3 →
  printable (take 50 text) →
  printable (exc_str e1) → printable (exc_str e2) → printable (exc_str e3) →
  generate_voiceover X text output_path voice_id 3 w
    = (Err (GenerationFailed 3 (Some e3)),
       after_post (after_post (after_post w1)))
  ∧ posts (after_post (after_post (after_post w1))) = (3 + posts w)%nat
  ∧ writes (after_post (after_post (after_post w1))) = writes w
  ∧ exc_type (GenerationFailed 3 (Some e3)) = "Exception"%string
  ∧ exc_str (GenerationFailed 3 (Some e3))
    = py "Failed to generate voiceover after 3 attempts: " ++ exc_str e3.
Proof.
  intros Hprep Habsent H1 H2 H3 _ _ _ _.
  destruct (prepare_inv _ _ _ _ _ _ Hprep) as ((_ & Hposts & Hwrites & _) & _).
  destruct (prepare_cache_nodes _ _ _ _ _ _ Hprep) as [Hca Hct].
  rewrite <- Hposts in H1, H2, H3.
  split; [|split_and!; [cbn; lia | done | done | done]].
  rewrite (generate_voiceover_prepared _ _ _ _ _ _ _ _ Hprep).
  assert (bool_decide (is_Some (node_at w1 (p_cached_audio p)))
          && bool_decide (is_Some (node_at w1 (p_cached_timing p)))
          = false) as ->.
  { rewrite Hca, Hct.
    destruct Habsent as [-> | ->];
      rewrite (bool_decide_eq_false_2 (is_Some None)) by (by intros [? ?]);
      [done | apply andb_false_r]. }
  unfold synthesize. change (Z.to_nat 3) with 3%nat.
  rewrite (retry_loop_raise _ _ _ _ _ _ _ _ _ _ _ _ _
             (attempt_transport_error _ _ _ _ _ _ _ _ _ H1)).
  rewrite (retry_loop_raise _ _ _ _ _ _ _ _ _ _ _ _ _
             (attempt_transport_error _ _ _ _ _ _ _ (after_post w1) _ H2)).
  rewrite (retry_loop_raise _ _ _ _ _ _ _ _ _ _ _ _ _
             (attempt_transport_error _ _ _ _ _ _ _
                (after_post (after_post w1)) _ H3)).
  reflexivity.
Qed.

Lemma three_failed_attempts_exhaust_witness :
  generate_voiceover (Demo.externals []) Demo.text Demo.output_path
                     default_voice_id 3 Demo.fresh
    = (Err (GenerationFailed 3 (Some (Demo.refused 2))),
       after_post (after_post (after_post Demo.fresh)))
  ∧ posts (after_post (after_post (after_post Demo.fresh)))
    = (3 + posts Demo.fresh)%nat
  ∧ writes (after_post (after_post (after_post Demo.fresh)))
    = writes Demo.fresh
  ∧ exc_type (GenerationFailed 3 (Some (Demo.refused 2)))
    = "Exception"%string
  ∧ exc_str (GenerationFailed 3 (Some (Demo.refused 2)))
    = py "Failed to generate voiceover after 3 attempts: "
        ++ exc_str (Demo.refused 2).
Proof.
  apply (three_failed_attempts_exhaust (Demo.externals []) Demo.text
           Demo.output_path default_voice_id Demo.fresh Demo.fresh
           (mkPrepared (Demo.job_dir ++ [py "section_1.mp3"]) Demo.api_key
                       Demo.cached_audio Demo.cached_timing)
           (Demo.refused 0) (Demo.refused 1) (Demo.refused 2));
    first [ vm_compute; reflexivity
          | left; vm_compute; reflexivity
          | eexists; vm_compute; reflexivity ].
Defined.

(** C3, as the spec words it, fails: every attempt is refused with a
    [ConnectionError], and what the function raises after the three of them
    is not a transport error but a plain [Exception], as it is when the
    three attempts fail for a response without audio. *)
Lemma exhausted_retries_raise_plain_exception :
  raised (generate_voiceover (Demo.externals []) Demo.text Demo.output_path
                             default_voice_id 3 Demo.fresh)
    = Some (GenerationFailed 3 (Some (Demo.refused 2)))
  ∧ exc_type (Demo.refused 2) = "ConnectionError"%string
  ∧ exc_type (GenerationFailed 3 (Some (Demo.refused 2)))
    = "Exception"%string
  ∧ exc_type <$>
      raised (generate_voiceover
                (Demo.externals [ Responds Demo.no_audio_response;
                                  Responds Demo.no_audio_response;
                                  Responds Demo.no_audio_response ])
                Demo.text Demo.output_path default_voice_id 3 Demo.fresh)
    = Some "Exception"%string.
Proof. split_and!; vm_compute; reflexivity. Qed.

(** C6. The cost is [len(text) * 0.0003] in binary64: the product, rounded
    as IEEE 754 rounds it, of the length as a float and of the double that
    the literal [0.0003] denotes, [0x13a92a30553261 * 2^-64], the double
    nearest to 3/10000. The empty text costs zero, one character costs the
    rate, and the eight characters of ["hi there"] cost what Python
    computes. The result the function returns, from the cache or from an
    attempt, has that cost and [len(text)] as its character count. *)
Theorem voiceover_cost_is_linear (text : pystr) :
  _calculate_cost text
    = PrimFloat.mul
        (PrimFloat.of_uint63 (Uint63.of_Z (Z.of_nat (length text))))
        0x1.3a92a30553261p-12%float
  ∧ (Z.of_nat (length text) < 2 ^ 63 →
     Prim2SF (_calculate_cost text)
     = SFmul prec emax
         (binary_normalize prec emax (Z.of_nat (length text)) 0 false)
         (S754_finite false 0x13a92a30553261 (-64)))
  ∧ 2 * Z.abs (10000 * 0x13a92a30553261 - 3 * 2 ^ 64) ≤ 10000
  ∧ _calculate_cost [] = 0%float
  ∧ (∀ c, _calculate_cost [c] = 0x1.3a92a30553261p-12%float)
  ∧ _calculate_cost (py "hi there") = 0x1.3a92a30553261p-9%float
  ∧ ∀ (X : Externals) (output_path voice_id : pystr) (retries : Z)
      (w w' : World) (r : VoiceoverResult),
      generate_voiceover X text output_path voice_id retries w = (Ok r, w') →
      cost r = _calculate_cost text
      ∧ character_count r = Z.of_nat (length text)
      ∧ (text = [] → cost r = 0%float ∧ character_count r = 0).
Proof.
  split; [reflexivity|]. split.
  { intros Hlen. unfold _calculate_cost, float_of_len.
    rewrite mul_spec, of_uint63_spec, Uint63.of_Z_spec.
    rewrite Z.mod_small by (change Uint63.wB with (2 ^ 63); lia).
    reflexivity. }
  split; [by vm_compute|]. split; [reflexivity|].
  split; [intros c; reflexivity|]. split; [vm_compute; reflexivity|].
  intros X output_path voice_id retries w w' r Hrun.
  apply generate_voiceover_cost in Hrun as [Hcost Hcount].
  split_and!; [done | done |]. intros ->. by rewrite Hcost, Hcount.
Qed.

Lemma voiceover_cost_is_linear_witness :
  Prim2SF (_calculate_cost Demo.text)
    = SFmul prec emax (binary_normalize prec emax 8 0 false)
            (S754_finite false 0x13a92a30553261 (-64))
  ∧ _calculate_cost Demo.text = 0x1.3a92a30553261p-9%float
  ∧ cost <$>
      returned (generate_voiceover
                  (Demo.externals [Responds Demo.good_response]) Demo.text
                  Demo.output_path default_voice_id 3 Demo.fresh)
    = Some 0x1.3a92a30553261p-9%float.
Proof.
  destruct (voiceover_cost_is_linear Demo.text)
    as (_ & Hspec & _ & _ & _ & Hvalue & Hrun).
  split; [apply Hspec; by vm_compute|]. split; [exact Hvalue|].
  destruct (generate_voiceover
              (Demo.externals [Responds Demo.good_response]) Demo.text
              Demo.output_path default_voice_id 3 Demo.fresh)
    as [[r|e] w'] eqn:Hgen; [|by vm_compute in Hgen].
  apply Hrun in Hgen as (Hr & _).
  unfold returned. cbn [fst fmap option_fmap option_map].
  rewrite Hr. exact (f_equal Some Hvalue).
Defined.




(** C10, as the code has it. When both cache files exist and the timing
    file parses to a JSON object, the function returns the cached entry: the
    [audio_path] is the path of the cached audio, [parent / (key + ".mp3")],
    with [from_cache] set; it writes no file and makes no request, and no
    file exists afterwards that did not exist before. What line 70 prints,
    the first 50 characters of the text, is taken to be printable. *)
Theorem cache_hit_writes_nothing (X : Externals)
    (text output_path voice_id : pystr) (retries : Z) (w w1 : World)
    (p : Prepared) (content : pystr) (items : list (pystr * Json)) :
  prepare text output_path voice_id w = (Ok p, w1) →
  is_Some (node_at w (p_cached_audio p)) →
  node_at w (p_cached_timing p) = Some (File content) →
  json_loads X content = Ok (JObj items) →
  printable (take 50 text) →
  generate_voiceover X text output_path voice_id retries w
    = (Ok (mkResult (path_str (p_cached_audio p))
                    (default (JArr []) (assoc (py "word_timings") items))
                    (default (JObj [])
                             (assoc (py "character_alignment") items))
                    (_calculate_cost text) (Z.of_nat (length text)) true),
       w1)
  ∧ (∃ cache_key,
       _get_cache_key text voice_id = Ok cache_key
       ∧ p_cached_audio p
         = joinpath (parent (Path_of_str output_path))
                    (cache_key ++ py ".mp3"))
  ∧ writes w1 = writes w
  ∧ posts w1 = posts w
  ∧ ∀ q c, files_lookup (fs w1) q = Some (File c) →
           files_lookup (fs w) q = Some (File c).
Proof.
  intros Hprep [audio Haudio] Htiming Hjson _.
  destruct (prepare_inv _ _ _ _ _ _ Hprep)
    as (Hframe & _ & _ & key & Hkey & Hca & _).
  split; [|split; [eauto|]].
  - rewrite (generate_voiceover_prepared _ _ _ _ _ _ _ _ Hprep).
    rewrite (only_new_dirs_node _ _ _ _ Hframe Haudio).
    rewrite (only_new_dirs_node _ _ _ _ Hframe Htiming).
    rewrite !bool_decide_eq_true_2 by eauto. cbn [andb].
    rewrite (read_cache_hit X text _ _ w1 content items);
      [done | by eapply only_new_dirs_node | done].
  - pose proof Hframe as (_ & Hposts & Hwrites & _).
    split; [done|]. split; [done|]. intros q c.
    by apply only_new_dirs_file.
Qed.

Lemma cache_hit_writes_nothing_witness :
  generate_voiceover (Demo.externals []) Demo.text Demo.output_path
                     default_voice_id 3 (Demo.cached (py "{}"))
    = (Ok (mkResult (path_str Demo.cached_audio)
                    (default (JArr []) (assoc (py "word_timings") []))
                    (default (JObj []) (assoc (py "character_alignment") []))
                    (_calculate_cost Demo.text)
                    (Z.of_nat (length Demo.text)) true),
       Demo.cached (py "{}"))
  ∧ (∃ cache_key,
       _get_cache_key Demo.text default_voice_id = Ok cache_key
       ∧ Demo.cached_audio
         = joinpath (parent (Path_of_str Demo.output_path))
                    (cache_key ++ py ".mp3"))
  ∧ writes (Demo.cached (py "{}")) = writes (Demo.cached (py "{}"))
  ∧ posts (Demo.cached (py "{}")) = posts (Demo.cached (py "{}"))
  ∧ ∀ q c, files_lookup (fs (Demo.cached (py "{}"))) q = Some (File c) →
           files_lookup (fs (Demo.cached (py "{}"))) q = Some (File c).
Proof.
  apply (cache_hit_writes_nothing (Demo.externals []) Demo.text
           Demo.output_path default_voice_id 3 (Demo.cached (py "{}"))
           (Demo.cached (py "{}"))
           (mkPrepared (Demo.job_dir ++ [py "section_1.mp3"]) Demo.api_key
                       Demo.cached_audio Demo.cached_timing)
           (py "{}") []).
  - vm_compute; reflexivity.
  - exists (File [0; 1; 2]%N). vm_compute; reflexivity.
  - vm_compute; reflexivity.
  - vm_compute; reflexivity.
  - eexists; vm_compute; reflexivity.
Defined.

(** X16. With the cached audio there before it, and with neither cache
    file in the place of the output file or of its timing file, an attempt
    that returns leaves the two cache files as it found them, and changes
    nothing but the output file and its timing file. So a cached timing
    file that could not be read is still the same after the audio was
    generated anew: the cache entry is not repaired. *)
Theorem existing_cache_is_kept (X : Externals) (text : pystr)
    (output_path : Path) (voice_id api_key : pystr)
    (cached_audio cached_timing timing_file : Path) (w w' : World)
    (r : VoiceoverResult) :
  attempt X text output_path voice_id api_key cached_audio cached_timing w
    = (Ok r, w') →
  is_Some (node_at w cached_audio) →
  with_suffix output_path (py ".timing.json") = Ok timing_file →
  cached_audio ∉ [output_path; timing_file] →
  cached_timing ∉ [output_path; timing_file] →
  node_at w' cached_audio = node_at w cached_audio
  ∧ node_at w' cached_timing = node_at w cached_timing
  ∧ ∀ q, q ≠ output_path → q ≠ timing_file → node_at w' q = node_at w q.
Proof.
  intros Hbody%attempt_traced [n Hn] Hsuffix Hca_other Hct_other.
  assert (∀ q, q ≠ output_path → q ≠ timing_file →
               node_at w' q = node_at w q) as Hother.
  { remember (Ok r) as res eqn:Hres.
    destruct Hbody as [| | | |b ws al tf Hout Hpar Htf w1 Hw1 w2 Hca
                       |b ws al tf Hout Hpar Htf w1 Hw1 w2 Hca w3 Hct Hctpar];
      try discriminate Hres;
      (assert (tf = timing_file) as -> by congruence); subst w2 w1.
    - intros q Hq1 Hq2. rewrite !node_at_wrote by done.
      by rewrite !decide_False by done.
    - exfalso. rewrite !node_at_wrote in Hca by done.
      change (node_at (after_post w)) with (node_at w) in Hca.
      repeat case_decide; congruence. }
  split_and!; [apply Hother; set_solver.. | done].
Qed.

Lemma existing_cache_is_kept_witness :
  node_at (wrote demo_timing_file (Demo.dumps 0 demo_timing_data)
             (wrote demo_output [0; 1; 2]%N
                (after_post (Demo.cached (py "{ truncated")))))
          Demo.cached_audio
  = node_at (Demo.cached (py "{ truncated")) Demo.cached_audio
  ∧ node_at (wrote demo_timing_file (Demo.dumps 0 demo_timing_data)
               (wrote demo_output [0; 1; 2]%N
                  (after_post (Demo.cached (py "{ truncated")))))
            Demo.cached_timing
    = node_at (Demo.cached (py "{ truncated")) Demo.cached_timing
  ∧ ∀ q, q ≠ demo_output → q ≠ demo_timing_file →
         node_at (wrote demo_timing_file (Demo.dumps 0 demo_timing_data)
                    (wrote demo_output [0; 1; 2]%N
                       (after_post (Demo.cached (py "{ truncated")))))
                 q
         = node_at (Demo.cached (py "{ truncated")) q.
Proof.
  apply (existing_cache_is_kept
           (Demo.externals [Responds Demo.good_response]) Demo.text
           demo_output default_voice_id Demo.api_key Demo.cached_audio
           Demo.cached_timing demo_timing_file
           (Demo.cached (py "{ truncated"))
           (wrote demo_timing_file (Demo.dumps 0 demo_timing_data)
              (wrote demo_output [0; 1; 2]%N
                 (after_post (Demo.cached (py "{ truncated")))))
           demo_result).
  - vm_compute; reflexivity.
  - exists (File [0; 1; 2]%N). vm_compute; reflexivity.
  - vm_compute; reflexivity.
  - apply not_elem_of_cons. split; [by vm_compute|].
    apply not_elem_of_cons. split; [by vm_compute | apply not_elem_of_nil].
  - apply not_elem_of_cons. split; [by vm_compute|].
    apply not_elem_of_cons. split; [by vm_compute | apply not_elem_of_nil].
Defined.

(** X18. The [audio_path] of a result is the path of something that exists
    when the call returns. For a result from the cache it is the cached
    audio, [<key>.mp3] in the directory of the output path with the key of
    the text and the voice, which is there; for any other result it is the
    output path, which is then a file. *)
Theorem returned_audio_path_exists (X : Externals)
    (text output_path voice_id : pystr) (retries : Z) (w w' : World)
    (r : VoiceoverResult) :
  generate_voiceover X text output_path voice_id retries w = (Ok r, w') →
  ∃ key,
    _get_cache_key text voice_id = Ok key
    ∧ if from_cache r
      then audio_path r
           = path_str (parent (Path_of_str output_path)
                         ++ [key ++ py ".mp3"])
           ∧ is_Some (node_at w' (parent (Path_of_str output_path)
                                    ++ [key ++ py ".mp3"]))
      else audio_path r = path_str (Path_of_str output_path)
           ∧ ∃ c, node_at w' (Path_of_str output_path) = Some (File c).
Proof.
  unfold generate_voiceover. intros H.
  apply bind_Ok in H as (p & w1 & Hprep & H).
  apply bind_Ok in H as (hit & w2 & Hhit & H).
  rewrite try_cache_run in Hhit.
  destruct (prepare_inv _ _ _ _ _ _ Hprep)
    as (_ & Hout & _ & key & Hkey & Hca & _).
  destruct (get_cache_key_shape _ _ _ Hkey) as [Hlen Hhex].
  rewrite joinpath_key in Hca by (done || by repeat constructor).
  exists key. split; [done|].
  destruct hit as [r0|].
  - injection H as -> ->.
    destruct (bool_decide (is_Some (node_at w1 (p_cached_audio p))))
      eqn:Haudio; [|done].
    apply bool_decide_eq_true_1 in Haudio.
    destruct (bool_decide _); [|done]. cbn [andb] in Hhit.
    destruct (read_cache X text _ _ w1) as [[r1|e] w3] eqn:Hread; [|done].
    injection Hhit as -> <-.
    apply read_cache_Ok in Hread as [Hpath ->].
    by rewrite <- Hca.
  - injection Hhit as _ ->. unfold synthesize in H.
    apply retry_loop_Ok_attempt in H as (w0 & _ & _ & Hbody).
    apply attempt_Ok_output in Hbody as (Hpath & -> & c & Hc).
    rewrite <- Hout. eauto.
Qed.

Lemma returned_audio_path_exists_witness :
  ∃ key,
    _get_cache_key Demo.text default_voice_id = Ok key
    ∧ if from_cache demo_result
      then audio_path demo_result
           = path_str (parent (Path_of_str Demo.output_path)
                         ++ [key ++ py ".mp3"])
           ∧ is_Some (node_at demo_generated
                              (parent (Path_of_str Demo.output_path)
                                 ++ [key ++ py ".mp3"]))
      else audio_path demo_result = path_str (Path_of_str Demo.output_path)
           ∧ ∃ c, node_at demo_generated (Path_of_str Demo.output_path)
                  = Some (File c).
Proof.
  apply (returned_audio_path_exists
           (Demo.externals [Responds Demo.good_response]) Demo.text
           Demo.output_path default_voice_id 3 Demo.fresh demo_generated
           demo_result).
  vm_compute; reflexivity.
Defined.

